(** * Movie-Reservation: the seat hold / booking engine

    A shallow embedding of [app/models.py], [app/main.py] (the endpoints
    [get_seats], [hold_seats], [confirm_reservation]) and [app/crud.py]
    (the showtime writers), with the properties of the specification
    stated and proved over it.

    Conventions of the embedding:
    - integers and ids are [Z]; a [datetime] is a [Z] number of seconds;
      [Numeric] prices are [Z] (no claim looks at them);
    - a table is the list of its rows in insertion order, a query is a
      [filter] over it, [.first()] is the head of the filtered list;
      primary keys and the unique constraint of [booked_seats] are what
      the store enforces, foreign keys are declared but not checked (the
      behaviour of the SQLite engine that [app/config.py] selects);
    - the Redis client is [option] of a finite map: [redis_client] is
      [None] when the connection failed at import time
      ([app/redis_client.py]); an entry carries its value and the instant
      at which it expires, and reads see only entries that are still live;
    - the Redis key [hold:{showtime_id}:{seat_id}] is the pair
      [(showtime_id, seat_id)]: the pattern [hold:{showtime_id}:*] selects
      the keys whose first component is [showtime_id], and
      [int(k.split(':')[-1])] is the second component;
    - every endpoint takes the current instant [now] and the state, and
      returns its response together with the state it leaves. *)

From stdpp Require Import gmap strings list fin_maps.
From Stdlib Require Import ZArith Lia.

Local Open Scope Z_scope.

(** ** app/models.py *)

Module Seat.
Record t := mk {
  id : Z;
  auditorium_id : option Z;
  row_label : option string;
  seat_number : option Z;
  seat_type : option string
}.
End Seat.

Module Showtime.
Record t := mk {
  id : Z;
  movie_id : Z;
  auditorium_id : Z;
  starts_at : Z;
  ends_at : Z;
  base_price : Z
}.
End Showtime.

Module Reservation.
Record t := mk {
  id : Z;
  user_id : option Z;
  showtime_id : Z;
  status : string;
  total_price : Z;
  expires_at : option Z
}.

Definition set_status (st : string) (r : t) : t :=
  mk (id r) (user_id r) (showtime_id r) st (total_price r) (expires_at r).
End Reservation.

Module BookedSeat.
Record t := mk {
  id : Z;
  showtime_id : Z;
  seat_id : Z;
  reservation_id : Z
}.
End BookedSeat.

Module Movie.
Record t := mk {
  id : Z;
  title : string;
  description : option string;
  duration_minutes : option Z;
  poster_url : option string;
  genre : option string;
  created_at : Z
}.
End Movie.

Module Auditorium.
Record t := mk {
  id : Z;
  name : string;
  capacity : Z;
  extra_metadata : option string
}.
End Auditorium.

Module User.
Record t := mk {
  id : Z;
  name : string;
  email : string;
  password_hash : string;
  role : string;
  created_at : Z
}.
End User.

(** The relational store: one list of rows per table. *)
Record Database := mkDatabase {
  seats : list Seat.t;
  showtimes : list Showtime.t;
  reservations : list Reservation.t;
  booked_seats : list BookedSeat.t
}.

(** The id an [Integer primary_key] column gives to a new row: one more
    than the largest id of the table, 1 for an empty table. *)
Definition next_id (ids : list Z) : Z := 1 + foldr Z.max 0 ids.

(** ** Queries and writes by primary key

    The tables [movies], [auditoriums] and [users] are passed to the
    functions that use them as lists of their own. *)

Section table.
Context {A : Type} (id : A → Z).

(** [db.query(M).filter(M.id == i).first()] *)
Definition first_by_id (i : Z) (rows : list A) : option A :=
  head (filter (λ r, id r = i) rows).

(** [db.delete(row); db.commit()] for the row of id [i]. *)
Definition delete_by_id (i : Z) (rows : list A) : list A :=
  filter (λ r, id r ≠ i) rows.

(** The attributes of the row of id [i] set to those of [new], then
    [db.commit()]. *)
Definition update_by_id (i : Z) (new : A) (rows : list A) : list A :=
  map (λ r, if decide (id r = i) then new else r) rows.

End table.

(** [query.offset(skip).limit(limit).all()]: a negative offset counts as
    zero and a negative limit as no limit. *)
Definition offset_limit {A : Type} (skip limit : Z) (rows : list A) : list A :=
  let rest := drop (Z.to_nat skip) rows in
  if decide (limit < 0) then rest else take (Z.to_nat limit) rest.

(** ** app/config.py *)

Definition HOLD_TTL_SECONDS : Z := 600.

(** ** The Redis client *)

Record HoldEntry := mkHoldEntry {
  value : Z;
  expire_at : Z
}.

Abbreviation Redis := (gmap (Z * Z) HoldEntry).

Definition hold_key (showtime_id sid : Z) : Z * Z := (showtime_id, sid).

Definition live (now : Z) (e : HoldEntry) : Prop := now < expire_at e.

#[global] Instance live_dec now e : Decision (live now e).
Proof. unfold live. apply _. Defined.

(** [redis_client.get(key)]: the value of a live entry. *)
Definition redis_get (now : Z) (r : Redis) (k : Z * Z) : option Z :=
  match r !! k with
  | Some e => if decide (live now e) then Some (value e) else None
  | None => None
  end.

(** [redis_client.keys(f'hold:{showtime_id}:*')]: the live keys of one
    showtime. *)
Definition redis_keys (now : Z) (r : Redis) (showtime_id : Z) : list (Z * Z) :=
  map fst
    (filter (λ kv, kv.1.1 = showtime_id ∧ live now kv.2) (map_to_list r)).

(** [redis_client.setex(key, ttl, value)] *)
Definition redis_setex (now : Z) (r : Redis) (k : Z * Z) (ttl v : Z) : Redis :=
  <[k := mkHoldEntry v (now + ttl)]> r.

(** [redis_client.delete(key)] *)
Definition redis_delete (r : Redis) (k : Z * Z) : Redis := delete k r.

(** The two stores the endpoints work on. *)
Record State := mkState {
  db : Database;
  redis_client : option Redis
}.

(** ** app/schemas.py and the HTTP errors *)

Record SeatStatusOut := mkSeatStatusOut {
  sso_id : Z;
  sso_row_label : option string;
  sso_seat_number : option Z;
  sso_seat_type : option string;
  sso_status : string
}.

Record HoldSeatsResponse := mkHoldSeatsResponse {
  hsr_reservation_id : Z;
  hsr_expires_at : option Z
}.

Record ConfirmReservationResponse := mkConfirmReservationResponse {
  crr_status : string;
  crr_reservation_id : Z
}.

Record HTTPException := mkHTTPException {
  status_code : Z;
  detail : string
}.

Inductive Response (A : Type) : Type :=
| Ok (a : A)
| Raise (e : HTTPException).
Arguments Ok {A} a.
Arguments Raise {A} e.

Definition InvalidSeatSelection := mkHTTPException 400 "Invalid seat selection".
Definition SeatsAlreadyBooked := mkHTTPException 409 "Some seats already booked".
Definition SeatsAlreadyHeld := mkHTTPException 409 "Some seats are held".
Definition ReservationNotFound :=
  mkHTTPException 404 "Reservation not found or not in held state".
Definition HoldExpired := mkHTTPException 400 "Hold expired or no seats held".
Definition SeatConflict := mkHTTPException 409 "Seat already booked by someone else".

(** ** app/main.py: get_seats *)

Definition booked_ids (showtime_id : Z) (d : Database) : gset Z :=
  list_to_set
    (map BookedSeat.seat_id
       (filter (λ b, BookedSeat.showtime_id b = showtime_id) (booked_seats d))).

Definition held_ids (now showtime_id : Z) (rc : option Redis) : gset Z :=
  match rc with
  | Some r => list_to_set (map snd (redis_keys now r showtime_id))
  | None => ∅
  end.

Definition seat_status (booked held : gset Z) (s : Seat.t) : string :=
  if decide (Seat.id s ∈ booked) then "booked"
  else if decide (Seat.id s ∈ held) then "held"
  else "available".

Definition get_seats (now showtime_id : Z) (s : State)
  : list SeatStatusOut * State :=
  let seats := seats (db s) in
  let booked_ids := booked_ids showtime_id (db s) in
  let held_ids := held_ids now showtime_id (redis_client s) in
  let response :=
    map (λ x, mkSeatStatusOut (Seat.id x) (Seat.row_label x)
                (Seat.seat_number x) (Seat.seat_type x)
                (seat_status booked_ids held_ids x)) seats in
  (response, s).

(** ** app/main.py: hold_seats *)

(** [db.query(models.Seat).filter(models.Seat.id.in_(seat_ids)).all()] *)
Definition seats_in (seat_ids : list Z) (d : Database) : list Seat.t :=
  filter (λ x, Seat.id x ∈ seat_ids) (seats d).

(** The [BookedSeat] rows of a showtime among [seat_ids]. *)
Definition booked_among (showtime_id : Z) (seat_ids : list Z) (d : Database)
  : list BookedSeat.t :=
  filter (λ b, BookedSeat.showtime_id b = showtime_id
               ∧ BookedSeat.seat_id b ∈ seat_ids) (booked_seats d).

(** The loop over [redis_client.get(f'hold:{showtime_id}:{sid}')]. *)
Definition some_held (now showtime_id : Z) (seat_ids : list Z)
    (rc : option Redis) : bool :=
  match rc with
  | Some r =>
      existsb (λ sid, bool_decide
                 (is_Some (redis_get now r (hold_key showtime_id sid))))
        seat_ids
  | None => false
  end.

(** [db.add(reservation); db.commit(); db.refresh(reservation)] *)
Definition add_reservation (r : Reservation.t) (d : Database) : Database :=
  mkDatabase (seats d) (showtimes d) (reservations d ++ [r]) (booked_seats d).

(** The loop over [redis_client.setex(key, HOLD_TTL_SECONDS, reservation.id)] *)
Definition write_holds (now showtime_id : Z) (seat_ids : list Z) (rid : Z)
    (rc : option Redis) : option Redis :=
  match rc with
  | Some r =>
      Some (foldl (λ acc sid,
                     redis_setex now acc (hold_key showtime_id sid)
                       HOLD_TTL_SECONDS rid) r seat_ids)
  | None => None
  end.

(** Lines 108-125: the three checks, in order; [None] when all pass. *)
Definition hold_check (now showtime_id : Z) (seat_ids : list Z) (s : State)
  : option HTTPException :=
  let seats := seats_in seat_ids (db s) in
  if decide (length seats ≠ length seat_ids) then Some InvalidSeatSelection
  else
  let booked := booked_among showtime_id seat_ids (db s) in
  if decide (booked ≠ []) then Some SeatsAlreadyBooked
  else
  if some_held now showtime_id seat_ids (redis_client s) then
    Some SeatsAlreadyHeld
  else None.

(** Lines 127-148: the Reservation row, then the hold entries. *)
Definition hold_write (now showtime_id : Z) (seat_ids : list Z) (s : State)
  : HoldSeatsResponse * State :=
  let reservation :=
    Reservation.mk (next_id (map Reservation.id (reservations (db s))))
      None showtime_id "held" 0 (Some (now + HOLD_TTL_SECONDS)) in
  let db1 := add_reservation reservation (db s) in
  let redis1 :=
    write_holds now showtime_id seat_ids (Reservation.id reservation)
      (redis_client s) in
  (mkHoldSeatsResponse (Reservation.id reservation)
     (Reservation.expires_at reservation),
   mkState db1 redis1).

Definition hold_seats (now showtime_id : Z) (seat_ids : list Z) (s : State)
  : Response HoldSeatsResponse * State :=
  match hold_check now showtime_id seat_ids s with
  | Some e => (Raise e, s)
  | None =>
      let (resp, s1) := hold_write now showtime_id seat_ids s in (Ok resp, s1)
  end.

(** ** app/main.py: confirm_reservation *)

(** The query on [id == reservation_id] and [status == 'held'], [.first()]. *)
Definition held_reservation (reservation_id : Z) (d : Database)
  : option Reservation.t :=
  head (filter (λ r, Reservation.id r = reservation_id
                     ∧ Reservation.status r = "held") (reservations d)).

(** [held_seats]: the seats of the live keys of the showtime whose value
    is the reservation id. *)
Definition held_seats (now : Z) (reservation : Reservation.t)
    (reservation_id : Z) (rc : option Redis) : list Z :=
  match rc with
  | Some r =>
      map snd
        (filter (λ k, redis_get now r k = Some reservation_id)
           (redis_keys now r (Reservation.showtime_id reservation)))
  | None => []
  end.

(** The unique constraint [uq_showtime_seat] of [booked_seats], as the
    store checks it when a row is inserted. *)
Definition violates_uq_showtime_seat (showtime_id sid : Z)
    (rows : list BookedSeat.t) : Prop :=
  Exists (λ b, BookedSeat.showtime_id b = showtime_id
               ∧ BookedSeat.seat_id b = sid) rows.

#[global] Instance violates_uq_showtime_seat_dec st sid rows :
  Decision (violates_uq_showtime_seat st sid rows).
Proof. unfold violates_uq_showtime_seat. apply _. Defined.

(** The flush of the [BookedSeat] objects added to the session, in the
    order of [held_seats]: [None] is the [IntegrityError]. *)
Fixpoint insert_booked_seats (showtime_id reservation_id : Z)
    (sids : list Z) (rows : list BookedSeat.t) : option (list BookedSeat.t) :=
  match sids with
  | [] => Some rows
  | sid :: rest =>
      if decide (violates_uq_showtime_seat showtime_id sid rows) then None
      else
        insert_booked_seats showtime_id reservation_id rest
          (rows ++ [BookedSeat.mk (next_id (map BookedSeat.id rows))
                      showtime_id sid reservation_id])
  end.

(** The [UPDATE] that [reservation.status = 'confirmed'] flushes. *)
Definition set_confirmed (rid : Z) (rows : list Reservation.t)
  : list Reservation.t :=
  map (λ r, if decide (Reservation.id r = rid)
            then Reservation.set_status "confirmed" r else r) rows.

(** The body of the [try]: every insert, the status update and the commit
    as one transaction; [None] when it was rolled back. *)
Definition commit_booking (reservation : Reservation.t) (sids : list Z)
    (d : Database) : option Database :=
  match insert_booked_seats (Reservation.showtime_id reservation)
          (Reservation.id reservation) sids (booked_seats d) with
  | Some rows =>
      Some (mkDatabase (seats d) (showtimes d)
              (set_confirmed (Reservation.id reservation) (reservations d))
              rows)
  | None => None
  end.

(** The loop over [redis_client.delete(f'hold:{showtime_id}:{sid}')]. *)
Definition clear_holds (showtime_id : Z) (sids : list Z) (rc : option Redis)
  : option Redis :=
  match rc with
  | Some r =>
      Some (foldl (λ acc sid, redis_delete acc (hold_key showtime_id sid))
              r sids)
  | None => None
  end.

(** Lines 154-170: what a confirmation reads before it writes. *)
Definition confirm_read (now reservation_id : Z) (s : State)
  : Response (Reservation.t * list Z) :=
  match held_reservation reservation_id (db s) with
  | None => Raise ReservationNotFound
  | Some reservation =>
      let held_seats :=
        held_seats now reservation reservation_id (redis_client s) in
      if decide (held_seats = []) then Raise HoldExpired
      else Ok (reservation, held_seats)
  end.

(** Lines 172-192: the transaction, then the deletion of the holds. *)
Definition confirm_write (reservation : Reservation.t) (held_seats : list Z)
    (s : State) : Response ConfirmReservationResponse * State :=
  match commit_booking reservation held_seats (db s) with
  | None => (Raise SeatConflict, s)
  | Some db1 =>
      (Ok (mkConfirmReservationResponse "confirmed"
             (Reservation.id reservation)),
       mkState db1
         (clear_holds (Reservation.showtime_id reservation) held_seats
            (redis_client s)))
  end.

Definition confirm_reservation (now reservation_id : Z) (s : State)
  : Response ConfirmReservationResponse * State :=
  match confirm_read now reservation_id s with
  | Raise e => (Raise e, s)
  | Ok (reservation, held_seats) => confirm_write reservation held_seats s
  end.

(** ** app/schemas.py: the bodies of the admin requests

    The Seat rows of this development have no [price_modifier] column, so
    the [price_modifier] of a request is carried by its body only. *)

Module schemas.

Module MovieCreate.
Record t := mk {
  title : string;
  description : option string;
  duration_minutes : option Z;
  poster_url : option string;
  genre : option string
}.
End MovieCreate.

Module AuditoriumCreate.
Record t := mk {
  name : string;
  capacity : Z;
  extra_metadata : option string
}.
End AuditoriumCreate.

Module SeatCreate.
Record t := mk {
  row_label : string;
  seat_number : Z;
  seat_type : string;
  price_modifier : Z
}.
End SeatCreate.

Module SeatCreateBatch.
Record t := mk {
  rows : Z;
  seats_per_row : Z;
  seat_type : string;
  price_modifier : Z
}.
End SeatCreateBatch.

Module UserCreate.
Record t := mk {
  name : string;
  email : string;
  password : string
}.
End UserCreate.

End schemas.

(** ** Characters

    [chr(i)] is the one-character string of code point [i], and raises
    ValueError ([None]) outside [range(0x110000)]. A string reaches the
    store as its UTF-8 bytes; a surrogate has none, and binding it to a
    statement fails. *)

Definition chr (i : Z) : option Z :=
  if decide (0 ≤ i < 1114112) then Some i else None.

Definition byte_string (bytes : list Z) : string :=
  foldr (λ b acc, String (Ascii.ascii_of_N (Z.to_N b)) acc) EmptyString bytes.

Definition utf8_bytes (c : Z) : list Z :=
  if decide (c < 128) then [c]
  else if decide (c < 2048) then [192 + c / 64; 128 + c mod 64]
  else if decide (c < 65536) then
    [224 + c / 4096; 128 + (c / 64) mod 64; 128 + c mod 64]
  else
    [240 + c / 262144; 128 + (c / 4096) mod 64; 128 + (c / 64) mod 64;
     128 + c mod 64].

Definition encode_char (c : Z) : option string :=
  if decide (55296 ≤ c < 57344) then None
  else Some (byte_string (utf8_bytes c)).

(** ** app/crud.py: seats and showtimes *)

Module crud.

Record ShowtimeCreate := mkShowtimeCreate {
  movie_id : Z;
  auditorium_id : Z;
  starts_at : Z;
  ends_at : Z;
  base_price : Z
}.

Definition get_seats_by_auditorium (d : Database) (auditorium_id : Z)
  : list Seat.t :=
  filter (λ x, Seat.auditorium_id x = Some auditorium_id) (seats d).

(** The filter of the overlap query: same auditorium,
    [starts_at < showtime_in.ends_at], [ends_at > showtime_in.starts_at]. *)
Definition overlaps (showtime_in : ShowtimeCreate) (e : Showtime.t) : Prop :=
  Showtime.auditorium_id e = auditorium_id showtime_in
  ∧ Showtime.starts_at e < ends_at showtime_in
  ∧ Showtime.ends_at e > starts_at showtime_in.

#[global] Instance overlaps_dec x e : Decision (overlaps x e).
Proof. unfold overlaps. apply _. Defined.

Definition with_showtimes (rows : list Showtime.t) (d : Database) : Database :=
  mkDatabase (seats d) rows (reservations d) (booked_seats d).

Definition create_showtime (d : Database) (showtime_in : ShowtimeCreate)
  : option Showtime.t * Database :=
  let overlapping := head (filter (overlaps showtime_in) (showtimes d)) in
  match overlapping with
  | Some _ => (None, d)
  | None =>
      let showtime :=
        Showtime.mk (next_id (map Showtime.id (showtimes d)))
          (movie_id showtime_in) (auditorium_id showtime_in)
          (starts_at showtime_in) (ends_at showtime_in)
          (base_price showtime_in) in
      (Some showtime, with_showtimes (showtimes d ++ [showtime]) d)
  end.

Definition get_showtime (d : Database) (showtime_id : Z)
  : option Showtime.t :=
  head (filter (λ e, Showtime.id e = showtime_id) (showtimes d)).

Definition update_showtime (d : Database) (showtime_id : Z)
    (showtime_in : ShowtimeCreate) : option Showtime.t * Database :=
  match get_showtime d showtime_id with
  | None => (None, d)
  | Some showtime =>
      let overlapping :=
        head (filter (λ e, Showtime.id e ≠ showtime_id
                           ∧ overlaps showtime_in e) (showtimes d)) in
      match overlapping with
      | Some _ => (None, d)
      | None =>
          let showtime1 :=
            Showtime.mk (Showtime.id showtime)
              (movie_id showtime_in) (auditorium_id showtime_in)
              (starts_at showtime_in) (ends_at showtime_in)
              (base_price showtime_in) in
          (Some showtime1,
           with_showtimes
             (map (λ e, if decide (Showtime.id e = Showtime.id showtime)
                        then showtime1 else e) (showtimes d)) d)
      end
  end.

(** *** Movies *)

Definition create_movie (now : Z) (movies : list Movie.t)
    (movie_in : schemas.MovieCreate.t) : Movie.t * list Movie.t :=
  let movie :=
    Movie.mk (next_id (map Movie.id movies))
      (schemas.MovieCreate.title movie_in)
      (schemas.MovieCreate.description movie_in)
      (schemas.MovieCreate.duration_minutes movie_in)
      (schemas.MovieCreate.poster_url movie_in)
      (schemas.MovieCreate.genre movie_in) now in
  (movie, movies ++ [movie]).

Definition get_movies (movies : list Movie.t) (skip limit : Z)
  : list Movie.t :=
  offset_limit skip limit movies.

Definition get_movie (movies : list Movie.t) (movie_id : Z) : option Movie.t :=
  first_by_id Movie.id movie_id movies.

Definition update_movie (movies : list Movie.t) (movie_id : Z)
    (movie_in : schemas.MovieCreate.t) : option Movie.t * list Movie.t :=
  match get_movie movies movie_id with
  | None => (None, movies)
  | Some movie =>
      let movie1 :=
        Movie.mk (Movie.id movie)
          (schemas.MovieCreate.title movie_in)
          (schemas.MovieCreate.description movie_in)
          (schemas.MovieCreate.duration_minutes movie_in)
          (schemas.MovieCreate.poster_url movie_in)
          (schemas.MovieCreate.genre movie_in) (Movie.created_at movie) in
      (Some movie1, update_by_id Movie.id (Movie.id movie) movie1 movies)
  end.

Definition delete_movie (movies : list Movie.t) (movie_id : Z)
  : option Movie.t * list Movie.t :=
  match get_movie movies movie_id with
  | Some movie => (Some movie, delete_by_id Movie.id (Movie.id movie) movies)
  | None => (None, movies)
  end.

(** *** Auditoriums *)

Definition create_auditorium (auditoriums : list Auditorium.t)
    (auditorium_in : schemas.AuditoriumCreate.t)
  : Auditorium.t * list Auditorium.t :=
  let auditorium :=
    Auditorium.mk (next_id (map Auditorium.id auditoriums))
      (schemas.AuditoriumCreate.name auditorium_in)
      (schemas.AuditoriumCreate.capacity auditorium_in)
      (schemas.AuditoriumCreate.extra_metadata auditorium_in) in
  (auditorium, auditoriums ++ [auditorium]).

Definition get_auditoriums (auditoriums : list Auditorium.t) (skip limit : Z)
  : list Auditorium.t :=
  offset_limit skip limit auditoriums.

Definition get_auditorium (auditoriums : list Auditorium.t)
    (auditorium_id : Z) : option Auditorium.t :=
  first_by_id Auditorium.id auditorium_id auditoriums.

Definition update_auditorium (auditoriums : list Auditorium.t)
    (auditorium_id : Z) (auditorium_in : schemas.AuditoriumCreate.t)
  : option Auditorium.t * list Auditorium.t :=
  match get_auditorium auditoriums auditorium_id with
  | None => (None, auditoriums)
  | Some auditorium =>
      let auditorium1 :=
        Auditorium.mk (Auditorium.id auditorium)
          (schemas.AuditoriumCreate.name auditorium_in)
          (schemas.AuditoriumCreate.capacity auditorium_in)
          (schemas.AuditoriumCreate.extra_metadata auditorium_in) in
      (Some auditorium1,
       update_by_id Auditorium.id (Auditorium.id auditorium) auditorium1
         auditoriums)
  end.

Definition delete_auditorium (auditoriums : list Auditorium.t)
    (auditorium_id : Z) : option Auditorium.t * list Auditorium.t :=
  match get_auditorium auditoriums auditorium_id with
  | Some auditorium =>
      (Some auditorium,
       delete_by_id Auditorium.id (Auditorium.id auditorium) auditoriums)
  | None => (None, auditoriums)
  end.

(** *** Seats *)

Definition with_seats (rows : list Seat.t) (d : Database) : Database :=
  mkDatabase rows (showtimes d) (reservations d) (booked_seats d).

Definition create_seat (d : Database) (seat_in : schemas.SeatCreate.t)
  : Seat.t * Database :=
  let seat :=
    Seat.mk (next_id (map Seat.id (seats d))) None
      (Some (schemas.SeatCreate.row_label seat_in))
      (Some (schemas.SeatCreate.seat_number seat_in))
      (Some (schemas.SeatCreate.seat_type seat_in)) in
  (seat, with_seats (seats d ++ [seat]) d).

(** The two loops of [create_seats_batch]: the label and number of each
    seat, row by row; [None] when [chr] raises. *)
Definition batch_plan (rows seats_per_row : Z) : option (list (Z * Z)) :=
  labels ← mapM (λ row, chr (64 + row)) (seqZ 1 rows);
  Some (flat_map (λ label, map (λ seat_num, (label, seat_num))
                             (seqZ 1 seats_per_row)) labels).

(** [db.add_all(seats); db.commit()]: the rows in order, each with the
    next id; [None] when a label cannot be stored. *)
Fixpoint add_all_seats (auditorium_id : Z) (seat_type : string)
    (plan : list (Z * Z)) (table : list Seat.t)
  : option (list Seat.t * list Seat.t) :=
  match plan with
  | [] => Some ([], table)
  | (label, seat_num) :: rest =>
      match encode_char label with
      | None => None
      | Some row_label =>
          let seat :=
            Seat.mk (next_id (map Seat.id table)) (Some auditorium_id)
              (Some row_label) (Some seat_num) (Some seat_type) in
          match add_all_seats auditorium_id seat_type rest (table ++ [seat])
          with
          | Some (created, table1) => Some (seat :: created, table1)
          | None => None
          end
      end
  end.

(** [None] stands for the exception that leaves the request unanswered
    and the store as it was. *)
Definition create_seats_batch (d : Database) (auditorium_id rows
    seats_per_row : Z) (seat_type : string) (price_modifier : Z)
  : option (list Seat.t) * Database :=
  match batch_plan rows seats_per_row with
  | None => (None, d)
  | Some plan =>
      match add_all_seats auditorium_id seat_type plan (seats d) with
      | None => (None, d)
      | Some (created, table1) => (Some created, with_seats table1 d)
      end
  end.

Definition get_seat (d : Database) (seat_id : Z) : option Seat.t :=
  first_by_id Seat.id seat_id (seats d).

Definition delete_seat (d : Database) (seat_id : Z)
  : option Seat.t * Database :=
  match get_seat d seat_id with
  | Some seat =>
      (Some seat, with_seats (delete_by_id Seat.id (Seat.id seat) (seats d)) d)
  | None => (None, d)
  end.

(** *** Showtimes *)

Definition get_showtimes (d : Database) (skip limit : Z) : list Showtime.t :=
  offset_limit skip limit (showtimes d).

Definition delete_showtime (d : Database) (showtime_id : Z)
  : option Showtime.t * Database :=
  match get_showtime d showtime_id with
  | Some showtime =>
      (Some showtime,
       with_showtimes
         (delete_by_id Showtime.id (Showtime.id showtime) (showtimes d)) d)
  | None => (None, d)
  end.

(** *** Users

    [get_password_hash] is the argon2 hash of [app/auth.py]; the salt it
    draws is an argument here. *)

Section users.
Variable get_password_hash : string → string → string.

Definition create_user (now : Z) (salt : string) (users : list User.t)
    (user_in : schemas.UserCreate.t) : User.t * list User.t :=
  let user :=
    User.mk (next_id (map User.id users))
      (schemas.UserCreate.name user_in)
      (schemas.UserCreate.email user_in)
      (get_password_hash salt (schemas.UserCreate.password user_in))
      "user" now in
  (user, users ++ [user]).

End users.

Definition get_user_by_email (users : list User.t) (email : string)
  : option User.t :=
  head (filter (λ u, User.email u = email) users).

End crud.

(** ** app/main.py: the admin endpoints and signup *)

Module main.

Record Deleted := mkDeleted {
  deleted_status : string;
  deleted_id : Z
}.

Record SeatsCreated := mkSeatsCreated {
  created_status : string;
  created_count : Z;
  created_auditorium_id : Z
}.

Definition ShowtimeOverlap : HTTPException :=
  mkHTTPException 409
    "Showtime overlaps with existing showtime in same auditorium".
Definition ShowtimeNotFound : HTTPException :=
  mkHTTPException 404 "Showtime not found".
Definition AuditoriumNotFound : HTTPException :=
  mkHTTPException 404 "Auditorium not found".
Definition SeatNotFound : HTTPException :=
  mkHTTPException 404 "Seat not found".
Definition EmailAlreadyRegistered : HTTPException :=
  mkHTTPException 400 "Email already registered".
(** What the framework answers when the handler raises something else. *)
Definition InternalServerError : HTTPException :=
  mkHTTPException 500 "Internal Server Error".

Definition create_showtime (d : Database) (showtime_in : crud.ShowtimeCreate)
  : Response Showtime.t * Database :=
  match crud.create_showtime d showtime_in with
  | (None, d1) => (Raise ShowtimeOverlap, d1)
  | (Some showtime, d1) => (Ok showtime, d1)
  end.

Definition get_showtime (d : Database) (showtime_id : Z)
  : Response Showtime.t :=
  match crud.get_showtime d showtime_id with
  | None => Raise ShowtimeNotFound
  | Some showtime => Ok showtime
  end.

Definition update_showtime (d : Database) (showtime_id : Z)
    (showtime_in : crud.ShowtimeCreate) : Response Showtime.t * Database :=
  match crud.update_showtime d showtime_id showtime_in with
  | (None, d1) => (Raise ShowtimeOverlap, d1)
  | (Some showtime, d1) => (Ok showtime, d1)
  end.

Definition delete_showtime (d : Database) (showtime_id : Z)
  : Response Deleted * Database :=
  match crud.delete_showtime d showtime_id with
  | (None, d1) => (Raise ShowtimeNotFound, d1)
  | (Some _, d1) => (Ok (mkDeleted "deleted" showtime_id), d1)
  end.

Definition create_seats_batch (auditoriums : list Auditorium.t) (d : Database)
    (auditorium_id : Z) (batch_in : schemas.SeatCreateBatch.t)
  : Response SeatsCreated * Database :=
  match crud.get_auditorium auditoriums auditorium_id with
  | None => (Raise AuditoriumNotFound, d)
  | Some _ =>
      match crud.create_seats_batch d auditorium_id
              (schemas.SeatCreateBatch.rows batch_in)
              (schemas.SeatCreateBatch.seats_per_row batch_in)
              (schemas.SeatCreateBatch.seat_type batch_in)
              (schemas.SeatCreateBatch.price_modifier batch_in) with
      | (None, d1) => (Raise InternalServerError, d1)
      | (Some seats, d1) =>
          (Ok (mkSeatsCreated "created" (Z.of_nat (length seats))
                 auditorium_id), d1)
      end
  end.

Definition get_auditorium_seats (auditoriums : list Auditorium.t)
    (d : Database) (auditorium_id : Z) : Response (list Seat.t) :=
  match crud.get_auditorium auditoriums auditorium_id with
  | None => Raise AuditoriumNotFound
  | Some _ => Ok (crud.get_seats_by_auditorium d auditorium_id)
  end.

Definition delete_seat (d : Database) (seat_id : Z)
  : Response Deleted * Database :=
  match crud.delete_seat d seat_id with
  | (None, d1) => (Raise SeatNotFound, d1)
  | (Some _, d1) => (Ok (mkDeleted "deleted" seat_id), d1)
  end.

Section signup.
Variable get_password_hash : string → string → string.

Definition signup (now : Z) (salt : string) (users : list User.t)
    (user_in : schemas.UserCreate.t) : Response User.t * list User.t :=
  match crud.get_user_by_email users (schemas.UserCreate.email user_in) with
  | Some _ => (Raise EmailAlreadyRegistered, users)
  | None =>
      let (user, users1) :=
        crud.create_user get_password_hash now salt users user_in in
      (Ok user, users1)
  end.

End signup.

End main.

(** ** The service as a transition system *)

(** The requests that read or write the reservations, the bookings and
    the hold index, and the two showtime writers. *)

Inductive Request :=
| GetSeats (showtime_id : Z)
| HoldSeats (showtime_id : Z) (seat_ids : list Z)
| ConfirmReservation (reservation_id : Z)
| CreateShowtime (showtime_in : crud.ShowtimeCreate)
| UpdateShowtime (showtime_id : Z) (showtime_in : crud.ShowtimeCreate).

(** The state a request handled at instant [now] leaves. *)
Definition handle (now : Z) (req : Request) (s : State) : State :=
  match req with
  | GetSeats showtime_id => (get_seats now showtime_id s).2
  | HoldSeats showtime_id seat_ids => (hold_seats now showtime_id seat_ids s).2
  | ConfirmReservation reservation_id =>
      (confirm_reservation now reservation_id s).2
  | CreateShowtime showtime_in =>
      mkState (crud.create_showtime (db s) showtime_in).2 (redis_client s)
  | UpdateShowtime showtime_id showtime_in =>
      mkState (crud.update_showtime (db s) showtime_id showtime_in).2
        (redis_client s)
  end.

(** Requests are served in parallel. A hold that has passed its checks
    (lines 108-125) and a confirmation that has done its reads (lines
    154-170) stay in flight while other requests run; their writes then
    meet whatever the stores hold by then. *)
Inductive InFlight :=
| HoldChecked (showtime_id : Z) (seat_ids : list Z)
| ConfirmRead (reservation : Reservation.t) (held_seats : list Z).

Record System := mkSystem {
  stores : State;
  in_flight : list InFlight
}.

Inductive step : System → System → Prop :=
| step_request now req sys :
    step sys (mkSystem (handle now req (stores sys)) (in_flight sys))
| step_hold_check now showtime_id seat_ids sys :
    hold_check now showtime_id seat_ids (stores sys) = None →
    step sys (mkSystem (stores sys)
                (HoldChecked showtime_id seat_ids :: in_flight sys))
| step_hold_write now showtime_id seat_ids sys before after :
    in_flight sys = before ++ HoldChecked showtime_id seat_ids :: after →
    step sys (mkSystem (hold_write now showtime_id seat_ids (stores sys)).2
                (before ++ after))
| step_confirm_read now reservation_id sys reservation held_seats :
    confirm_read now reservation_id (stores sys)
    = Ok (reservation, held_seats) →
    step sys (mkSystem (stores sys)
                (ConfirmRead reservation held_seats :: in_flight sys))
| step_confirm_write sys reservation held_seats before after :
    in_flight sys = before ++ ConfirmRead reservation held_seats :: after →
    step sys (mkSystem (confirm_write reservation held_seats (stores sys)).2
                (before ++ after)).

(** A freshly deployed service: a catalogue, no reservation, no booking. *)
Definition initial (sys : System) : Prop :=
  reservations (db (stores sys)) = []
  ∧ booked_seats (db (stores sys)) = []
  ∧ in_flight sys = [].

Definition reachable (sys : System) : Prop :=
  ∃ sys0, initial sys0 ∧ rtc step sys0 sys.

(** ** The vocabulary of the specification *)

(** Primary keys. *)
Definition seats_pk (d : Database) : Prop := NoDup (map Seat.id (seats d)).
Definition showtimes_pk (d : Database) : Prop :=
  NoDup (map Showtime.id (showtimes d)).

Definition seat_exists (sid : Z) (d : Database) : Prop :=
  Exists (λ x, Seat.id x = sid) (seats d).

Definition has_booked_row (showtime_id sid : Z) (d : Database) : Prop :=
  Exists (λ b, BookedSeat.showtime_id b = showtime_id
               ∧ BookedSeat.seat_id b = sid) (booked_seats d).

Definition has_live_hold (now showtime_id sid : Z) (rc : option Redis) : Prop :=
  match rc with
  | Some r =>
      match r !! hold_key showtime_id sid with
      | Some e => live now e
      | None => False
      end
  | None => False
  end.

#[global] Instance seats_pk_dec d : Decision (seats_pk d).
Proof. unfold seats_pk. apply _. Defined.
#[global] Instance showtimes_pk_dec d : Decision (showtimes_pk d).
Proof. unfold showtimes_pk. apply _. Defined.
#[global] Instance seat_exists_dec sid d : Decision (seat_exists sid d).
Proof. unfold seat_exists. apply _. Defined.
#[global] Instance has_booked_row_dec st sid d : Decision (has_booked_row st sid d).
Proof. unfold has_booked_row. apply _. Defined.
#[global] Instance has_live_hold_dec now st sid rc :
  Decision (has_live_hold now st sid rc).
Proof. unfold has_live_hold. destruct rc as [r|]; [destruct (r !! _)|]; apply _. Defined.

(** A live hold entry of the showtime for the seat, owned by reservation
    [rid]. *)
Definition holds_seat (now showtime_id rid : Z) (rc : option Redis) (sid : Z)
  : Prop :=
  match rc with
  | Some r =>
      match r !! hold_key showtime_id sid with
      | Some e => live now e ∧ value e = rid
      | None => False
      end
  | None => False
  end.

(** The constraint [uq_showtime_seat] as a property of the table. *)
Definition booking_key (b : BookedSeat.t) : Z * Z :=
  (BookedSeat.showtime_id b, BookedSeat.seat_id b).

Definition uq_showtime_seat (rows : list BookedSeat.t) : Prop :=
  NoDup (map booking_key rows).

#[global] Instance uq_showtime_seat_dec rows : Decision (uq_showtime_seat rows).
Proof. unfold uq_showtime_seat. apply _. Defined.

(** The status the specification gives a seat: booked first, then held. *)
Definition status_of (now showtime_id : Z) (s : State) (sid : Z) : string :=
  if decide (has_booked_row showtime_id sid (db s)) then "booked"
  else if decide (has_live_hold now showtime_id sid (redis_client s)) then "held"
  else "available".

(** Two showtimes whose intervals [starts_at, ends_at) share an instant. *)
Definition intervals_overlap (a b : Showtime.t) : Prop :=
  ∃ t, Showtime.starts_at a ≤ t < Showtime.ends_at a
       ∧ Showtime.starts_at b ≤ t < Showtime.ends_at b.

(** The same, as a comparison. *)
Definition intervals_meet (a b : Showtime.t) : Prop :=
  Z.max (Showtime.starts_at a) (Showtime.starts_at b)
  < Z.min (Showtime.ends_at a) (Showtime.ends_at b).

(** No two showtimes of one auditorium overlap. *)
Definition no_overlapping_showtimes (d : Database) : Prop :=
  ∀ a b, a ∈ showtimes d → b ∈ showtimes d →
    Showtime.id a ≠ Showtime.id b →
    Showtime.auditorium_id a = Showtime.auditorium_id b →
    ¬ intervals_overlap a b.

(** The same, as a check over the table. *)
Definition no_overlapping_showtimes_check (d : Database) : Prop :=
  Forall (λ a,
    Forall (λ b,
      Showtime.id a ≠ Showtime.id b →
      Showtime.auditorium_id a = Showtime.auditorium_id b →
      ¬ intervals_meet a b) (showtimes d)) (showtimes d).

#[global] Instance no_overlapping_showtimes_check_dec d :
  Decision (no_overlapping_showtimes_check d).
Proof. unfold no_overlapping_showtimes_check, intervals_meet. apply _. Defined.

(** No hold entry of the showtime is live at one of the two instants and
    lapsed at the other. *)
Definition no_expiry_between (now1 now2 showtime_id : Z) (rc : option Redis)
  : Prop :=
  match rc with
  | Some r =>
      map_Forall (λ k e, k.1 = showtime_id → (live now1 e ↔ live now2 e)) r
  | None => True
  end.

#[global] Instance no_expiry_between_dec now1 now2 showtime_id rc :
  Decision (no_expiry_between now1 now2 showtime_id rc).
Proof. unfold no_expiry_between. destruct rc; apply _. Defined.

(** At most one [BookedSeat] row per (showtime, seat). *)
Definition no_double_booking (d : Database) : Prop :=
  ∀ showtime_id sid,
    (length (filter (λ b, BookedSeat.showtime_id b = showtime_id
                          ∧ BookedSeat.seat_id b = sid) (booked_seats d))
     ≤ 1)%nat.

(** ** Concrete stores used by the examples *)

(** Two seats in auditorium 1, one in auditorium 2, and a showtime in
    auditorium 1. *)
Definition ex_db : Database :=
  mkDatabase
    [Seat.mk 1 (Some 1) (Some "A") (Some 1) (Some "regular");
     Seat.mk 2 (Some 1) (Some "A") (Some 2) (Some "regular");
     Seat.mk 3 (Some 2) (Some "A") (Some 1) (Some "regular")]
    [Showtime.mk 10 1 1 100 200 15]
    []
    [].

(** Redis connected and empty. *)
Definition ex_state : State := mkState ex_db (Some ∅).

(** Redis not connected. *)
Definition ex_state_no_redis : State := mkState ex_db None.

(** After [hold_seats] of seats 1 and 2 at instant 5: reservation 1. *)
Definition ex_state_held : State := (hold_seats 5 10 [1; 2] ex_state).2.

(** After the confirmation of reservation 1 at instant 7. *)
Definition ex_state_confirmed : State :=
  (confirm_reservation 7 1 ex_state_held).2.

(** Two racing holds: the request for seat 1 and the request for seats 1
    and 2 both pass their checks; the first writes and is confirmed, and
    then the second writes its row (reservation 2) and its entries. *)
Definition ex_state_race : State :=
  (hold_write 6 10 [1; 2]
     (confirm_reservation 6 1 (hold_write 5 10 [1] ex_state).2).2).2.

Definition ex_reservation_1 : Reservation.t :=
  Reservation.mk 1 None 10 "held" 0 (Some 605).

Definition ex_reservation_2 : Reservation.t :=
  Reservation.mk 2 None 10 "held" 0 (Some 606).

(** The system once reservation 2 has tried to confirm. *)
Definition ex_sys_end : System :=
  mkSystem (confirm_write ex_reservation_2 [1; 2] ex_state_race).2 [].

(** A second showtime for auditorium 1, from 200 to 300, right after
    showtime 10; and one from 150 to 250, which overlaps showtime 10. *)
Definition ex_showtime_in : crud.ShowtimeCreate :=
  crud.mkShowtimeCreate 2 1 200 300 15.

Definition ex_showtime_in_early : crud.ShowtimeCreate :=
  crud.mkShowtimeCreate 2 1 150 250 15.

(** The store once the second showtime, id 11, is created. *)
Definition ex_db_two_showtimes : Database :=
  (crud.create_showtime ex_db ex_showtime_in).2.

(** A closed decidable proposition, settled by evaluation. *)
Ltac by_evaluation := apply (bool_decide_unpack _); vm_compute; exact I.

(** ** Further vocabulary: the life of a reservation *)

(** Every hold entry carries the id of a Reservation row. *)
Definition holds_name_reservations (s : State) : Prop :=
  match redis_client s with
  | Some r =>
      map_Forall (λ _ e, value e ∈ map Reservation.id (reservations (db s))) r
  | None => True
  end.

#[global] Instance holds_name_reservations_dec s :
  Decision (holds_name_reservations s).
Proof. unfold holds_name_reservations. destruct (redis_client s); apply _. Defined.

(** A confirmation in flight works for a Reservation row of the store. *)
Definition in_flight_known (sys : System) : Prop :=
  ∀ reservation sids,
    ConfirmRead reservation sids ∈ in_flight sys →
    Reservation.id reservation
    ∈ map Reservation.id (reservations (db (stores sys))).

(** Every BookedSeat row belongs to a confirmed Reservation. *)
Definition bookings_confirmed (d : Database) : Prop :=
  ∀ b, b ∈ booked_seats d →
    ∃ r, r ∈ reservations d
         ∧ Reservation.id r = BookedSeat.reservation_id b
         ∧ Reservation.status r = "confirmed".

(** No Reservation row with this id can still be confirmed. *)
Definition settled (rid : Z) (d : Database) : Prop :=
  rid ∈ map Reservation.id (reservations d)
  ∧ Forall (λ r, Reservation.id r = rid → Reservation.status r ≠ "held")
      (reservations d).

(** ** Further vocabulary: the catalogue and the users *)

Definition movies_pk (movies : list Movie.t) : Prop :=
  NoDup (map Movie.id movies).
Definition auditoriums_pk (auditoriums : list Auditorium.t) : Prop :=
  NoDup (map Auditorium.id auditoriums).
Definition users_pk (users : list User.t) : Prop :=
  NoDup (map User.id users).

(** No two users share an email. *)
Definition emails_unique (users : list User.t) : Prop :=
  NoDup (map User.email users).

(** ** Concrete catalogue used by the examples *)

Definition ex_movie_in : schemas.MovieCreate.t :=
  schemas.MovieCreate.mk "The Quantum Paradox" None (Some 148) None
    (Some "Sci-Fi").

Definition ex_movie_in_2 : schemas.MovieCreate.t :=
  schemas.MovieCreate.mk "Midnight in Paris" None (Some 100) None
    (Some "Romance").

Definition ex_movies : list Movie.t :=
  (crud.create_movie 2 (crud.create_movie 1 [] ex_movie_in).2 ex_movie_in_2).2.

Definition ex_auditorium_in : schemas.AuditoriumCreate.t :=
  schemas.AuditoriumCreate.mk "Screen A (Premium)" 150 None.

Definition ex_auditoriums : list Auditorium.t :=
  (crud.create_auditorium [] ex_auditorium_in).2.

Definition ex_batch_in : schemas.SeatCreateBatch.t :=
  schemas.SeatCreateBatch.mk 2 3 "regular" 0.

Definition ex_user_in : schemas.UserCreate.t :=
  schemas.UserCreate.mk "Test User" "test@example.com" "secret".

(** A stand-in for the hash, for the examples only. *)
Definition ex_hash (salt password : string) : string :=
  (salt ++ "$" ++ password)%string.

(** * Properties *)

(** ** Queries over a table *)

Section queries.
Context {A : Type} (P : A → Prop) `{!∀ x, Decision (P x)}.

Lemma filter_nil_Forall (l : list A) :
  filter P l = [] ↔ Forall (λ x, ¬ P x) l.
Proof.
  induction l as [|x l IH]; [by split; [constructor|]|].
  rewrite filter_cons, Forall_cons. destruct (decide (P x)).
  - split; [done|]. by intros [? _].
  - rewrite IH. tauto.
Qed.

Lemma first_None (l : list A) :
  head (filter P l) = None ↔ Forall (λ x, ¬ P x) l.
Proof.
  rewrite <- filter_nil_Forall. by destruct (filter P l).
Qed.

Lemma first_Some (l : list A) x :
  head (filter P l) = Some x → x ∈ l ∧ P x.
Proof.
  intros Hh. apply head_Some_elem_of in Hh.
  apply list_elem_of_filter in Hh. tauto.
Qed.

Lemma first_is_Some (l : list A) :
  is_Some (head (filter P l)) ↔ Exists P l.
Proof.
  rewrite <- not_eq_None_Some. split.
  - intros Hn. destruct (decide (Exists P l)) as [|Hne]; [done|].
    destruct Hn. apply first_None. by apply not_Exists_Forall.
  - intros He Hn. apply first_None in Hn.
    apply Exists_exists in He as (x & Hx & HP).
    rewrite Forall_forall in Hn. by apply (Hn x).
Qed.
End queries.

(** ** Reading the two stores *)

Section store_reads.
Implicit Types (r : Redis) (d : Database) (k : Z * Z).

Lemma elem_of_redis_keys now r showtime_id k :
  k ∈ redis_keys now r showtime_id
  ↔ k.1 = showtime_id ∧ ∃ e, r !! k = Some e ∧ live now e.
Proof.
  unfold redis_keys. rewrite list_elem_of_fmap. split.
  - intros [[k' e] [-> [[Hk Hl] Hin]%list_elem_of_filter]].
    apply elem_of_map_to_list in Hin. simpl in *. eauto.
  - intros [Hk (e & He & Hl)]. exists (k, e). split; [done|].
    apply list_elem_of_filter. split; [done|].
    by apply elem_of_map_to_list.
Qed.

Lemma NoDup_redis_keys now r showtime_id :
  NoDup (redis_keys now r showtime_id).
Proof.
  unfold redis_keys.
  apply (NoDup_fmap_fst _).
  - intros k e1 e2 [_ H1]%list_elem_of_filter [_ H2]%list_elem_of_filter.
    apply elem_of_map_to_list in H1, H2. congruence.
  - apply NoDup_filter, NoDup_map_to_list.
Qed.

Lemma redis_get_Some now r k v :
  redis_get now r k = Some v
  ↔ ∃ e, r !! k = Some e ∧ live now e ∧ value e = v.
Proof.
  unfold redis_get. destruct (r !! k) as [e|].
  - destruct (decide (live now e)) as [Hl|Hl]; split.
    + intros [= <-]. eauto.
    + by intros (e' & [= <-] & _ & <-).
    + done.
    + by intros (e' & [= <-] & ? & _).
  - split; [done|]. by intros (? & ? & _).
Qed.

Lemma redis_get_is_Some now r showtime_id sid :
  is_Some (redis_get now r (hold_key showtime_id sid))
  ↔ has_live_hold now showtime_id sid (Some r).
Proof.
  unfold redis_get, has_live_hold.
  destruct (r !! hold_key showtime_id sid) as [e|].
  - case_decide; [by split; eauto|]. split; [by intros [? ?]|done].
  - split; [by intros [? ?]|done].
Qed.

Lemma elem_of_booked_ids showtime_id d sid :
  sid ∈ booked_ids showtime_id d ↔ has_booked_row showtime_id sid d.
Proof.
  unfold booked_ids, has_booked_row.
  rewrite elem_of_list_to_set, list_elem_of_fmap, Exists_exists.
  split.
  - intros (b & -> & [Hs Hin]%list_elem_of_filter). eauto.
  - intros (b & Hin & Hs & Hid). exists b. split; [done|].
    by apply list_elem_of_filter.
Qed.

Lemma elem_of_held_ids now showtime_id rc sid :
  sid ∈ held_ids now showtime_id rc ↔ has_live_hold now showtime_id sid rc.
Proof.
  unfold held_ids, has_live_hold, hold_key. destruct rc as [r|]; [|set_solver].
  rewrite elem_of_list_to_set, list_elem_of_fmap. split.
  - intros ([st x] & -> & [Hst (e & He & Hl)]%elem_of_redis_keys).
    simpl in *. subst st. by rewrite He.
  - intros H. exists (showtime_id, sid). split; [done|].
    apply elem_of_redis_keys. split; [done|].
    destruct (r !! (showtime_id, sid)) as [e|]; [eauto|done].
Qed.

Lemma seat_status_eq now showtime_id s x :
  seat_status (booked_ids showtime_id (db s))
    (held_ids now showtime_id (redis_client s)) x
  = status_of now showtime_id s (Seat.id x).
Proof.
  unfold seat_status, status_of.
  destruct (decide (Seat.id x ∈ booked_ids _ _)) as [Hb|Hb];
    rewrite elem_of_booked_ids in Hb;
    destruct (decide (has_booked_row _ _ _)); try tauto.
  destruct (decide (Seat.id x ∈ held_ids _ _ _)) as [Hh|Hh];
    rewrite elem_of_held_ids in Hh;
    destruct (decide (has_live_hold _ _ _ _)); tauto.
Qed.
End store_reads.

(** ** get_seats *)

Lemma get_seats_state now showtime_id s : (get_seats now showtime_id s).2 = s.
Proof. done. Qed.

Lemma get_seats_ids now showtime_id s :
  map sso_id (get_seats now showtime_id s).1 = map Seat.id (seats (db s)).
Proof.
  unfold get_seats. simpl. rewrite map_map. done.
Qed.

Lemma status_of_same_holds now1 now2 showtime_id s sid :
  no_expiry_between now1 now2 showtime_id (redis_client s) →
  status_of now1 showtime_id s sid = status_of now2 showtime_id s sid.
Proof.
  intros Hne. unfold status_of.
  destruct (decide (has_booked_row _ _ _)); [done|].
  assert (has_live_hold now1 showtime_id sid (redis_client s)
          ↔ has_live_hold now2 showtime_id sid (redis_client s)) as Hiff.
  { unfold has_live_hold, no_expiry_between in *.
    destruct (redis_client s) as [r|]; [|done].
    destruct (r !! hold_key showtime_id sid) as [e|] eqn:He; [|done].
    by apply (Hne _ _ He). }
  destruct (decide (has_live_hold now1 _ _ _));
    destruct (decide (has_live_hold now2 _ _ _)); tauto.
Qed.

(** C2 (code at the failing input): for showtime 10, which plays in
    auditorium 1, [get_seats] returns an entry for each of the three seats
    of the store, seat 3 of auditorium 2 included, while the seats of
    auditorium 1 are 1 and 2 only. *)
Theorem get_seats_ignores_auditorium :
  map Showtime.auditorium_id (showtimes (db ex_state_held)) = [1]
  ∧ map Seat.id (crud.get_seats_by_auditorium (db ex_state_held) 1) = [1; 2]
  ∧ map (λ o, (sso_id o, sso_status o)) (get_seats 6 10 ex_state_held).1
    = [(1, "held"); (2, "held"); (3, "available")].
Proof. vm_compute. done. Qed.

(** C3: every entry returned by [get_seats] carries the status of the
    specification for its seat - booked when the seat has a BookedSeat row
    of the showtime, whatever the hold index says, else held when a live
    hold entry exists, else available - and the call leaves both stores as
    they were. *)
Theorem get_seats_classifies now showtime_id s :
  (get_seats now showtime_id s).2 = s
  ∧ Forall (λ o, sso_status o = status_of now showtime_id s (sso_id o))
      (get_seats now showtime_id s).1.
Proof.
  split; [done|]. unfold get_seats. simpl.
  apply Forall_fmap, Forall_forall. intros x _. simpl.
  apply seat_status_eq.
Qed.

(** C8 (as amended): two calls for the same showtime, with no write in
    between and no hold entry of the showtime expiring between the two
    instants, return the same sequence. *)
Theorem get_seats_idempotent now1 now2 showtime_id s :
  no_expiry_between now1 now2 showtime_id (redis_client s) →
  (get_seats now2 showtime_id (get_seats now1 showtime_id s).2).1
  = (get_seats now1 showtime_id s).1.
Proof.
  intros Hne. unfold get_seats. simpl.
  apply map_ext_in. intros x _. f_equal.
  rewrite !seat_status_eq. symmetry. by apply status_of_same_holds.
Qed.

Lemma get_seats_idempotent_witness :
  (get_seats 9 10 (get_seats 5 10 ex_state_held).2).1
  = (get_seats 5 10 ex_state_held).1.
Proof.
  apply (get_seats_idempotent 5 9 10 ex_state_held).
  by_evaluation.
Defined.

(** C8 (counterexample): with the hold of seat 1 expiring at instant 605,
    a call at 5 and a call at 700 differ though nothing was written. *)
Lemma get_seats_differs_after_expiry :
  (get_seats 700 10 (get_seats 5 10 ex_state_held).2).1
  ≠ (get_seats 5 10 ex_state_held).1.
Proof. vm_compute. discriminate. Qed.

(** ** hold_seats: the three checks *)

Section hold_checks.
Implicit Types (d : Database) (ids : list Z).

Lemma elem_of_seats_in ids d sid :
  sid ∈ map Seat.id (seats_in ids d) ↔ sid ∈ ids ∧ seat_exists sid d.
Proof.
  unfold seats_in, seat_exists.
  rewrite list_elem_of_fmap, Exists_exists. split.
  - intros (x & -> & [Hin Hx]%list_elem_of_filter). eauto.
  - intros [Hin (x & Hx & <-)]. exists x. split; [done|].
    by apply list_elem_of_filter.
Qed.

Lemma NoDup_seats_in ids d :
  seats_pk d → NoDup (map Seat.id (seats_in ids d)).
Proof.
  unfold seats_pk, seats_in. generalize (seats d). intros l.
  induction l as [|x l IH]; intros Hnd; [constructor|].
  simpl in Hnd. apply NoDup_cons in Hnd as [Hx Hnd].
  rewrite filter_cons. destruct (decide (Seat.id x ∈ ids)); [|auto].
  simpl. apply NoDup_cons. split; [|auto].
  intros (y & Hy & [_ Hin]%list_elem_of_filter)%list_elem_of_fmap.
  apply Hx, list_elem_of_fmap. eauto.
Qed.

(** The comparison of the two lengths accepts exactly the lists without
    repetition all of whose ids name a seat. *)
Lemma seats_check ids d :
  seats_pk d →
  length (seats_in ids d) = length ids
  ↔ NoDup ids ∧ Forall (λ sid, seat_exists sid d) ids.
Proof.
  intros Hpk. pose proof (NoDup_seats_in ids d Hpk) as Hnd.
  rewrite <- (length_map Seat.id). split.
  - intros Hlen.
    assert (map Seat.id (seats_in ids d) ≡ₚ ids) as Hp.
    { apply submseteq_length_Permutation; [|lia].
      apply NoDup_submseteq; [done|].
      intros x Hx. by apply elem_of_seats_in in Hx as [? _]. }
    split; [by rewrite <- Hp|].
    apply Forall_forall. intros sid Hin. rewrite <- Hp in Hin.
    by apply elem_of_seats_in in Hin as [_ ?].
  - intros [Hnd' Hall]. apply Permutation_length.
    apply NoDup_Permutation; [done..|].
    intros sid. rewrite elem_of_seats_in. rewrite Forall_forall in Hall.
    split; [tauto|]. auto.
Qed.

Lemma booked_among_nil showtime_id ids d :
  booked_among showtime_id ids d = []
  ↔ ¬ Exists (λ sid, has_booked_row showtime_id sid d) ids.
Proof.
  unfold booked_among, has_booked_row.
  rewrite filter_nil_Forall, Forall_forall, Exists_exists. split.
  - intros Hno (sid & Hin & Hex).
    apply Exists_exists in Hex as (b & Hb & Hs & Hid).
    apply (Hno b Hb). by subst.
  - intros Hno b Hb [Hs Hin]. apply Hno. exists (BookedSeat.seat_id b).
    split; [done|]. apply Exists_exists. eauto.
Qed.

Lemma some_held_true now showtime_id ids rc :
  some_held now showtime_id ids rc = true
  ↔ Exists (λ sid, has_live_hold now showtime_id sid rc) ids.
Proof.
  unfold some_held. destruct rc as [r|].
  - rewrite existsb_exists, Exists_exists. split.
    + intros (sid & Hin & Hd). exists sid. split; [by apply list_elem_of_In|].
      apply bool_decide_eq_true in Hd. by apply redis_get_is_Some.
    + intros (sid & Hin & Hl). exists sid. split; [by apply list_elem_of_In|].
      apply bool_decide_eq_true. by apply redis_get_is_Some.
  - rewrite Exists_exists. split; [done|]. by intros (? & ? & ?).
Qed.

Lemma lookup_write_holds (now showtime_id : Z) ids (rid : Z) (r : Redis)
    (k : Z * Z) :
  foldl (λ acc sid, redis_setex now acc (hold_key showtime_id sid)
                      HOLD_TTL_SECONDS rid) r ids !! k
  = if decide (k ∈ map (hold_key showtime_id) ids)
    then Some (mkHoldEntry rid (now + HOLD_TTL_SECONDS))
    else r !! k.
Proof.
  revert r. induction ids as [|sid ids IH]; intros r; [done|].
  cbn [foldl map]. rewrite IH. unfold redis_setex.
  destruct (decide (k ∈ map (hold_key showtime_id) ids)) as [Hin|Hin].
  - rewrite decide_True; [done|]. apply elem_of_cons. by right.
  - destruct (decide (k = hold_key showtime_id sid)) as [->|Hne].
    + rewrite decide_True; [by rewrite lookup_insert_eq|].
      apply elem_of_cons. by left.
    + rewrite decide_False; [by rewrite lookup_insert_ne|].
      rewrite elem_of_cons. tauto.
Qed.
End hold_checks.

(** The outcome of [hold_seats], check by check. *)
Lemma hold_seats_invalid now showtime_id ids s :
  length (seats_in ids (db s)) ≠ length ids →
  hold_seats now showtime_id ids s = (Raise InvalidSeatSelection, s).
Proof. intros H. unfold hold_seats, hold_check. by rewrite decide_True. Qed.

Lemma hold_seats_booked now showtime_id ids s :
  length (seats_in ids (db s)) = length ids →
  booked_among showtime_id ids (db s) ≠ [] →
  hold_seats now showtime_id ids s = (Raise SeatsAlreadyBooked, s).
Proof.
  intros H1 H2. unfold hold_seats, hold_check.
  rewrite decide_False by (intros ?; done). by rewrite decide_True.
Qed.

Lemma hold_seats_held now showtime_id ids s :
  length (seats_in ids (db s)) = length ids →
  booked_among showtime_id ids (db s) = [] →
  some_held now showtime_id ids (redis_client s) = true →
  hold_seats now showtime_id ids s = (Raise SeatsAlreadyHeld, s).
Proof.
  intros H1 H2 H3. unfold hold_seats, hold_check.
  rewrite decide_False by (intros ?; done).
  rewrite decide_False by (intros ?; done). by rewrite H3.
Qed.

Lemma hold_check_None now showtime_id ids s :
  hold_check now showtime_id ids s = None →
  length (seats_in ids (db s)) = length ids
  ∧ booked_among showtime_id ids (db s) = []
  ∧ some_held now showtime_id ids (redis_client s) = false.
Proof.
  unfold hold_check.
  destruct (decide (length _ ≠ _)) as [|H1]; [done|].
  destruct (decide (booked_among _ _ _ ≠ [])) as [|H2]; [done|].
  destruct (some_held _ _ _ _) eqn:H3; [done|].
  intros _. split; [by apply dec_stable|]. split; [by apply dec_stable|done].
Qed.

Lemma hold_seats_Ok_inv now showtime_id ids s resp s' :
  hold_seats now showtime_id ids s = (Ok resp, s') →
  hold_check now showtime_id ids s = None
  ∧ resp = mkHoldSeatsResponse
             (next_id (map Reservation.id (reservations (db s))))
             (Some (now + HOLD_TTL_SECONDS))
  ∧ s' = mkState
           (add_reservation
              (Reservation.mk
                 (next_id (map Reservation.id (reservations (db s))))
                 None showtime_id "held" 0 (Some (now + HOLD_TTL_SECONDS)))
              (db s))
           (write_holds now showtime_id ids
              (next_id (map Reservation.id (reservations (db s))))
              (redis_client s)).
Proof.
  unfold hold_seats.
  destruct (hold_check now showtime_id ids s) as [e|]; [done|].
  unfold hold_write. by intros [= <- <-].
Qed.

Lemma hold_seats_Raise_inv now showtime_id ids s e s' :
  hold_seats now showtime_id ids s = (Raise e, s') → s' = s.
Proof.
  unfold hold_seats.
  destruct (hold_check now showtime_id ids s); [congruence|done].
Qed.

Lemma next_id_fresh (ids : list Z) : next_id ids ∉ ids.
Proof.
  assert (∀ x, x ∈ ids → x ≤ foldr Z.max 0 ids) as Hle.
  { induction ids as [|y ids IH]; intros x Hx; [by apply elem_of_nil in Hx|].
    simpl. apply elem_of_cons in Hx as [->|Hx]; [lia|].
    specialize (IH x Hx). lia. }
  intros Hin. apply Hle in Hin. unfold next_id in Hin. lia.
Qed.

(** ** hold_seats: the claims *)

(** C4 (as amended): with the seats' primary key in force, [hold_seats]
    raises InvalidSeatSelection when some id names no seat; for a list
    without repeated ids all of which name a seat, it raises
    SeatsAlreadyBooked when some seat has a BookedSeat row of the showtime,
    and otherwise SeatsAlreadyHeld when some seat has a live hold entry.
    With Redis connected, after a successful [hold_seats] on seat [sid]
    the entry of [sid] is live at every instant before now + TTL and no
    longer at now + TTL, and a second [hold_seats] on a list that contains
    [sid] fails meanwhile - with SeatsAlreadyHeld when its ids are
    distinct, name seats and none is booked. *)
Theorem hold_seats_checks now showtime_id ids s :
  seats_pk (db s) →
  (¬ Forall (λ sid, seat_exists sid (db s)) ids →
   hold_seats now showtime_id ids s = (Raise InvalidSeatSelection, s))
  ∧ (NoDup ids → Forall (λ sid, seat_exists sid (db s)) ids →
     Exists (λ sid, has_booked_row showtime_id sid (db s)) ids →
     hold_seats now showtime_id ids s = (Raise SeatsAlreadyBooked, s))
  ∧ (NoDup ids → Forall (λ sid, seat_exists sid (db s)) ids →
     ¬ Exists (λ sid, has_booked_row showtime_id sid (db s)) ids →
     Exists (λ sid, has_live_hold now showtime_id sid (redis_client s)) ids →
     hold_seats now showtime_id ids s = (Raise SeatsAlreadyHeld, s))
  ∧ (∀ resp s',
       hold_seats now showtime_id ids s = (Ok resp, s') →
       is_Some (redis_client s) →
       ∀ sid t, sid ∈ ids → t < now + HOLD_TTL_SECONDS →
         has_live_hold t showtime_id sid (redis_client s')
         ∧ ¬ has_live_hold (now + HOLD_TTL_SECONDS) showtime_id sid
               (redis_client s')
         ∧ ∀ ids', sid ∈ ids' →
             (∃ e, hold_seats t showtime_id ids' s' = (Raise e, s'))
             ∧ (NoDup ids' → Forall (λ x, seat_exists x (db s')) ids' →
                ¬ Exists (λ x, has_booked_row showtime_id x (db s')) ids' →
                hold_seats t showtime_id ids' s'
                = (Raise SeatsAlreadyHeld, s'))).
Proof.
  intros Hpk. pose proof (seats_check ids (db s) Hpk) as Hchk.
  split; [|split; [|split]].
  - intros Hno. apply hold_seats_invalid. tauto.
  - intros Hnd Hall Hb. apply hold_seats_booked; [tauto|].
    intros Hnil. by apply booked_among_nil in Hnil.
  - intros Hnd Hall Hb Hh. apply hold_seats_held; [tauto|..].
    + by apply booked_among_nil.
    + by apply some_held_true.
  - intros resp s' Hok [r Hr] sid t Hin Ht.
    apply hold_seats_Ok_inv in Hok as (_ & _ & ->).
    assert (has_live_hold t showtime_id sid
              (write_holds now showtime_id ids
                 (next_id (map Reservation.id (reservations (db s))))
                 (redis_client s))) as Hlive.
    { rewrite Hr. unfold has_live_hold, write_holds.
      rewrite lookup_write_holds, decide_True; [done|].
      apply list_elem_of_fmap. eauto. }
    split; [done|]. split.
    { unfold has_live_hold, write_holds. simpl. rewrite Hr.
      rewrite lookup_write_holds, decide_True.
      - unfold live. simpl. lia.
      - apply list_elem_of_fmap. eauto. }
    intros ids' Hin'.
    set (s' := mkState _ _) in *.
    assert (seats_pk (db s')) as Hpk' by done.
    pose proof (seats_check ids' (db s') Hpk') as Hchk'.
    assert (some_held t showtime_id ids' (redis_client s') = true) as Hsome.
    { apply some_held_true, Exists_exists. eauto. }
    split.
    + destruct (decide (length (seats_in ids' (db s')) = length ids'))
        as [Hlen|Hlen]; [|by eexists; apply hold_seats_invalid].
      destruct (decide (booked_among showtime_id ids' (db s') = []))
        as [Hb|Hb]; [|by eexists; apply hold_seats_booked].
      eexists. by apply hold_seats_held.
    + intros Hnd Hall Hb. apply hold_seats_held; [tauto| |done].
      by apply booked_among_nil.
Qed.

Lemma hold_seats_checks_witness :
  hold_seats 5 10 [1; 4] ex_state = (Raise InvalidSeatSelection, ex_state)
  ∧ hold_seats 8 10 [1; 3] ex_state_confirmed
    = (Raise SeatsAlreadyBooked, ex_state_confirmed)
  ∧ hold_seats 6 10 [3; 2] ex_state_held
    = (Raise SeatsAlreadyHeld, ex_state_held).
Proof.
  split; [|split].
  - apply (hold_seats_checks 5 10 [1; 4] ex_state); by_evaluation.
  - apply (hold_seats_checks 8 10 [1; 3] ex_state_confirmed); by_evaluation.
  - assert (seats_pk (db ex_state)) as Hpk by by_evaluation.
    destruct (hold_seats_checks 5 10 [1; 2] ex_state Hpk)
      as (_ & _ & _ & Hexcl).
    destruct (Hexcl (mkHoldSeatsResponse 1 (Some 605)) ex_state_held)
      with (sid := 2) (t := 6) as (_ & _ & Hsecond).
    + vm_compute. reflexivity.
    + by_evaluation.
    + by_evaluation.
    + reflexivity.
    + apply (Hsecond [3; 2]); by_evaluation.
Defined.

(** C4 (counterexample): seat 1 exists and is booked for showtime 10, yet
    the request [1; 1] is answered InvalidSeatSelection, not
    SeatsAlreadyBooked; and with Redis not connected a second hold of the
    seat just held succeeds. *)
Lemma hold_seats_checks_fail :
  (Forall (λ sid, seat_exists sid (db ex_state_confirmed)) [1; 1]
   ∧ Exists (λ sid, has_booked_row 10 sid (db ex_state_confirmed)) [1; 1]
   ∧ (hold_seats 8 10 [1; 1] ex_state_confirmed).1
     = Raise InvalidSeatSelection)
  ∧ ((hold_seats 5 10 [1] ex_state_no_redis).1
     = Ok (mkHoldSeatsResponse 1 (Some 605))
     ∧ (hold_seats 6 10 [1] (hold_seats 5 10 [1] ex_state_no_redis).2).1
       = Ok (mkHoldSeatsResponse 2 (Some 606))).
Proof.
  split; [split; [|split]|split]; try by_evaluation; vm_compute; reflexivity.
Qed.

(** C5 (as amended): with the seats' primary key in force, when every
    precondition passes - no id repeated, every id naming a seat, no
    requested seat booked for the showtime, none with a live hold entry -
    [hold_seats] succeeds, and when one of them fails it raises and leaves
    both stores as they were. A successful [hold_seats] adds exactly one
    Reservation row - fresh id, status held, expiry now + TTL - and
    returns its id and expiry; with Redis connected the hold index then
    maps each key (showtime, requested seat) to that id with expiry
    now + TTL and is unchanged elsewhere, and with Redis not connected no
    hold entry is written. A failed call leaves both stores as they
    were. *)
Theorem hold_seats_effect now showtime_id ids s :
  (seats_pk (db s) →
   NoDup ids →
   Forall (λ sid, seat_exists sid (db s)) ids →
   ¬ Exists (λ sid, has_booked_row showtime_id sid (db s)) ids →
   ¬ Exists (λ sid, has_live_hold now showtime_id sid (redis_client s)) ids →
   ∃ resp s', hold_seats now showtime_id ids s = (Ok resp, s'))
  ∧ (seats_pk (db s) →
     ¬ (NoDup ids
        ∧ Forall (λ sid, seat_exists sid (db s)) ids
        ∧ ¬ Exists (λ sid, has_booked_row showtime_id sid (db s)) ids
        ∧ ¬ Exists (λ sid, has_live_hold now showtime_id sid
                             (redis_client s)) ids) →
     ∃ e, hold_seats now showtime_id ids s = (Raise e, s))
  ∧ match hold_seats now showtime_id ids s with
    | (Ok resp, s') =>
        let rid := hsr_reservation_id resp in
        hsr_expires_at resp = Some (now + HOLD_TTL_SECONDS)
        ∧ (rid ∉ map Reservation.id (reservations (db s)))
        ∧ reservations (db s')
          = reservations (db s)
            ++ [Reservation.mk rid None showtime_id "held" 0
                  (Some (now + HOLD_TTL_SECONDS))]
        ∧ seats (db s') = seats (db s)
        ∧ showtimes (db s') = showtimes (db s)
        ∧ booked_seats (db s') = booked_seats (db s)
        ∧ match redis_client s, redis_client s' with
          | Some r, Some r' =>
              ∀ k, r' !! k
                   = (if decide (k ∈ map (hold_key showtime_id) ids)
                      then Some (mkHoldEntry rid (now + HOLD_TTL_SECONDS))
                      else r !! k)
          | None, None => True
          | _, _ => False
          end
    | (Raise e, s') => s' = s
    end.
Proof.
  split; [|split].
  - intros Hpk Hnd Hall Hnb Hnh.
    pose proof (seats_check ids (db s) Hpk) as Hchk.
    unfold hold_seats, hold_check.
    rewrite decide_False by (intros Hne; apply Hne; tauto).
    rewrite decide_False
      by (intros Hne; apply Hne; by apply booked_among_nil).
    destruct (some_held now showtime_id ids (redis_client s)) eqn:Hsome.
    + by apply some_held_true in Hsome.
    + destruct (hold_write now showtime_id ids s) as [resp s1]. by eexists _, _.
  - intros Hpk Hnot.
    pose proof (seats_check ids (db s) Hpk) as Hchk.
    destruct (decide (length (seats_in ids (db s)) = length ids))
      as [Hlen|Hlen]; [|by eexists; apply hold_seats_invalid].
    destruct (decide (booked_among showtime_id ids (db s) = []))
      as [Hb|Hb]; [|by eexists; apply hold_seats_booked].
    destruct (some_held now showtime_id ids (redis_client s)) eqn:Hsome;
      [by eexists; apply hold_seats_held|].
    destruct Hnot. apply Hchk in Hlen as [Hnd Hall].
    split; [done|]. split; [done|]. split; [by apply booked_among_nil|].
    intros Hex. apply some_held_true in Hex. congruence.
  - destruct (hold_seats now showtime_id ids s) as [[resp|e] s'] eqn:Hh.
    + apply hold_seats_Ok_inv in Hh as (_ & -> & ->). simpl.
      split; [done|]. split; [apply next_id_fresh|].
      repeat (split; [done|]).
      destruct (redis_client s) as [r|]; simpl; [|done].
      intros k. apply lookup_write_holds.
    + by apply hold_seats_Raise_inv in Hh.
Qed.

Lemma hold_seats_effect_witness :
  (∃ resp s', hold_seats 5 10 [1; 2] ex_state = (Ok resp, s'))
  ∧ (∃ e, hold_seats 6 10 [3; 2] ex_state_held = (Raise e, ex_state_held)).
Proof.
  split.
  - apply (hold_seats_effect 5 10 [1; 2] ex_state); by_evaluation.
  - apply (hold_seats_effect 6 10 [3; 2] ex_state_held); by_evaluation.
Defined.

(** C5 (counterexample): with Redis not connected every check passes, the
    Reservation row is created, and no hold entry exists afterwards. *)
Lemma hold_seats_no_redis_no_hold :
  (hold_seats 5 10 [1; 2] ex_state_no_redis).1
  = Ok (mkHoldSeatsResponse 1 (Some 605))
  ∧ ¬ has_live_hold 5 10 1
        (redis_client (hold_seats 5 10 [1; 2] ex_state_no_redis).2)
  ∧ ¬ has_live_hold 5 10 2
        (redis_client (hold_seats 5 10 [1; 2] ex_state_no_redis).2).
Proof.
  split; [vm_compute; reflexivity|]. split; by_evaluation.
Qed.

(** C10: with the seats' primary key in force, a request that lists some
    seat id more than once is answered InvalidSeatSelection, whether or
    not its ids name seats, and leaves both stores as they were. *)
Theorem hold_seats_rejects_repeated_ids now showtime_id ids s :
  seats_pk (db s) →
  ¬ NoDup ids →
  hold_seats now showtime_id ids s = (Raise InvalidSeatSelection, s).
Proof.
  intros Hpk Hdup. apply hold_seats_invalid.
  rewrite (seats_check ids (db s) Hpk). tauto.
Qed.

Lemma hold_seats_rejects_repeated_ids_witness :
  Forall (λ sid, seat_exists sid (db ex_state)) [2; 1; 2]
  ∧ hold_seats 5 10 [2; 1; 2] ex_state
    = (Raise InvalidSeatSelection, ex_state).
Proof.
  split; [by_evaluation|].
  apply (hold_seats_rejects_repeated_ids 5 10 [2; 1; 2] ex_state);
    by_evaluation.
Defined.

(** ** confirm_reservation: the reads *)

Section confirm_reads.
Implicit Types (d : Database) (rc : option Redis).

Lemma held_reservation_None rid d :
  held_reservation rid d = None
  ↔ ¬ Exists (λ r, Reservation.id r = rid ∧ Reservation.status r = "held")
        (reservations d).
Proof.
  unfold held_reservation. rewrite first_None. split.
  - intros Hall Hex. apply Exists_exists in Hex as (r & Hr & HP).
    rewrite Forall_forall in Hall. by apply (Hall r).
  - intros Hno. apply Forall_forall. intros r Hr HP.
    apply Hno, Exists_exists. eauto.
Qed.

Lemma held_reservation_Some rid d reservation :
  held_reservation rid d = Some reservation →
  reservation ∈ reservations d
  ∧ Reservation.id reservation = rid
  ∧ Reservation.status reservation = "held".
Proof.
  intros H. apply first_Some in H. tauto.
Qed.

Lemma elem_of_held_seats now reservation rid rc sid :
  sid ∈ held_seats now reservation rid rc
  ↔ holds_seat now (Reservation.showtime_id reservation) rid rc sid.
Proof.
  unfold held_seats, holds_seat, hold_key. destruct rc as [r|].
  - rewrite list_elem_of_fmap. split.
    + intros ([st x] & -> & [Hget Hk]%list_elem_of_filter).
      apply elem_of_redis_keys in Hk as [Hst _]. simpl in *. subst st.
      apply redis_get_Some in Hget as (e & -> & Hl & Hv). done.
    + intros H. exists (Reservation.showtime_id reservation, sid).
      split; [done|].
      destruct (r !! (Reservation.showtime_id reservation, sid))
        as [e|] eqn:He; [|done].
      destruct H as [Hl Hv]. apply list_elem_of_filter. split.
      * apply redis_get_Some. eauto.
      * apply elem_of_redis_keys. eauto.
  - split; [by intros ?%elem_of_nil|done].
Qed.

Lemma NoDup_held_seats now reservation rid rc :
  NoDup (held_seats now reservation rid rc).
Proof.
  unfold held_seats. destruct rc as [r|]; [|constructor].
  apply NoDup_fmap_2_strong.
  - intros [st1 x1] [st2 x2] [_ H1]%list_elem_of_filter
      [_ H2]%list_elem_of_filter Heq.
    apply elem_of_redis_keys in H1 as [H1 _], H2 as [H2 _].
    simpl in *. congruence.
  - apply NoDup_filter, NoDup_redis_keys.
Qed.

Lemma confirm_read_Ok now rid s reservation sids :
  confirm_read now rid s = Ok (reservation, sids) →
  held_reservation rid (db s) = Some reservation
  ∧ sids = held_seats now reservation rid (redis_client s)
  ∧ sids ≠ [].
Proof.
  unfold confirm_read.
  destruct (held_reservation rid (db s)) as [r|]; [|done].
  destruct (decide (held_seats now r rid (redis_client s) = [])); [done|].
  by intros [= <- <-].
Qed.
End confirm_reads.

(** ** confirm_reservation: the transaction *)

Section transaction.
Implicit Types (rows : list BookedSeat.t) (sids : list Z).

Lemma violates_iff_key showtime_id sid rows :
  violates_uq_showtime_seat showtime_id sid rows
  ↔ (showtime_id, sid) ∈ map booking_key rows.
Proof.
  unfold violates_uq_showtime_seat, booking_key.
  rewrite Exists_exists, list_elem_of_fmap. split.
  - intros (b & Hb & <- & <-). eauto.
  - intros (b & [= -> ->] & Hb). eauto.
Qed.

Lemma violates_app showtime_id sid rows b :
  violates_uq_showtime_seat showtime_id sid (rows ++ [b])
  ↔ violates_uq_showtime_seat showtime_id sid rows
    ∨ booking_key b = (showtime_id, sid).
Proof.
  rewrite !violates_iff_key, map_app, elem_of_app. simpl.
  rewrite list_elem_of_singleton. split; intros [|]; auto.
Qed.

(** An insert that meets a row of the same (showtime, seat) aborts the
    whole flush. *)
Lemma insert_booked_seats_None showtime_id rid sids rows :
  Exists (λ sid, violates_uq_showtime_seat showtime_id sid rows) sids →
  insert_booked_seats showtime_id rid sids rows = None.
Proof.
  revert rows. induction sids as [|sid sids IH]; intros rows Hex.
  - by apply Exists_nil in Hex.
  - simpl. destruct (decide (violates_uq_showtime_seat _ _ _)); [done|].
    apply IH. apply Exists_cons in Hex as [|Hex]; [done|].
    eapply Exists_impl; [exact Hex|]. intros x Hx.
    apply violates_app. by left.
Qed.

(** Without such a row the flush appends one row per seat, in order. *)
Lemma insert_booked_seats_Some showtime_id rid sids rows :
  NoDup sids →
  ¬ Exists (λ sid, violates_uq_showtime_seat showtime_id sid rows) sids →
  ∃ new,
    insert_booked_seats showtime_id rid sids rows = Some (rows ++ new)
    ∧ map (λ b, (BookedSeat.showtime_id b, BookedSeat.seat_id b,
                 BookedSeat.reservation_id b)) new
      = map (λ sid, (showtime_id, sid, rid)) sids.
Proof.
  revert rows. induction sids as [|sid sids IH]; intros rows Hnd Hno.
  - exists []. by rewrite app_nil_r.
  - apply NoDup_cons in Hnd as [Hsid Hnd]. simpl.
    rewrite decide_False by (intros Hv; apply Hno; by left).
    destruct (IH (rows ++ [BookedSeat.mk (next_id (map BookedSeat.id rows))
                             showtime_id sid rid]) Hnd)
      as (new & -> & Hmap).
    + intros Hex. apply Exists_exists in Hex as (x & Hx & Hv).
      apply violates_app in Hv as [Hv|[= ->]]; [|done].
      apply Hno. right. apply Exists_exists. eauto.
    + eexists (_ :: new). rewrite <- app_assoc. split; [done|].
      simpl. by rewrite Hmap.
Qed.

(** Whatever it is asked to insert, a flush that succeeds leaves a table
    that satisfies the constraint. *)
Lemma insert_booked_seats_uq showtime_id rid sids rows rows' :
  insert_booked_seats showtime_id rid sids rows = Some rows' →
  uq_showtime_seat rows → uq_showtime_seat rows'.
Proof.
  revert rows. induction sids as [|sid sids IH]; intros rows; simpl.
  - by intros [= <-].
  - destruct (decide (violates_uq_showtime_seat _ _ _)) as [|Hv]; [done|].
    intros Hins Huq. apply (IH _ Hins).
    unfold uq_showtime_seat in *. rewrite map_app. simpl.
    apply NoDup_app. split; [done|]. split; [|apply NoDup_singleton].
    intros k Hk ->%list_elem_of_singleton.
    by apply Hv, violates_iff_key.
Qed.

Lemma lookup_clear_holds (showtime_id : Z) sids (r : Redis) (k : Z * Z) :
  foldl (λ acc sid, redis_delete acc (hold_key showtime_id sid)) r sids !! k
  = if decide (k ∈ map (hold_key showtime_id) sids) then None else r !! k.
Proof.
  revert r. induction sids as [|sid sids IH]; intros r; [done|].
  cbn [foldl map]. rewrite IH. unfold redis_delete.
  destruct (decide (k ∈ map (hold_key showtime_id) sids)) as [Hin|Hin].
  - rewrite decide_True; [done|]. apply elem_of_cons. by right.
  - destruct (decide (k = hold_key showtime_id sid)) as [->|Hne].
    + rewrite decide_True; [by rewrite lookup_delete_eq|].
      apply elem_of_cons. by left.
    + rewrite decide_False; [by rewrite lookup_delete_ne|].
      rewrite elem_of_cons. tauto.
Qed.

Lemma set_confirmed_status rid (l : list Reservation.t) :
  Forall (λ r, Reservation.id r = rid → Reservation.status r = "confirmed")
    (set_confirmed rid l).
Proof.
  unfold set_confirmed. apply Forall_fmap, Forall_forall. intros r _. simpl.
  destruct (decide (Reservation.id r = rid)); done.
Qed.
End transaction.

(** ** confirm_reservation: the claims *)

(** C6: [confirm_reservation] raises ReservationNotFound when no
    Reservation row has the id and the status held; otherwise the seats it
    works on are exactly those with a live hold entry of the reservation's
    showtime whose value is the reservation id, and when there is none it
    raises HoldExpired; both failures leave the two stores as they were. *)
Theorem confirm_reservation_failures now rid s :
  (¬ Exists (λ r, Reservation.id r = rid ∧ Reservation.status r = "held")
       (reservations (db s)) →
   confirm_reservation now rid s = (Raise ReservationNotFound, s))
  ∧ (Exists (λ r, Reservation.id r = rid ∧ Reservation.status r = "held")
       (reservations (db s)) →
     ∃ reservation,
       held_reservation rid (db s) = Some reservation
       ∧ reservation ∈ reservations (db s)
       ∧ Reservation.id reservation = rid
       ∧ Reservation.status reservation = "held"
       ∧ (∀ sid,
            sid ∈ held_seats now reservation rid (redis_client s)
            ↔ holds_seat now (Reservation.showtime_id reservation) rid
                (redis_client s) sid)
       ∧ (held_seats now reservation rid (redis_client s) = [] →
          confirm_reservation now rid s = (Raise HoldExpired, s))).
Proof.
  split.
  - intros Hno. apply held_reservation_None in Hno.
    unfold confirm_reservation, confirm_read. by rewrite Hno.
  - intros Hex.
    destruct (held_reservation rid (db s)) as [reservation|] eqn:Hr.
    + exists reservation.
      destruct (held_reservation_Some _ _ _ Hr) as (Hin & Hid & Hst).
      repeat (split; [done|]). split.
      * intros sid. apply elem_of_held_seats.
      * intros Hnil. unfold confirm_reservation, confirm_read.
        rewrite Hr. by rewrite decide_True.
    + by apply held_reservation_None in Hr.
Qed.

Lemma confirm_reservation_failures_witness :
  confirm_reservation 6 2 ex_state_held
  = (Raise ReservationNotFound, ex_state_held)
  ∧ confirm_reservation 700 1 ex_state_held
    = (Raise HoldExpired, ex_state_held).
Proof.
  split.
  - apply (confirm_reservation_failures 6 2 ex_state_held). by_evaluation.
  - destruct (confirm_reservation_failures 700 1 ex_state_held)
      as [_ Hfound].
    destruct Hfound as (reservation & Hr & _ & _ & _ & _ & Hexp);
      [by_evaluation|].
    apply Hexp. vm_compute in Hr. injection Hr as <-.
    vm_compute. reflexivity.
Defined.

(** C7: once [confirm_reservation] has its reservation and its held
    seats, the flush of its inserts is aborted by the constraint exactly
    when one of these seats already has a BookedSeat row of the showtime.
    Then it raises SeatConflict and both stores are as before: no row of
    the reservation is kept and its status is still held. Otherwise one
    BookedSeat row per held seat is appended, the reservation's status is
    confirmed, the rest of the store is as before, and the hold entries of
    these seats are deleted. *)
Theorem confirm_reservation_all_or_nothing now rid s reservation sids :
  confirm_read now rid s = Ok (reservation, sids) →
  (insert_booked_seats (Reservation.showtime_id reservation) rid sids
     (booked_seats (db s)) = None
   ↔ Exists (λ sid, has_booked_row (Reservation.showtime_id reservation) sid
                      (db s)) sids)
  ∧ (Exists (λ sid, has_booked_row (Reservation.showtime_id reservation) sid
                      (db s)) sids →
     confirm_reservation now rid s = (Raise SeatConflict, s))
  ∧ (¬ Exists (λ sid, has_booked_row (Reservation.showtime_id reservation)
                        sid (db s)) sids →
     ∃ s' new,
       confirm_reservation now rid s
       = (Ok (mkConfirmReservationResponse "confirmed" rid), s')
       ∧ booked_seats (db s') = booked_seats (db s) ++ new
       ∧ map (λ b, (BookedSeat.showtime_id b, BookedSeat.seat_id b,
                    BookedSeat.reservation_id b)) new
         = map (λ sid, (Reservation.showtime_id reservation, sid, rid)) sids
       ∧ reservations (db s') = set_confirmed rid (reservations (db s))
       ∧ Forall (λ r, Reservation.id r = rid
                      → Reservation.status r = "confirmed")
           (reservations (db s'))
       ∧ seats (db s') = seats (db s)
       ∧ showtimes (db s') = showtimes (db s)
       ∧ match redis_client s, redis_client s' with
         | Some r, Some r' =>
             ∀ k, r' !! k
                  = (if decide (k ∈ map (hold_key
                                   (Reservation.showtime_id reservation)) sids)
                     then None else r !! k)
         | _, _ => False
         end).
Proof.
  intros Hread. unfold confirm_reservation. rewrite Hread.
  apply confirm_read_Ok in Hread as (Hr & -> & Hne).
  apply held_reservation_Some in Hr as (_ & Hid & _).
  unfold confirm_write, commit_booking.
  split; [|split].
  - split; [|apply insert_booked_seats_None].
    intros Hnone.
    destruct (decide (Exists (λ sid, has_booked_row
                                (Reservation.showtime_id reservation) sid
                                (db s))
                        (held_seats now reservation rid (redis_client s))))
      as [|Hno]; [done|].
    destruct (insert_booked_seats_Some (Reservation.showtime_id reservation)
                rid _ (booked_seats (db s))
                (NoDup_held_seats now reservation rid (redis_client s)) Hno)
      as (new & Hsome & _).
    congruence.
  - intros Hex. by rewrite insert_booked_seats_None.
  - intros Hno.
    destruct (insert_booked_seats_Some (Reservation.showtime_id reservation)
                (Reservation.id reservation) _ (booked_seats (db s))
                (NoDup_held_seats now reservation rid (redis_client s)) Hno)
      as (new & -> & Hmap).
    rewrite Hid in *. eexists _, new. split; [done|]. simpl.
    repeat (split; [done|]). split; [apply set_confirmed_status|].
    repeat (split; [done|]).
    destruct (redis_client s) as [r|] eqn:Hrc; simpl.
    + intros k. apply lookup_clear_holds.
    + by apply Hne.
Qed.

Lemma confirm_reservation_all_or_nothing_witness :
  confirm_reservation 8 2 ex_state_race = (Raise SeatConflict, ex_state_race)
  ∧ ∃ s' new,
      confirm_reservation 7 1 ex_state_held
      = (Ok (mkConfirmReservationResponse "confirmed" 1), s')
      ∧ booked_seats (db s') = booked_seats (db ex_state_held) ++ new
      ∧ map (λ b, (BookedSeat.showtime_id b, BookedSeat.seat_id b,
                   BookedSeat.reservation_id b)) new
        = [(10, 1, 1); (10, 2, 1)].
Proof.
  split.
  - apply (confirm_reservation_all_or_nothing 8 2 ex_state_race
             ex_reservation_2 [1; 2]).
    + vm_compute. reflexivity.
    + by_evaluation.
  - destruct (confirm_reservation_all_or_nothing 7 1 ex_state_held
                ex_reservation_1 [1; 2]) as (_ & _ & Hok).
    + vm_compute. reflexivity.
    + destruct Hok as (s' & new & H1 & H2 & H3 & _); [by_evaluation|].
      exists s', new. split; [exact H1|]. split; [exact H2|exact H3].
Defined.

(** ** No double booking *)

Section no_double_booking.

Lemma uq_showtime_seat_count rows :
  uq_showtime_seat rows
  ↔ ∀ showtime_id sid,
      (length (filter (λ b, BookedSeat.showtime_id b = showtime_id
                            ∧ BookedSeat.seat_id b = sid) rows) ≤ 1)%nat.
Proof.
  unfold uq_showtime_seat. induction rows as [|b rows IH]; simpl.
  - split; [intros _ ? ?; simpl; lia|constructor].
  - rewrite NoDup_cons, IH. split.
    + intros [Hb Hrows] st sid. rewrite filter_cons.
      destruct (decide _) as [[<- <-]|Hne]; [|apply Hrows].
      simpl. rewrite (proj2 (filter_nil_Forall _ rows)); [simpl; lia|].
      apply Forall_forall. intros b' Hb' [Hs Hid]. apply Hb.
      apply list_elem_of_fmap. exists b'. unfold booking_key.
      split; [congruence|done].
    + intros Hcount. split.
      * intros (b' & Heq & Hb')%list_elem_of_fmap.
        specialize (Hcount (BookedSeat.showtime_id b) (BookedSeat.seat_id b)).
        rewrite filter_cons_True in Hcount by done. simpl in Hcount.
        assert (filter (λ b0, BookedSeat.showtime_id b0
                              = BookedSeat.showtime_id b
                              ∧ BookedSeat.seat_id b0
                                = BookedSeat.seat_id b) rows = []) as Hnil.
        { destruct (filter _ rows); [done|simpl in Hcount; lia]. }
        apply filter_nil_Forall in Hnil. rewrite Forall_forall in Hnil.
        apply (Hnil b' Hb'). unfold booking_key in Heq.
        injection Heq as -> ->. done.
      * intros st sid. specialize (Hcount st sid).
        rewrite filter_cons in Hcount.
        destruct (decide _); simpl in Hcount; lia.
Qed.

Lemma no_double_booking_uq d :
  no_double_booking d ↔ uq_showtime_seat (booked_seats d).
Proof. symmetry. apply uq_showtime_seat_count. Qed.

Lemma confirm_write_uq reservation sids s :
  uq_showtime_seat (booked_seats (db s)) →
  uq_showtime_seat (booked_seats (db (confirm_write reservation sids s).2)).
Proof.
  intros Huq. unfold confirm_write, commit_booking.
  destruct (insert_booked_seats _ _ _ _) as [rows|] eqn:Hins; [|done].
  simpl. by eapply insert_booked_seats_uq.
Qed.

Lemma hold_seats_booked_seats now showtime_id ids s :
  booked_seats (db (hold_seats now showtime_id ids s).2)
  = booked_seats (db s).
Proof.
  unfold hold_seats, hold_write.
  by destruct (hold_check now showtime_id ids s).
Qed.

Lemma create_showtime_booked_seats d x :
  booked_seats (crud.create_showtime d x).2 = booked_seats d.
Proof. unfold crud.create_showtime. by case_match. Qed.

Lemma update_showtime_booked_seats d id x :
  booked_seats (crud.update_showtime d id x).2 = booked_seats d.
Proof. unfold crud.update_showtime. by repeat case_match. Qed.

Lemma handle_uq now req s :
  uq_showtime_seat (booked_seats (db s)) →
  uq_showtime_seat (booked_seats (db (handle now req s))).
Proof.
  intros Huq. destruct req as [st|st ids|rid|x|id x]; simpl.
  - done.
  - by rewrite hold_seats_booked_seats.
  - unfold confirm_reservation.
    destruct (confirm_read now rid s) as [[r sids]|e]; [|done].
    by apply confirm_write_uq.
  - by rewrite create_showtime_booked_seats.
  - by rewrite update_showtime_booked_seats.
Qed.

Lemma step_uq sys sys' :
  step sys sys' →
  uq_showtime_seat (booked_seats (db (stores sys))) →
  uq_showtime_seat (booked_seats (db (stores sys'))).
Proof.
  intros Hstep Huq. destruct Hstep; simpl.
  - by apply handle_uq.
  - done.
  - done.
  - done.
  - by apply confirm_write_uq.
Qed.

Lemma reachable_uq sys :
  reachable sys → uq_showtime_seat (booked_seats (db (stores sys))).
Proof.
  intros (sys0 & (_ & Hb & _) & Hsteps).
  assert (uq_showtime_seat (booked_seats (db (stores sys0)))) as Huq.
  { rewrite Hb. constructor. }
  clear Hb. induction Hsteps as [sys0|sys0 sys1 sys2 Hstep _ IH]; [done|].
  apply IH. by eapply step_uq.
Qed.

End no_double_booking.

(** C1: in every state reachable from a store without bookings - by
    requests of any kind, and by confirmations whose reads and transaction
    are separated by other requests and by each other - each pair
    (showtime, seat) has at most one BookedSeat row; every request
    preserves this, and so does the transaction of a confirmation whatever
    the seats it tries to book, since an insert that would repeat a pair
    aborts it. *)
Theorem no_double_booking_invariant :
  (∀ sys, reachable sys → no_double_booking (db (stores sys)))
  ∧ (∀ now req s,
       no_double_booking (db s) → no_double_booking (db (handle now req s)))
  ∧ (∀ reservation sids s,
       no_double_booking (db s) →
       no_double_booking (db (confirm_write reservation sids s).2))
  ∧ (∀ sys sys',
       step sys sys' →
       no_double_booking (db (stores sys)) →
       no_double_booking (db (stores sys'))).
Proof.
  split; [|split; [|split]].
  - intros sys Hr. by apply no_double_booking_uq, reachable_uq.
  - intros now req s. rewrite !no_double_booking_uq. apply handle_uq.
  - intros r sids s. rewrite !no_double_booking_uq. apply confirm_write_uq.
  - intros sys sys' Hs. rewrite !no_double_booking_uq. by apply step_uq.
Qed.

Lemma no_double_booking_invariant_witness :
  no_double_booking (db (stores ex_sys_end))
  ∧ (confirm_write ex_reservation_2 [1; 2] ex_state_race).1
    = Raise SeatConflict
  ∧ map booking_key (booked_seats (db (stores ex_sys_end))) = [(10, 1)].
Proof.
  split; [|split; vm_compute; reflexivity].
  apply (proj1 no_double_booking_invariant ex_sys_end).
  exists (mkSystem ex_state []). split; [done|].
  eapply rtc_l; [by apply (step_hold_check 5 10 [1])|].
  eapply rtc_l; [by apply (step_hold_check 5 10 [1; 2])|].
  eapply rtc_l.
  { by apply (step_hold_write 5 10 [1] _ [HoldChecked 10 [1; 2]] []). }
  eapply rtc_l; [apply (step_request 6 (ConfirmReservation 1))|].
  eapply rtc_l; [by apply (step_hold_write 6 10 [1; 2] _ [] [])|].
  eapply rtc_l.
  { apply (step_confirm_read 8 2 _ ex_reservation_2 [1; 2]).
    vm_compute. reflexivity. }
  eapply rtc_l.
  { by apply (step_confirm_write _ ex_reservation_2 [1; 2] [] []). }
  apply rtc_refl.
Defined.

(** ** Showtimes *)

Section showtimes.
Implicit Types (d : Database) (x : crud.ShowtimeCreate) (e : Showtime.t).

Lemma intervals_overlap_meet a b : intervals_overlap a b ↔ intervals_meet a b.
Proof.
  unfold intervals_overlap, intervals_meet. split.
  - intros (t & ? & ?). lia.
  - intros H.
    exists (Z.max (Showtime.starts_at a) (Showtime.starts_at b)). lia.
Qed.

Lemma no_overlapping_showtimes_checked d :
  no_overlapping_showtimes d ↔ no_overlapping_showtimes_check d.
Proof.
  unfold no_overlapping_showtimes, no_overlapping_showtimes_check.
  rewrite Forall_forall. setoid_rewrite Forall_forall.
  setoid_rewrite intervals_overlap_meet. split; intros H a; [|intros b];
    eauto.
Qed.

(** The query's test is implied by a real overlap with the showtime
    described by [x]. *)
Lemma overlaps_of_intervals x e new :
  Showtime.auditorium_id new = crud.auditorium_id x →
  Showtime.starts_at new = crud.starts_at x →
  Showtime.ends_at new = crud.ends_at x →
  Showtime.auditorium_id e = Showtime.auditorium_id new →
  intervals_overlap e new ∨ intervals_overlap new e →
  crud.overlaps x e.
Proof.
  unfold crud.overlaps, intervals_overlap.
  intros Ha Hs He Hae [(t & ? & ?)|(t & ? & ?)]; (split; [congruence|lia]).
Qed.

Lemma create_showtime_None d x :
  (crud.create_showtime d x).1 = None
  ↔ Exists (crud.overlaps x) (showtimes d).
Proof.
  unfold crud.create_showtime.
  rewrite <- (first_is_Some (crud.overlaps x)).
  destruct (head _) as [e|]; simpl.
  - split; [by eauto|done].
  - split; [done|]. by intros [? ?].
Qed.

Lemma update_showtime_None d id x :
  is_Some (crud.get_showtime d id) →
  (crud.update_showtime d id x).1 = None
  ↔ Exists (λ e, Showtime.id e ≠ id ∧ crud.overlaps x e) (showtimes d).
Proof.
  intros [showtime Hg]. unfold crud.update_showtime. rewrite Hg.
  rewrite <- (first_is_Some
                (λ e, Showtime.id e ≠ id ∧ crud.overlaps x e)).
  destruct (head _) as [e|]; simpl.
  - split; [by eauto|done].
  - split; [done|]. by intros [? ?].
Qed.

Lemma create_showtime_rejected d x :
  (crud.create_showtime d x).1 = None → (crud.create_showtime d x).2 = d.
Proof. unfold crud.create_showtime. by case_match. Qed.

Lemma update_showtime_rejected d id x :
  (crud.update_showtime d id x).1 = None →
  (crud.update_showtime d id x).2 = d.
Proof. unfold crud.update_showtime. by repeat case_match. Qed.

Lemma create_showtime_pk d x :
  showtimes_pk d → showtimes_pk (crud.create_showtime d x).2.
Proof.
  unfold crud.create_showtime, showtimes_pk. case_match; [done|]. simpl.
  intros Hnd. rewrite map_app. apply NoDup_app. split; [done|].
  split; [|apply NoDup_singleton].
  intros k Hk ->%list_elem_of_singleton. by apply next_id_fresh in Hk.
Qed.

Lemma update_showtime_pk d id x :
  showtimes_pk d → showtimes_pk (crud.update_showtime d id x).2.
Proof.
  unfold crud.update_showtime, showtimes_pk. repeat case_match; try done.
  simpl. rewrite map_map.
  erewrite map_ext; [done|]. intros e. simpl. by case_decide.
Qed.

Lemma create_showtime_no_overlap d x :
  no_overlapping_showtimes d →
  no_overlapping_showtimes (crud.create_showtime d x).2.
Proof.
  unfold crud.create_showtime.
  destruct (head _) as [e|] eqn:Hh; [done|]. simpl.
  apply first_None in Hh. rewrite Forall_forall in Hh.
  intros Hinv a b Ha Hb Hid Haud Hov. simpl in Ha, Hb.
  apply elem_of_app in Ha as [Ha|Ha%list_elem_of_singleton],
    Hb as [Hb|Hb%list_elem_of_singleton].
  - by apply (Hinv a b).
  - subst b. apply (Hh a Ha).
    eapply overlaps_of_intervals; [..|left; exact Hov]; done.
  - subst a. apply (Hh b Hb).
    eapply overlaps_of_intervals; [..|right; exact Hov]; done.
  - subst. done.
Qed.

Lemma update_showtime_no_overlap d id x :
  no_overlapping_showtimes d →
  no_overlapping_showtimes (crud.update_showtime d id x).2.
Proof.
  unfold crud.update_showtime.
  destruct (crud.get_showtime d id) as [showtime|] eqn:Hg; [|done].
  apply first_Some in Hg as [_ Hgid].
  destruct (head _) as [e|] eqn:Hh; [done|]. simpl.
  apply first_None in Hh. rewrite Forall_forall in Hh.
  intros Hinv a b Ha Hb Hid Haud Hov. simpl in Ha, Hb.
  apply list_elem_of_fmap in Ha as (a0 & -> & Ha), Hb as (b0 & -> & Hb).
  destruct (decide (Showtime.id a0 = Showtime.id showtime)) as [Ea|Ea],
    (decide (Showtime.id b0 = Showtime.id showtime)) as [Eb|Eb].
  - done.
  - apply (Hh b0 Hb). split; [congruence|].
    eapply overlaps_of_intervals; [..|right; exact Hov]; done.
  - apply (Hh a0 Ha). split; [congruence|].
    eapply overlaps_of_intervals; [..|left; exact Hov]; done.
  - by apply (Hinv a0 b0).
Qed.
End showtimes.

(** C9 (as amended): [create_showtime] returns None exactly when a
    showtime of the same auditorium has [starts_at < new.ends_at] and
    [ends_at > new.starts_at]; [update_showtime] returns None when no
    showtime has the id, and for an existing showtime exactly when a
    showtime other than the updated one passes that test; a call that
    returns None changes nothing; and both writers keep the showtime ids
    unique and keep the showtimes of an auditorium from overlapping. *)
Theorem showtime_writes_keep_no_overlap d id x :
  ((crud.create_showtime d x).1 = None
   ↔ Exists (λ e, Showtime.auditorium_id e = crud.auditorium_id x
                  ∧ Showtime.starts_at e < crud.ends_at x
                  ∧ Showtime.ends_at e > crud.starts_at x) (showtimes d))
  ∧ (crud.get_showtime d id = None → (crud.update_showtime d id x).1 = None)
  ∧ (is_Some (crud.get_showtime d id) →
     ((crud.update_showtime d id x).1 = None
      ↔ Exists (λ e, Showtime.id e ≠ id
                     ∧ Showtime.auditorium_id e = crud.auditorium_id x
                     ∧ Showtime.starts_at e < crud.ends_at x
                     ∧ Showtime.ends_at e > crud.starts_at x) (showtimes d)))
  ∧ ((crud.create_showtime d x).1 = None → (crud.create_showtime d x).2 = d)
  ∧ ((crud.update_showtime d id x).1 = None →
     (crud.update_showtime d id x).2 = d)
  ∧ (showtimes_pk d →
     showtimes_pk (crud.create_showtime d x).2
     ∧ showtimes_pk (crud.update_showtime d id x).2)
  ∧ (no_overlapping_showtimes d →
     no_overlapping_showtimes (crud.create_showtime d x).2
     ∧ no_overlapping_showtimes (crud.update_showtime d id x).2).
Proof.
  split; [apply create_showtime_None|].
  split; [by intros Hg; unfold crud.update_showtime; rewrite Hg|].
  split; [apply update_showtime_None|].
  split; [apply create_showtime_rejected|].
  split; [apply update_showtime_rejected|].
  split.
  - intros Hpk. split; [by apply create_showtime_pk|by apply update_showtime_pk].
  - intros Hno. split;
      [by apply create_showtime_no_overlap|by apply update_showtime_no_overlap].
Qed.

Lemma showtime_writes_keep_no_overlap_witness :
  (crud.create_showtime ex_db ex_showtime_in_early).1 = None
  ∧ (crud.update_showtime ex_db_two_showtimes 11 ex_showtime_in_early).1 = None
  ∧ map Showtime.id (showtimes ex_db_two_showtimes) = [10; 11]
  ∧ no_overlapping_showtimes ex_db_two_showtimes.
Proof.
  split; [|split; [|split]].
  - apply (showtime_writes_keep_no_overlap ex_db 10 ex_showtime_in_early).
    by_evaluation.
  - destruct (showtime_writes_keep_no_overlap ex_db_two_showtimes 11
                ex_showtime_in_early) as (_ & _ & Hupd & _).
    apply Hupd; [|by_evaluation]. vm_compute. eauto.
  - vm_compute. reflexivity.
  - destruct (showtime_writes_keep_no_overlap ex_db 10 ex_showtime_in)
      as (_ & _ & _ & _ & _ & _ & Hkeep).
    apply Hkeep. apply no_overlapping_showtimes_checked. by_evaluation.
Defined.

(** C9 (counterexample): no showtime has id 99 and none overlaps the
    interval from 200 to 300, yet [update_showtime] returns None. *)
Lemma update_showtime_unknown_id :
  (crud.update_showtime ex_db 99 ex_showtime_in).1 = None
  ∧ ¬ Exists (λ e, Showtime.id e ≠ 99
                   ∧ Showtime.auditorium_id e
                     = crud.auditorium_id ex_showtime_in
                   ∧ Showtime.starts_at e < crud.ends_at ex_showtime_in
                   ∧ Showtime.ends_at e > crud.starts_at ex_showtime_in)
        (showtimes ex_db).
Proof. split; [vm_compute; reflexivity|by_evaluation]. Qed.

(** * Further properties of the booking engine *)

(** ** What a hold leaves, and what a confirmation finds *)

Section hold_and_confirm_facts.
Implicit Types (s : State) (d : Database) (ids : list Z).

Lemma held_reservation_new (new : Reservation.t) d :
  Reservation.id new = next_id (map Reservation.id (reservations d)) →
  Reservation.status new = "held" →
  held_reservation (Reservation.id new) (add_reservation new d) = Some new.
Proof.
  intros Hid Hst. unfold held_reservation, add_reservation. simpl.
  rewrite filter_app.
  rewrite (proj2 (filter_nil_Forall _ (reservations d))).
  - simpl. by rewrite filter_cons_True.
  - apply Forall_forall. intros r Hr [Hr' _].
    apply (next_id_fresh (map Reservation.id (reservations d))).
    rewrite <- Hid, <- Hr'. apply list_elem_of_fmap. eauto.
Qed.

(** Under [holds_name_reservations], the entries that carry a fresh
    reservation id after the hold that creates it are those of its seats,
    while they are live. *)
Lemma holds_seat_after_write (now t showtime_id : Z) ids s (r : Redis)
    (rid sid : Z) :
  holds_name_reservations s →
  redis_client s = Some r →
  rid ∉ map Reservation.id (reservations (db s)) →
  holds_seat t showtime_id rid
    (write_holds now showtime_id ids rid (Some r)) sid
  ↔ sid ∈ ids ∧ t < now + HOLD_TTL_SECONDS.
Proof.
  intros Hinv Hr Hfresh. unfold holds_seat, write_holds.
  rewrite lookup_write_holds.
  destruct (decide (hold_key showtime_id sid ∈ map (hold_key showtime_id) ids))
    as [Hin|Hin].
  - apply list_elem_of_fmap in Hin as (sid' & [= <-] & Hin).
    unfold live. simpl. tauto.
  - assert (sid ∉ ids) as Hnin.
    { intros H. apply Hin, list_elem_of_fmap. eauto. }
    destruct (r !! hold_key showtime_id sid) as [e|] eqn:He; [|tauto].
    split; [|tauto]. intros [_ Hv]. exfalso.
    unfold holds_name_reservations in Hinv. rewrite Hr in Hinv.
    specialize (Hinv _ _ He). simpl in Hinv. by rewrite Hv in Hinv.
Qed.

Lemma has_booked_row_app showtime_id sid d (new : list BookedSeat.t)
    (rid : Z) (sids : list Z) (res : list Reservation.t) :
  map (λ b, (BookedSeat.showtime_id b, BookedSeat.seat_id b,
             BookedSeat.reservation_id b)) new
  = map (λ x, (showtime_id, x, rid)) sids →
  has_booked_row showtime_id sid
    (mkDatabase (seats d) (showtimes d) res (booked_seats d ++ new))
  ↔ has_booked_row showtime_id sid d ∨ sid ∈ sids.
Proof.
  intros Hmap. unfold has_booked_row. simpl. rewrite Exists_app.
  apply or_iff_compat_l. rewrite Exists_exists. split.
  - intros (b & Hb & Hs & Hid).
    assert ((showtime_id, sid, BookedSeat.reservation_id b)
            ∈ map (λ x, (showtime_id, x, rid)) sids) as Hin.
    { rewrite <- Hmap. apply list_elem_of_fmap. exists b.
      split; [congruence|done]. }
    by apply list_elem_of_fmap in Hin as (x & [= -> _] & Hx).
  - intros Hin.
    assert ((showtime_id, sid, rid)
            ∈ map (λ b, (BookedSeat.showtime_id b, BookedSeat.seat_id b,
                         BookedSeat.reservation_id b)) new) as Hb.
    { rewrite Hmap. apply list_elem_of_fmap. eauto. }
    apply list_elem_of_fmap in Hb as (b & Heq & Hb).
    injection Heq as H1 H2 _. exists b. eauto.
Qed.

(** The successful run of [confirm_reservation], from what it reads. *)
Lemma confirm_reservation_Ok t rid s reservation :
  held_reservation rid (db s) = Some reservation →
  held_seats t reservation rid (redis_client s) ≠ [] →
  ¬ Exists (λ sid, has_booked_row (Reservation.showtime_id reservation) sid
                     (db s))
      (held_seats t reservation rid (redis_client s)) →
  ∃ new,
    map (λ b, (BookedSeat.showtime_id b, BookedSeat.seat_id b,
               BookedSeat.reservation_id b)) new
    = map (λ sid, (Reservation.showtime_id reservation, sid, rid))
        (held_seats t reservation rid (redis_client s))
    ∧ confirm_reservation t rid s
      = (Ok (mkConfirmReservationResponse "confirmed" rid),
         mkState
           (mkDatabase (seats (db s)) (showtimes (db s))
              (set_confirmed rid (reservations (db s)))
              (booked_seats (db s) ++ new))
           (clear_holds (Reservation.showtime_id reservation)
              (held_seats t reservation rid (redis_client s))
              (redis_client s))).
Proof.
  intros Hr Hne Hno.
  destruct (held_reservation_Some _ _ _ Hr) as (_ & Hid & _).
  destruct (insert_booked_seats_Some (Reservation.showtime_id reservation)
              rid _ (booked_seats (db s))
              (NoDup_held_seats t reservation rid (redis_client s)) Hno)
    as (new & Hins & Hmap).
  exists new. split; [done|].
  unfold confirm_reservation, confirm_read. rewrite Hr.
  rewrite decide_False by done.
  unfold confirm_write, commit_booking. rewrite Hid, Hins. done.
Qed.
Lemma confirm_reservation_HoldExpired t rid s reservation :
  held_reservation rid (db s) = Some reservation →
  (∀ sid, sid ∉ held_seats t reservation rid (redis_client s)) →
  confirm_reservation t rid s = (Raise HoldExpired, s).
Proof.
  intros Hr Hno. unfold confirm_reservation, confirm_read. rewrite Hr.
  rewrite decide_True; [done|].
  destruct (held_seats t reservation rid (redis_client s)) as [|sid l];
    [done|].
  destruct (Hno sid). by left.
Qed.
End hold_and_confirm_facts.

(** X1: with Redis connected and every hold entry naming a Reservation
    row, a successful [hold_seats] on a non-empty list followed, before the
    TTL lapses, by [confirm_reservation] of the id it returned succeeds:
    the seats booked for the showtime are then those booked before
    together with exactly the requested ones, and none of the requested
    seats has a hold entry left. *)
Theorem hold_then_confirm now t showtime_id ids s resp s' :
  holds_name_reservations s →
  is_Some (redis_client s) →
  ids ≠ [] →
  hold_seats now showtime_id ids s = (Ok resp, s') →
  t < now + HOLD_TTL_SECONDS →
  ∃ s'',
    confirm_reservation t (hsr_reservation_id resp) s'
    = (Ok (mkConfirmReservationResponse "confirmed"
             (hsr_reservation_id resp)), s'')
    ∧ (∀ sid, has_booked_row showtime_id sid (db s'')
              ↔ has_booked_row showtime_id sid (db s) ∨ sid ∈ ids)
    ∧ (∀ sid, sid ∈ ids →
              ¬ has_booked_row showtime_id sid (db s)
              ∧ ¬ has_live_hold t showtime_id sid (redis_client s'')).
Proof.
  intros Hinv [r Hr] Hne Hhold Ht.
  apply hold_seats_Ok_inv in Hhold as (Hchk & -> & ->). simpl.
  apply hold_check_None in Hchk as (_ & Hnb & _).
  apply booked_among_nil in Hnb.
  pose proof (next_id_fresh (map Reservation.id (reservations (db s))))
    as Hfresh.
  pose proof (held_reservation_new
                (Reservation.mk
                   (next_id (map Reservation.id (reservations (db s))))
                   None showtime_id "held" 0 (Some (now + HOLD_TTL_SECONDS)))
                (db s) eq_refl eq_refl) as Hres.
  simpl in Hres. rewrite Hr.
  remember (next_id (map Reservation.id (reservations (db s)))) as rid
    eqn:Hrid.
  remember (Reservation.mk rid None showtime_id "held" 0
              (Some (now + HOLD_TTL_SECONDS))) as new eqn:Hnew.
  remember (mkState (add_reservation new (db s))
              (write_holds now showtime_id ids rid (Some r))) as s1 eqn:Hs1.
  assert (held_reservation rid (db s1) = Some new) as Hres1 by by subst s1.
  assert (∀ sid, sid ∈ held_seats t new rid (redis_client s1) ↔ sid ∈ ids)
    as Hheld.
  { intros sid. rewrite elem_of_held_seats. subst s1 new. simpl.
    rewrite (holds_seat_after_write now t showtime_id ids s r rid sid
               Hinv Hr Hfresh).
    tauto. }
  assert (∀ sid, has_booked_row showtime_id sid (db s1)
                 ↔ has_booked_row showtime_id sid (db s)) as Hsame
    by by subst s1.
  assert (Reservation.showtime_id new = showtime_id) as Hst by by subst new.
  destruct (confirm_reservation_Ok t rid s1 new Hres1) as (rows & Hmap & Hok).
  - destruct ids as [|sid0 ids0]; [done|].
    intros Hnil. assert (sid0 ∈ held_seats t new rid (redis_client s1)) as Hin.
    { apply Hheld. by left. }
    rewrite Hnil in Hin. by apply elem_of_nil in Hin.
  - intros Hex. apply Hnb. apply Exists_exists in Hex as (sid & Hin & Hb).
    apply Exists_exists. exists sid. split; [by apply Hheld|].
    rewrite Hst in Hb. by apply Hsame.
  - rewrite Hst in Hmap, Hok. eexists. split; [exact Hok|]. split.
    + intros sid.
      rewrite (has_booked_row_app showtime_id sid (db s1) rows rid _ _ Hmap).
      by rewrite Hheld, Hsame.
    + intros sid Hin. split.
      * intros Hb. apply Hnb, Exists_exists. eauto.
      * unfold has_live_hold, clear_holds. simpl.
        apply Hheld in Hin.
        assert (∃ r1, redis_client s1 = Some r1) as [r1 Hr1]
          by (subst s1; by eexists).
        rewrite Hr1 in *.
        rewrite lookup_clear_holds, decide_True; [tauto|].
        apply list_elem_of_fmap. by exists sid.
Qed.

Lemma hold_then_confirm_witness :
  ∃ s'',
    confirm_reservation 7 1 ex_state_held
    = (Ok (mkConfirmReservationResponse "confirmed" 1), s'')
    ∧ (∀ sid, has_booked_row 10 sid (db s'')
              ↔ has_booked_row 10 sid (db ex_state) ∨ sid ∈ [1; 2]).
Proof.
  destruct (hold_then_confirm 5 7 10 [1; 2] ex_state
              (mkHoldSeatsResponse 1 (Some 605)) ex_state_held)
    as (s'' & H1 & H2 & _).
  - by_evaluation.
  - by eexists.
  - done.
  - vm_compute. reflexivity.
  - vm_compute. reflexivity.
  - exists s''. split; [exact H1|exact H2].
Defined.

(** X2: under the same conditions, once the TTL has lapsed
    [confirm_reservation] of the id the hold returned raises HoldExpired
    and changes nothing. *)
Theorem confirm_after_expiry now t showtime_id ids s resp s' :
  holds_name_reservations s →
  is_Some (redis_client s) →
  hold_seats now showtime_id ids s = (Ok resp, s') →
  now + HOLD_TTL_SECONDS ≤ t →
  confirm_reservation t (hsr_reservation_id resp) s'
  = (Raise HoldExpired, s').
Proof.
  intros Hinv [r Hr] Hhold Ht.
  apply hold_seats_Ok_inv in Hhold as (_ & -> & ->). simpl.
  pose proof (next_id_fresh (map Reservation.id (reservations (db s))))
    as Hfresh.
  pose proof (held_reservation_new
                (Reservation.mk
                   (next_id (map Reservation.id (reservations (db s))))
                   None showtime_id "held" 0 (Some (now + HOLD_TTL_SECONDS)))
                (db s) eq_refl eq_refl) as Hres.
  simpl in Hres. rewrite Hr.
  remember (next_id (map Reservation.id (reservations (db s)))) as rid
    eqn:Hrid.
  eapply confirm_reservation_HoldExpired; [exact Hres|].
  intros sid Hin. apply elem_of_held_seats in Hin. simpl in Hin.
  apply (holds_seat_after_write now t showtime_id ids s r rid sid Hinv Hr
           Hfresh) in Hin.
  lia.
Qed.

Lemma confirm_after_expiry_witness :
  confirm_reservation 605 1 ex_state_held = (Raise HoldExpired, ex_state_held).
Proof.
  apply (confirm_after_expiry 5 605 10 [1; 2] ex_state
           (mkHoldSeatsResponse 1 (Some 605)) ex_state_held).
  - by_evaluation.
  - by eexists.
  - vm_compute. reflexivity.
  - vm_compute. discriminate.
Defined.

(** X3: an empty seat list passes every check of [hold_seats]: a held
    Reservation row is created and the hold index is left as it was; when
    every hold entry names a Reservation row, that reservation cannot be
    confirmed at any instant (HoldExpired). *)
Theorem hold_seats_empty_list now showtime_id s :
  hold_seats now showtime_id [] s
  = (Ok (mkHoldSeatsResponse
           (next_id (map Reservation.id (reservations (db s))))
           (Some (now + HOLD_TTL_SECONDS))),
     mkState
       (add_reservation
          (Reservation.mk
             (next_id (map Reservation.id (reservations (db s))))
             None showtime_id "held" 0 (Some (now + HOLD_TTL_SECONDS)))
          (db s))
       (redis_client s))
  ∧ (holds_name_reservations s →
     ∀ t, confirm_reservation t
            (next_id (map Reservation.id (reservations (db s))))
            (hold_seats now showtime_id [] s).2
          = (Raise HoldExpired, (hold_seats now showtime_id [] s).2)).
Proof.
  assert (hold_check now showtime_id [] s = None) as Hchk.
  { unfold hold_check, seats_in, booked_among.
    rewrite (proj2 (filter_nil_Forall _ (seats (db s)))).
    2:{ apply Forall_forall. intros x _ Hx. by apply elem_of_nil in Hx. }
    rewrite (proj2 (filter_nil_Forall _ (booked_seats (db s)))).
    2:{ apply Forall_forall. intros x _ [_ Hx]. by apply elem_of_nil in Hx. }
    simpl. by destruct (redis_client s). }
  assert (write_holds now showtime_id []
            (next_id (map Reservation.id (reservations (db s))))
            (redis_client s) = redis_client s) as Hw.
  { unfold write_holds. by destruct (redis_client s). }
  unfold hold_seats. rewrite Hchk. unfold hold_write. simpl. rewrite Hw.
  split; [done|]. intros Hinv t.
  pose proof (next_id_fresh (map Reservation.id (reservations (db s))))
    as Hfresh.
  pose proof (held_reservation_new
                (Reservation.mk
                   (next_id (map Reservation.id (reservations (db s))))
                   None showtime_id "held" 0 (Some (now + HOLD_TTL_SECONDS)))
                (db s) eq_refl eq_refl) as Hres.
  simpl in Hres.
  remember (next_id (map Reservation.id (reservations (db s)))) as rid
    eqn:Hrid.
  eapply confirm_reservation_HoldExpired; [exact Hres|].
  intros sid Hin. apply elem_of_held_seats in Hin. simpl in Hin.
  unfold holds_seat in Hin. unfold holds_name_reservations in Hinv.
  destruct (redis_client s) as [r|]; [|done]. simpl in Hin.
  destruct (r !! hold_key showtime_id sid) as [e|] eqn:He; [|done].
  destruct Hin as [_ Hv]. specialize (Hinv _ _ He). simpl in Hinv.
  by rewrite Hv in Hinv.
Qed.

Lemma hold_seats_empty_list_witness :
  (hold_seats 5 10 [] ex_state_held).1
  = Ok (mkHoldSeatsResponse 2 (Some 605))
  ∧ confirm_reservation 6 2 (hold_seats 5 10 [] ex_state_held).2
    = (Raise HoldExpired, (hold_seats 5 10 [] ex_state_held).2).
Proof.
  destruct (hold_seats_empty_list 5 10 ex_state_held) as [H1 H2].
  split; [by rewrite H1|].
  apply (H2 ltac:(by_evaluation) 6).
Defined.

(** X4: with Redis connected, after a successful [hold_seats] every entry
    that [get_seats] returns for a requested seat reads held at each
    instant before now + TTL and available from now + TTL on, with no
    release call in between. *)
Theorem status_after_hold now showtime_id ids s resp s' :
  is_Some (redis_client s) →
  hold_seats now showtime_id ids s = (Ok resp, s') →
  ∀ t, Forall (λ o, sso_id o ∈ ids →
                    sso_status o
                    = if decide (t < now + HOLD_TTL_SECONDS)
                      then "held" else "available")
         (get_seats t showtime_id s').1.
Proof.
  intros [r Hr] Hhold t.
  apply hold_seats_Ok_inv in Hhold as (Hchk & _ & Hs').
  apply hold_check_None in Hchk as (_ & Hnb & _).
  apply booked_among_nil in Hnb.
  unfold get_seats. cbn [fst]. apply Forall_fmap, Forall_forall.
  intros x _ Hin. cbn [sso_id sso_status] in *.
  rewrite seat_status_eq. unfold status_of.
  assert (¬ has_booked_row showtime_id (Seat.id x) (db s')) as Hnb'.
  { rewrite Hs'. intros Hb. apply Hnb, Exists_exists. eauto. }
  rewrite (decide_False _ _ Hnb').
  assert (has_live_hold t showtime_id (Seat.id x) (redis_client s')
          ↔ t < now + HOLD_TTL_SECONDS) as Hlive.
  { rewrite Hs'. simpl. rewrite Hr. unfold has_live_hold, write_holds.
    rewrite lookup_write_holds, decide_True; [done|].
    apply list_elem_of_fmap. eauto. }
  destruct (decide (has_live_hold _ _ _ _));
    destruct (decide (t < now + HOLD_TTL_SECONDS)); tauto.
Qed.

Lemma status_after_hold_witness :
  map (λ o, (sso_id o, sso_status o)) (get_seats 604 10 ex_state_held).1
  = [(1, "held"); (2, "held"); (3, "available")]
  ∧ Forall (λ o, sso_id o ∈ [1; 2] → sso_status o = "available")
      (get_seats 605 10 ex_state_held).1.
Proof.
  split; [vm_compute; reflexivity|].
  assert (is_Some (redis_client ex_state)) as H1 by by eexists.
  assert (hold_seats 5 10 [1; 2] ex_state
          = (Ok (mkHoldSeatsResponse 1 (Some 605)), ex_state_held)) as H2
    by (vm_compute; reflexivity).
  exact (status_after_hold 5 10 [1; 2] ex_state _ _ H1 H2 605).
Defined.

(** ** What a step of the service can change *)

Section steps.
Implicit Types (s : State) (d : Database) (sys : System).

Lemma insert_booked_seats_app showtime_id rid sids
    (rows rows' : list BookedSeat.t) :
  insert_booked_seats showtime_id rid sids rows = Some rows' →
  ∃ new,
    rows' = rows ++ new
    ∧ map (λ b, (BookedSeat.showtime_id b, BookedSeat.seat_id b,
                 BookedSeat.reservation_id b)) new
      = map (λ sid, (showtime_id, sid, rid)) sids.
Proof.
  revert rows. induction sids as [|sid sids IH]; intros rows; simpl.
  - intros [= <-]. exists []. by rewrite app_nil_r.
  - destruct (decide (violates_uq_showtime_seat _ _ _)); [done|].
    intros (new & -> & Hmap)%IH.
    eexists (_ :: new). rewrite <- app_assoc. split; [done|].
    simpl. by rewrite Hmap.
Qed.

(** The transaction of a confirmation either is rolled back or appends
    one row per seat and marks the reservation confirmed. *)
Lemma confirm_write_cases reservation sids s :
  confirm_write reservation sids s = (Raise SeatConflict, s)
  ∨ ∃ new,
      map (λ b, (BookedSeat.showtime_id b, BookedSeat.seat_id b,
                 BookedSeat.reservation_id b)) new
      = map (λ sid, (Reservation.showtime_id reservation, sid,
                     Reservation.id reservation)) sids
      ∧ confirm_write reservation sids s
        = (Ok (mkConfirmReservationResponse "confirmed"
                 (Reservation.id reservation)),
           mkState
             (mkDatabase (seats (db s)) (showtimes (db s))
                (set_confirmed (Reservation.id reservation)
                   (reservations (db s)))
                (booked_seats (db s) ++ new))
             (clear_holds (Reservation.showtime_id reservation) sids
                (redis_client s))).
Proof.
  unfold confirm_write, commit_booking.
  destruct (insert_booked_seats _ _ _ _) as [rows|] eqn:Hins; [|by left].
  apply insert_booked_seats_app in Hins as (new & -> & Hmap).
  right. by exists new.
Qed.

Lemma showtime_writes_frame d x id :
  let d1 := (crud.create_showtime d x).2 in
  let d2 := (crud.update_showtime d id x).2 in
  (seats d1 = seats d ∧ reservations d1 = reservations d
   ∧ booked_seats d1 = booked_seats d)
  ∧ (seats d2 = seats d ∧ reservations d2 = reservations d
     ∧ booked_seats d2 = booked_seats d).
Proof.
  unfold crud.create_showtime, crud.update_showtime.
  split; repeat case_match; done.
Qed.

(** The four ways in which a step changes the two stores. *)
Lemma step_stores sys sys' :
  step sys sys' →
  stores sys' = stores sys
  ∨ (∃ now showtime_id ids,
       stores sys' = (hold_write now showtime_id ids (stores sys)).2)
  ∨ (∃ reservation sids new,
       (reservation ∈ reservations (db (stores sys))
        ∨ ConfirmRead reservation sids ∈ in_flight sys)
       ∧ map (λ b, (BookedSeat.showtime_id b, BookedSeat.seat_id b,
                    BookedSeat.reservation_id b)) new
         = map (λ sid, (Reservation.showtime_id reservation, sid,
                        Reservation.id reservation)) sids
       ∧ stores sys'
         = mkState
             (mkDatabase (seats (db (stores sys))) (showtimes (db (stores sys)))
                (set_confirmed (Reservation.id reservation)
                   (reservations (db (stores sys))))
                (booked_seats (db (stores sys)) ++ new))
             (clear_holds (Reservation.showtime_id reservation) sids
                (redis_client (stores sys))))
  ∨ (∃ d', stores sys' = mkState d' (redis_client (stores sys))
           ∧ seats d' = seats (db (stores sys))
           ∧ reservations d' = reservations (db (stores sys))
           ∧ booked_seats d' = booked_seats (db (stores sys))).
Proof.
  intros Hstep.
  destruct Hstep as [now req sys|now st ids sys Hc|now st ids sys bf af Hfl
                    |now rid sys r sids Hread|sys r sids bf af Hfl]; simpl.
  - destruct req as [st|st ids|rid|x|id x]; simpl.
    + by left.
    + unfold hold_seats. destruct (hold_check now st ids (stores sys));
        [by left|]. right; left. by exists now, st, ids.
    + unfold confirm_reservation.
      destruct (confirm_read now rid (stores sys)) as [[r sids]|e] eqn:Hread;
        [|by left].
      apply confirm_read_Ok in Hread as (Hr & _ & _).
      apply held_reservation_Some in Hr as (Hin & _ & _).
      destruct (confirm_write_cases r sids (stores sys)) as [->|(new & Hm & ->)];
        [by left|].
      right; right; left. exists r, sids, new. auto.
    + right; right; right. eexists. split; [done|].
      apply (showtime_writes_frame (db (stores sys)) x 0).
    + right; right; right. eexists. split; [done|].
      apply (showtime_writes_frame (db (stores sys)) x id).
  - by left.
  - right; left. by exists now, st, ids.
  - by left.
  - destruct (confirm_write_cases r sids (stores sys)) as [->|(new & Hm & ->)];
      [by left|].
    right; right; left. exists r, sids, new. split; [|done].
    right. rewrite Hfl. apply elem_of_app. right. by left.
Qed.

Lemma steps_keep (P : System → Prop) :
  (∀ sys sys', step sys sys' → P sys → P sys') →
  ∀ sys sys', rtc step sys sys' → P sys → P sys'.
Proof.
  intros Hstep sys sys' Hrtc. induction Hrtc as [|sys sys1 sys2 H1 _ IH]; eauto.
Qed.

Lemma set_confirmed_ids rid (l : list Reservation.t) :
  map Reservation.id (set_confirmed rid l) = map Reservation.id l.
Proof.
  unfold set_confirmed. rewrite map_map. apply map_ext. intros r.
  by destruct (decide (Reservation.id r = rid)).
Qed.

(** Bookings are only ever appended. *)
Lemma step_booked_prefix sys sys' :
  step sys sys' →
  booked_seats (db (stores sys)) `prefix_of` booked_seats (db (stores sys')).
Proof.
  intros [->|[(now & st & ids & ->)|[(r & sids & new & _ & _ & ->)
         |(d' & -> & _ & _ & Hb)]]]%step_stores; simpl.
  - done.
  - done.
  - by apply prefix_app_r.
  - by rewrite Hb.
Qed.

(** Reservation rows are only ever appended, and keep their ids. *)
Lemma step_reservation_ids sys sys' :
  step sys sys' →
  map Reservation.id (reservations (db (stores sys)))
  `prefix_of` map Reservation.id (reservations (db (stores sys'))).
Proof.
  intros [->|[(now & st & ids & ->)|[(r & sids & new & _ & _ & ->)
         |(d' & -> & _ & Hr & _)]]]%step_stores; simpl.
  - done.
  - rewrite map_app. by apply prefix_app_r.
  - by rewrite set_confirmed_ids.
  - by rewrite Hr.
Qed.

Lemma step_settled rid sys sys' :
  step sys sys' →
  settled rid (db (stores sys)) → settled rid (db (stores sys')).
Proof.
  intros Hstep [Hin Hall]. split.
  - eapply elem_of_prefix; [exact Hin|by apply step_reservation_ids].
  - apply step_stores in Hstep
      as [->|[(now & st & ids & ->)|[(r & sids & new & _ & _ & ->)
         |(d' & -> & _ & Hr & _)]]]; simpl.
    + done.
    + apply Forall_app. split; [done|]. apply Forall_singleton. simpl.
      intros <-. by apply next_id_fresh in Hin.
    + unfold set_confirmed. apply Forall_fmap.
      eapply Forall_impl; [exact Hall|]. intros x Hx. simpl.
      destruct (decide (Reservation.id x = Reservation.id r)); [done|auto].
    + by rewrite Hr.
Qed.

Lemma settled_not_found t rid s :
  settled rid (db s) →
  confirm_reservation t rid s = (Raise ReservationNotFound, s).
Proof.
  intros [_ Hall]. unfold confirm_reservation, confirm_read.
  rewrite (proj2 (held_reservation_None rid (db s))); [done|].
  intros Hex. apply Exists_exists in Hex as (r & Hr & Hid & Hst).
  rewrite Forall_forall in Hall. by apply (Hall r Hr Hid).
Qed.

Lemma confirm_reservation_Ok_inv t rid s resp s' :
  confirm_reservation t rid s = (Ok resp, s') →
  ∃ reservation sids new,
    confirm_read t rid s = Ok (reservation, sids)
    ∧ Reservation.id reservation = rid
    ∧ reservation ∈ reservations (db s)
    ∧ map (λ b, (BookedSeat.showtime_id b, BookedSeat.seat_id b,
                 BookedSeat.reservation_id b)) new
      = map (λ sid, (Reservation.showtime_id reservation, sid, rid)) sids
    ∧ s' = mkState
             (mkDatabase (seats (db s)) (showtimes (db s))
                (set_confirmed rid (reservations (db s)))
                (booked_seats (db s) ++ new))
             (clear_holds (Reservation.showtime_id reservation) sids
                (redis_client s)).
Proof.
  unfold confirm_reservation.
  destruct (confirm_read t rid s) as [[r sids]|e] eqn:Hread; [|done].
  pose proof Hread as Hread'.
  apply confirm_read_Ok in Hread' as (Hr & _ & _).
  apply held_reservation_Some in Hr as (Hin & Hid & _).
  destruct (confirm_write_cases r sids s) as [->|(new & Hm & ->)]; [done|].
  intros [= <- <-]. exists r, sids, new. by rewrite <- Hid.
Qed.
End steps.

Section lifecycle.
Implicit Types (s : State) (d : Database) (sys : System).

Lemma steps_booked_prefix sys sys' :
  rtc step sys sys' →
  booked_seats (db (stores sys)) `prefix_of` booked_seats (db (stores sys')).
Proof.
  intros Hrtc. induction Hrtc as [|x y z Hxy _ IH]; [done|].
  etrans; [by apply step_booked_prefix|done].
Qed.

Lemma steps_reservation_ids sys sys' :
  rtc step sys sys' →
  map Reservation.id (reservations (db (stores sys)))
  `prefix_of` map Reservation.id (reservations (db (stores sys'))).
Proof.
  intros Hrtc. induction Hrtc as [|x y z Hxy _ IH]; [done|].
  etrans; [by apply step_reservation_ids|done].
Qed.

Lemma has_booked_row_prefix showtime_id sid d d' :
  booked_seats d `prefix_of` booked_seats d' →
  has_booked_row showtime_id sid d → has_booked_row showtime_id sid d'.
Proof.
  intros [k Hk]. unfold has_booked_row. rewrite Hk, Exists_app. auto.
Qed.

Lemma has_booked_row_new showtime_id rid sid sids d
    (res : list Reservation.t) (new : list BookedSeat.t) :
  map (λ b, (BookedSeat.showtime_id b, BookedSeat.seat_id b,
             BookedSeat.reservation_id b)) new
  = map (λ x, (showtime_id, x, rid)) sids →
  sid ∈ sids →
  has_booked_row showtime_id sid
    (mkDatabase (seats d) (showtimes d) res (booked_seats d ++ new)).
Proof.
  intros Hmap Hin.
  apply (has_booked_row_app showtime_id sid d new rid sids res Hmap). auto.
Qed.

Lemma settled_after_confirm t rid s resp s' :
  confirm_reservation t rid s = (Ok resp, s') → settled rid (db s').
Proof.
  intros (r & sids & new & _ & Hid & Hin & _ & ->)%confirm_reservation_Ok_inv.
  split; simpl.
  - rewrite set_confirmed_ids, <- Hid. apply list_elem_of_fmap. eauto.
  - eapply Forall_impl; [apply (set_confirmed_status rid)|].
    intros x Hx Hid'. by rewrite (Hx Hid').
Qed.

Lemma step_holds_name_reservations sys sys' :
  step sys sys' →
  holds_name_reservations (stores sys) →
  holds_name_reservations (stores sys').
Proof.
  intros Hstep Hinv. unfold holds_name_reservations in *.
  apply step_stores in Hstep
    as [->|[(now & st & ids & ->)|[(r & sids & new & _ & _ & ->)
       |(d' & -> & _ & Hr & _)]]]; simpl.
  - done.
  - unfold write_holds. destruct (redis_client (stores sys)) as [r|]; [|done].
    intros k e He. simpl. rewrite lookup_write_holds in He.
    rewrite map_app, elem_of_app.
    destruct (decide (k ∈ map (hold_key st) ids)).
    + injection He as <-. right. simpl. by left.
    + left. apply (Hinv k e He).
  - unfold clear_holds. destruct (redis_client (stores sys)) as [r0|]; [|done].
    intros k e He. simpl. rewrite set_confirmed_ids.
    rewrite lookup_clear_holds in He.
    destruct (decide (k ∈ map (hold_key (Reservation.showtime_id r)) sids));
      [done|]. apply (Hinv k e He).
  - rewrite Hr. done.
Qed.

Lemma step_in_flight_known sys sys' :
  step sys sys' → in_flight_known sys → in_flight_known sys'.
Proof.
  intros Hstep Hinv r sids Hin.
  assert (ConfirmRead r sids ∈ in_flight sys
          ∨ r ∈ reservations (db (stores sys))) as [Hold|Hnew].
  { destruct Hstep as [now req sys|now st ids sys Hc|now st ids sys bf af Hfl
                      |now rid sys r0 sids0 Hread|sys r0 sids0 bf af Hfl];
      simpl in Hin.
    - by left.
    - apply elem_of_cons in Hin as [Heq|Hin]; [done|by left].
    - left. rewrite Hfl. apply elem_of_app.
      apply elem_of_app in Hin as [?|?]; [by left|right; by right].
    - apply elem_of_cons in Hin as [[= -> ->]|Hin]; [|by left].
      right. apply confirm_read_Ok in Hread as (Hr & _ & _).
      by apply held_reservation_Some in Hr as (? & _ & _).
    - left. rewrite Hfl. apply elem_of_app.
      apply elem_of_app in Hin as [?|?]; [by left|right; by right]. }
  - eapply elem_of_prefix;
      [exact (Hinv r sids Hold)|by apply step_reservation_ids].
  - eapply elem_of_prefix; [|by apply step_reservation_ids].
    apply list_elem_of_fmap. eauto.
Qed.

Lemma set_confirmed_keeps rid (l : list Reservation.t) r :
  r ∈ l →
  ∃ r', r' ∈ set_confirmed rid l
        ∧ Reservation.id r' = Reservation.id r
        ∧ (Reservation.status r = "confirmed" ∨ Reservation.id r = rid →
           Reservation.status r' = "confirmed").
Proof.
  intros Hin. unfold set_confirmed.
  exists (if decide (Reservation.id r = rid)
          then Reservation.set_status "confirmed" r else r).
  split; [apply list_elem_of_fmap; eauto|].
  destruct (decide (Reservation.id r = rid)); simpl; split; try done.
  intros [?|?]; done.
Qed.

Lemma step_bookings_confirmed sys sys' :
  step sys sys' →
  in_flight_known sys →
  bookings_confirmed (db (stores sys)) →
  bookings_confirmed (db (stores sys')).
Proof.
  intros Hstep Hfl Hinv.
  apply step_stores in Hstep
    as [->|[(now & st & ids & ->)|[(r & sids & new & Hknown & Hmap & ->)
       |(d' & -> & _ & Hr & Hb)]]]; simpl.
  - done.
  - intros b Hb. destruct (Hinv b Hb) as (r & Hr & Hid & Hst).
    exists r. split; [|done]. simpl. apply elem_of_app. by left.
  - assert (∃ r0, r0 ∈ reservations (db (stores sys))
                  ∧ Reservation.id r0 = Reservation.id r) as (r0 & Hr0 & Hid0).
    { destruct Hknown as [Hin|Hin]; [by eauto|].
      apply Hfl in Hin.
      apply list_elem_of_fmap in Hin as (r0 & Hid & Hin). eauto. }
    intros b Hb. simpl in Hb. apply elem_of_app in Hb as [Hb|Hb].
    + destruct (Hinv b Hb) as (r1 & Hr1 & Hid1 & Hst1).
      destruct (set_confirmed_keeps (Reservation.id r) _ r1 Hr1)
        as (r' & Hr' & Hid' & Hst').
      exists r'. simpl. split; [done|]. split; [congruence|auto].
    + destruct (set_confirmed_keeps (Reservation.id r) _ r0 Hr0)
        as (r' & Hr' & Hid' & Hst').
      exists r'. simpl. split; [done|].
      assert ((BookedSeat.showtime_id b, BookedSeat.seat_id b,
               BookedSeat.reservation_id b)
              ∈ map (λ sid, (Reservation.showtime_id r, sid,
                             Reservation.id r)) sids) as Hin.
      { rewrite <- Hmap. apply list_elem_of_fmap. eauto. }
      apply list_elem_of_fmap in Hin as (sid & [= _ _ Hrid] & _).
      split; [congruence|auto].
  - intros b Hin. rewrite Hb in Hin.
    destruct (Hinv b Hin) as (r & Hr' & Hid & Hst).
    exists r. by rewrite Hr.
Qed.
End lifecycle.

(** X5: a reservation is confirmed at most once: after a successful
    [confirm_reservation], whatever the service does next, every further
    [confirm_reservation] of the same id raises ReservationNotFound and
    changes nothing. *)
Theorem confirm_only_once t rid s resp s' fl sys' :
  confirm_reservation t rid s = (Ok resp, s') →
  rtc step (mkSystem s' fl) sys' →
  ∀ t', confirm_reservation t' rid (stores sys')
        = (Raise ReservationNotFound, stores sys').
Proof.
  intros Hok Hrtc t'. apply settled_not_found.
  apply (steps_keep (λ x, settled rid (db (stores x)))
           (step_settled rid) _ _ Hrtc).
  by apply settled_after_confirm in Hok.
Qed.

Lemma confirm_only_once_witness :
  confirm_reservation 9 1 (handle 8 (HoldSeats 10 [3]) ex_state_confirmed)
  = (Raise ReservationNotFound,
     handle 8 (HoldSeats 10 [3]) ex_state_confirmed).
Proof.
  apply (confirm_only_once 7 1 ex_state_held
           (mkConfirmReservationResponse "confirmed" 1) ex_state_confirmed []
           (mkSystem (handle 8 (HoldSeats 10 [3]) ex_state_confirmed) [])).
  - vm_compute. reflexivity.
  - apply rtc_once.
    apply (step_request 8 (HoldSeats 10 [3]) (mkSystem ex_state_confirmed [])).
Defined.

(** X6: no step of the service removes or alters a BookedSeat row or
    drops a Reservation id: after any run both tables extend what they
    were, so a seat booked for a showtime stays booked. *)
Theorem bookings_are_permanent sys sys' :
  rtc step sys sys' →
  booked_seats (db (stores sys)) `prefix_of` booked_seats (db (stores sys'))
  ∧ map Reservation.id (reservations (db (stores sys)))
    `prefix_of` map Reservation.id (reservations (db (stores sys')))
  ∧ ∀ showtime_id sid,
      has_booked_row showtime_id sid (db (stores sys)) →
      has_booked_row showtime_id sid (db (stores sys')).
Proof.
  intros Hrtc. pose proof (steps_booked_prefix sys sys' Hrtc) as Hb.
  split; [done|]. split; [by apply steps_reservation_ids|].
  intros st sid. by apply has_booked_row_prefix.
Qed.

Lemma bookings_are_permanent_witness :
  has_booked_row 10 1
    (db (handle 9 (ConfirmReservation 2)
           (handle 8 (HoldSeats 10 [3]) ex_state_confirmed))).
Proof.
  apply (bookings_are_permanent (mkSystem ex_state_confirmed [])
           (mkSystem (handle 9 (ConfirmReservation 2)
                        (handle 8 (HoldSeats 10 [3]) ex_state_confirmed)) [])).
  - eapply rtc_l; [apply (step_request 8 (HoldSeats 10 [3]))|].
    apply rtc_once. apply (step_request 9 (ConfirmReservation 2)).
  - by_evaluation.
Defined.

(** X7: of two confirmations whose seat lists share a seat of the same
    showtime only the first to commit succeeds: once the transaction of
    one has gone through, the transaction of the other - whenever it runs
    afterwards - raises SeatConflict and changes nothing. *)
Theorem overlapping_confirmation_loses r1 sids1 r2 sids2 s resp s1 fl sys2 sid :
  confirm_write r1 sids1 s = (Ok resp, s1) →
  rtc step (mkSystem s1 fl) sys2 →
  Reservation.showtime_id r2 = Reservation.showtime_id r1 →
  sid ∈ sids1 → sid ∈ sids2 →
  confirm_write r2 sids2 (stores sys2) = (Raise SeatConflict, stores sys2).
Proof.
  intros Hok Hrtc Hst Hin1 Hin2.
  destruct (confirm_write_cases r1 sids1 s) as [Hc|(new & Hmap & Hw)];
    [congruence|].
  rewrite Hw in Hok. injection Hok as _ <-.
  assert (has_booked_row (Reservation.showtime_id r2) sid (db (stores sys2)))
    as Hb.
  { eapply has_booked_row_prefix; [apply (steps_booked_prefix _ _ Hrtc)|].
    rewrite Hst. simpl.
    by apply (has_booked_row_new _ (Reservation.id r1) sid sids1 (db s)). }
  unfold confirm_write, commit_booking.
  rewrite insert_booked_seats_None; [done|].
  apply Exists_exists. eauto.
Qed.

Lemma overlapping_confirmation_loses_witness :
  confirm_write ex_reservation_1 [2; 3] ex_state_confirmed
  = (Raise SeatConflict, ex_state_confirmed).
Proof.
  apply (overlapping_confirmation_loses ex_reservation_1 [1; 2]
           ex_reservation_1 [2; 3] ex_state_held
           (mkConfirmReservationResponse "confirmed" 1)
           ex_state_confirmed [] (mkSystem ex_state_confirmed []) 2).
  - vm_compute. reflexivity.
  - apply rtc_refl.
  - reflexivity.
  - by_evaluation.
  - by_evaluation.
Defined.

(** X8: in every reachable state each BookedSeat row names a Reservation
    row whose status is confirmed. *)
Theorem bookings_belong_to_confirmed_reservations sys :
  reachable sys → bookings_confirmed (db (stores sys)).
Proof.
  intros (sys0 & (_ & Hb & Hfl) & Hrtc).
  apply (steps_keep
           (λ x, bookings_confirmed (db (stores x)) ∧ in_flight_known x)
           ltac:(intros x y Hs [H1 H2]; split;
                 [by apply (step_bookings_confirmed x y)
                 |by apply (step_in_flight_known x y)])
           sys0 sys Hrtc).
  split.
  - intros b Hin. rewrite Hb in Hin. by apply elem_of_nil in Hin.
  - intros r sids Hin. rewrite Hfl in Hin. by apply elem_of_nil in Hin.
Qed.

Lemma bookings_belong_to_confirmed_reservations_witness :
  bookings_confirmed (db (stores ex_sys_end)).
Proof.
  apply (bookings_belong_to_confirmed_reservations ex_sys_end).
  exists (mkSystem ex_state []). split; [done|].
  eapply rtc_l; [by apply (step_hold_check 5 10 [1])|].
  eapply rtc_l; [by apply (step_hold_check 5 10 [1; 2])|].
  eapply rtc_l.
  { by apply (step_hold_write 5 10 [1] _ [HoldChecked 10 [1; 2]] []). }
  eapply rtc_l; [apply (step_request 6 (ConfirmReservation 1))|].
  eapply rtc_l; [by apply (step_hold_write 6 10 [1; 2] _ [] [])|].
  eapply rtc_l.
  { apply (step_confirm_read 8 2 _ ex_reservation_2 [1; 2]).
    vm_compute. reflexivity. }
  eapply rtc_l.
  { by apply (step_confirm_write _ ex_reservation_2 [1; 2] [] []). }
  apply rtc_refl.
Defined.

(** X9: no step of the service leaves a hold entry that names a missing
    reservation: when every entry of the hold index carries the id of a
    Reservation row, this is still so after any run - the row is written
    before the entries, and rows are never deleted. *)
Theorem holds_always_name_reservations sys sys' :
  rtc step sys sys' →
  holds_name_reservations (stores sys) →
  holds_name_reservations (stores sys').
Proof.
  apply (steps_keep (λ x, holds_name_reservations (stores x))
           step_holds_name_reservations).
Qed.

Lemma holds_always_name_reservations_witness :
  holds_name_reservations ex_state_race.
Proof.
  apply (holds_always_name_reservations (mkSystem ex_state [])
           (mkSystem ex_state_race [])); [|by_evaluation].
  eapply rtc_l; [by apply (step_hold_check 5 10 [1])|].
  eapply rtc_l; [by apply (step_hold_check 5 10 [1; 2])|].
  eapply rtc_l.
  { by apply (step_hold_write 5 10 [1] _ [HoldChecked 10 [1; 2]] []). }
  eapply rtc_l; [apply (step_request 6 (ConfirmReservation 1))|].
  eapply rtc_l; [by apply (step_hold_write 6 10 [1; 2] _ [] [])|].
  apply rtc_refl.
Defined.

(** No step of the service touches the seats table. *)
Lemma step_seats sys sys' :
  step sys sys' →
  seats (db (stores sys')) = seats (db (stores sys)).
Proof.
  intros [->|[(now & st & ids & ->)|[(r & sids & new & _ & _ & ->)
         |(d' & -> & Hs & _)]]]%step_stores; done.
Qed.

Lemma steps_seats sys sys' :
  rtc step sys sys' →
  seats (db (stores sys')) = seats (db (stores sys)).
Proof.
  intros Hrtc. induction Hrtc as [|x y z Hxy _ IH]; [done|].
  rewrite IH. by apply step_seats.
Qed.

(** X10: a seat booked by a successful [confirm_reservation] stays taken,
    whatever hold, confirmation, listing and showtime requests run
    afterwards: at every instant each entry that [get_seats] returns for
    it reads booked - and, when the seats table has a row for the seat,
    [get_seats] does return such an entry - and [hold_seats] on a list
    that contains it fails, with InvalidSeatSelection or
    SeatsAlreadyBooked and never with a new reservation. *)
Theorem confirmed_seat_stays_booked t rid s reservation sids resp s' fl sys2
    sid :
  confirm_read t rid s = Ok (reservation, sids) →
  confirm_reservation t rid s = (Ok resp, s') →
  rtc step (mkSystem s' fl) sys2 →
  sid ∈ sids →
  (∀ t', Forall (λ o, sso_id o = sid → sso_status o = "booked")
           (get_seats t' (Reservation.showtime_id reservation)
              (stores sys2)).1)
  ∧ (seat_exists sid (db s) →
     ∀ t', ∃ o,
       o ∈ (get_seats t' (Reservation.showtime_id reservation)
              (stores sys2)).1
       ∧ sso_id o = sid ∧ sso_status o = "booked")
  ∧ (∀ t' ids', sid ∈ ids' →
       hold_seats t' (Reservation.showtime_id reservation) ids' (stores sys2)
       = (Raise InvalidSeatSelection, stores sys2)
       ∨ hold_seats t' (Reservation.showtime_id reservation) ids'
           (stores sys2)
         = (Raise SeatsAlreadyBooked, stores sys2)).
Proof.
  intros Hread Hok Hrtc Hin.
  apply confirm_reservation_Ok_inv in Hok
    as (r & sids' & new & Hread' & _ & _ & Hmap & ->).
  rewrite Hread in Hread'. injection Hread' as <- <-.
  assert (has_booked_row (Reservation.showtime_id reservation) sid
            (db (stores sys2))) as Hb.
  { eapply has_booked_row_prefix; [apply (steps_booked_prefix _ _ Hrtc)|].
    simpl. by apply (has_booked_row_new _ rid sid sids (db s)). }
  pose proof (steps_seats _ _ Hrtc) as Hseats. simpl in Hseats.
  split; [|split].
  - intros t'. unfold get_seats. cbn [fst].
    apply Forall_fmap, Forall_forall. intros x _ Hid.
    cbn [sso_id sso_status] in *. rewrite seat_status_eq. unfold status_of.
    rewrite Hid. by rewrite decide_True.
  - intros Hex t'. unfold seat_exists in Hex.
    apply Exists_exists in Hex as (x & Hx & Hid).
    rewrite <- Hseats in Hx.
    exists (mkSeatStatusOut (Seat.id x) (Seat.row_label x)
              (Seat.seat_number x) (Seat.seat_type x)
              (seat_status
                 (booked_ids (Reservation.showtime_id reservation)
                    (db (stores sys2)))
                 (held_ids t' (Reservation.showtime_id reservation)
                    (redis_client (stores sys2))) x)).
    split; [|split; [done|]].
    + unfold get_seats. cbn [fst]. apply list_elem_of_fmap. by exists x.
    + cbn [sso_status]. rewrite seat_status_eq. unfold status_of.
      rewrite Hid. by rewrite decide_True.
  - intros t' ids' Hin'.
    destruct (decide (length (seats_in ids' (db (stores sys2))) = length ids'))
      as [Hlen|Hlen]; [right|left; by apply hold_seats_invalid].
    apply hold_seats_booked; [done|].
    intros Hnil. apply booked_among_nil in Hnil. apply Hnil.
    apply Exists_exists. eauto.
Qed.

Lemma confirmed_seat_stays_booked_witness :
  Forall (λ o, sso_id o = 2 → sso_status o = "booked")
    (get_seats 700 10 ex_state_confirmed).1
  ∧ (∃ o, o ∈ (get_seats 700 10 ex_state_confirmed).1
          ∧ sso_id o = 2 ∧ sso_status o = "booked")
  ∧ (hold_seats 700 10 [3; 2] ex_state_confirmed
     = (Raise InvalidSeatSelection, ex_state_confirmed)
     ∨ hold_seats 700 10 [3; 2] ex_state_confirmed
       = (Raise SeatsAlreadyBooked, ex_state_confirmed)).
Proof.
  destruct (confirmed_seat_stays_booked 7 1 ex_state_held ex_reservation_1
              [1; 2] (mkConfirmReservationResponse "confirmed" 1)
              ex_state_confirmed [] (mkSystem ex_state_confirmed []) 2)
    as (H1 & H2 & H3).
  - vm_compute. reflexivity.
  - vm_compute. reflexivity.
  - apply rtc_refl.
  - by_evaluation.
  - split; [exact (H1 700)|]. split.
    + apply H2. by_evaluation.
    + apply (H3 700 [3; 2]). by_evaluation.
Defined.

(** * Further properties of the catalogue *)

(** ** Rows found, changed and removed by id *)

Section table_facts.
Context {A : Type} (id : A → Z).
Implicit Types (rows : list A) (i j : Z).

Lemma first_by_id_Some i rows x :
  first_by_id id i rows = Some x → x ∈ rows ∧ id x = i.
Proof. apply (first_Some (λ r, id r = i)). Qed.

Lemma first_by_id_None i rows :
  first_by_id id i rows = None ↔ i ∉ map id rows.
Proof.
  unfold first_by_id. rewrite (first_None (λ r, id r = i)), Forall_forall.
  split.
  - intros Hall (x & -> & Hx)%list_elem_of_fmap. by apply (Hall x).
  - intros Hno x Hx <-. apply Hno, list_elem_of_fmap. eauto.
Qed.

Lemma first_by_id_app_new i rows new :
  id new ∉ map id rows →
  first_by_id id i (rows ++ [new])
  = if decide (i = id new) then Some new else first_by_id id i rows.
Proof.
  intros Hfresh. unfold first_by_id. rewrite filter_app.
  destruct (decide (i = id new)) as [->|Hne].
  - rewrite (proj2 (filter_nil_Forall _ rows)).
    + simpl. by rewrite filter_cons_True.
    + apply Forall_forall. intros x Hx Heq. apply Hfresh.
      rewrite <- Heq. apply list_elem_of_fmap. eauto.
  - rewrite (filter_cons_False _ new) by (intros ?; by apply Hne).
    by rewrite app_nil_r.
Qed.

Lemma first_by_id_delete i j rows :
  first_by_id id j (delete_by_id id i rows)
  = if decide (j = i) then None else first_by_id id j rows.
Proof.
  unfold first_by_id, delete_by_id.
  induction rows as [|x rows IH]; [by case_decide|].
  rewrite !filter_cons.
  destruct (decide (id x ≠ i)) as [Hx|Hx].
  - rewrite filter_cons. destruct (decide (id x = j)) as [Hj|Hj]; [|done].
    simpl. rewrite decide_False; [done|congruence].
  - apply dec_stable in Hx. rewrite IH.
    destruct (decide (j = i)) as [->|Hne]; [done|].
    rewrite decide_False; [done|congruence].
Qed.

Lemma update_by_id_ids i new rows :
  id new = i → map id (update_by_id id i new rows) = map id rows.
Proof.
  intros Hnew. unfold update_by_id. rewrite map_map. apply map_ext.
  intros x. simpl. destruct (decide (id x = i)); congruence.
Qed.

Lemma first_by_id_update i j new rows :
  id new = i →
  first_by_id id j (update_by_id id i new rows)
  = if decide (j = i)
    then match first_by_id id i rows with
         | Some _ => Some new
         | None => None
         end
    else first_by_id id j rows.
Proof.
  intros Hnew. unfold first_by_id, update_by_id.
  destruct (decide (j = i)) as [->|Hne].
  - induction rows as [|x rows IH]; [done|].
    cbn [map]. destruct (decide (id x = i)) as [Hx|Hx].
    + rewrite (filter_cons _ new), (filter_cons _ x).
      by rewrite !decide_True.
    + rewrite !(filter_cons _ x). by rewrite !decide_False.
  - induction rows as [|x rows IH]; [done|].
    cbn [map]. destruct (decide (id x = i)) as [Hx|Hx].
    + rewrite (filter_cons _ new), (filter_cons _ x).
      by rewrite !decide_False by congruence.
    + rewrite !(filter_cons _ x).
      destruct (decide (id x = j)); [done|apply IH].
Qed.

Lemma delete_by_id_absent i rows :
  i ∉ map id rows → delete_by_id id i rows = rows.
Proof.
  intros Hno. unfold delete_by_id. induction rows as [|x rows IH]; [done|].
  rewrite filter_cons, decide_True.
  - f_equal. apply IH. intros H. apply Hno. by right.
  - intros <-. apply Hno. by left.
Qed.

Lemma delete_by_id_ids i rows :
  map id (delete_by_id id i rows) = filter (λ k, k ≠ i) (map id rows).
Proof.
  unfold delete_by_id. induction rows as [|x rows IH]; [done|].
  cbn [map]. rewrite !filter_cons.
  destruct (decide (id x ≠ i)); simpl; by rewrite IH.
Qed.

Lemma NoDup_app_fresh rows new :
  id new = next_id (map id rows) →
  NoDup (map id rows) → NoDup (map id (rows ++ [new])).
Proof.
  intros Hnew Hnd. rewrite map_app. apply NoDup_app. split; [done|].
  split; [|apply NoDup_singleton].
  intros k Hk ->%list_elem_of_singleton. rewrite Hnew in Hk.
  by apply next_id_fresh in Hk.
Qed.
End table_facts.

Lemma get_showtime_by_id d i :
  crud.get_showtime d i = first_by_id Showtime.id i (showtimes d).
Proof. done. Qed.

Lemma update_showtime_rows i new (rows : list Showtime.t) :
  map (λ e, if decide (Showtime.id e = i) then new else e) rows
  = update_by_id Showtime.id i new rows.
Proof. done. Qed.

(** X11: a row created by [create_movie], [create_auditorium],
    [create_seat] or an accepted [create_showtime] gets an id that no row
    of its table had, is what the lookup by that id returns afterwards,
    and leaves the lookup of every other id as it was. *)
Theorem created_rows_are_found :
  (∀ now movies x,
     (Movie.id (crud.create_movie now movies x).1 ∉ map Movie.id movies)
     ∧ crud.get_movie (crud.create_movie now movies x).2
         (Movie.id (crud.create_movie now movies x).1)
       = Some (crud.create_movie now movies x).1
     ∧ ∀ i, i ≠ Movie.id (crud.create_movie now movies x).1 →
            crud.get_movie (crud.create_movie now movies x).2 i
            = crud.get_movie movies i)
  ∧ (∀ auditoriums x,
       (Auditorium.id (crud.create_auditorium auditoriums x).1
        ∉ map Auditorium.id auditoriums)
       ∧ crud.get_auditorium (crud.create_auditorium auditoriums x).2
           (Auditorium.id (crud.create_auditorium auditoriums x).1)
         = Some (crud.create_auditorium auditoriums x).1
       ∧ ∀ i, i ≠ Auditorium.id (crud.create_auditorium auditoriums x).1 →
              crud.get_auditorium (crud.create_auditorium auditoriums x).2 i
              = crud.get_auditorium auditoriums i)
  ∧ (∀ d x,
       (Seat.id (crud.create_seat d x).1 ∉ map Seat.id (seats d))
       ∧ crud.get_seat (crud.create_seat d x).2
           (Seat.id (crud.create_seat d x).1)
         = Some (crud.create_seat d x).1
       ∧ ∀ i, i ≠ Seat.id (crud.create_seat d x).1 →
              crud.get_seat (crud.create_seat d x).2 i = crud.get_seat d i)
  ∧ (∀ d x showtime d1,
       crud.create_showtime d x = (Some showtime, d1) →
       (Showtime.id showtime ∉ map Showtime.id (showtimes d))
       ∧ crud.get_showtime d1 (Showtime.id showtime) = Some showtime
       ∧ ∀ i, i ≠ Showtime.id showtime →
              crud.get_showtime d1 i = crud.get_showtime d i).
Proof.
  split; [|split; [|split]].
  - intros now movies x. unfold crud.create_movie, crud.get_movie. simpl.
    pose proof (next_id_fresh (map Movie.id movies)) as Hf.
    split; [done|]. split.
    + rewrite first_by_id_app_new by done. by rewrite decide_True.
    + intros i Hi. rewrite first_by_id_app_new by done.
      by rewrite decide_False.
  - intros auditoriums x.
    unfold crud.create_auditorium, crud.get_auditorium. simpl.
    pose proof (next_id_fresh (map Auditorium.id auditoriums)) as Hf.
    split; [done|]. split.
    + rewrite first_by_id_app_new by done. by rewrite decide_True.
    + intros i Hi. rewrite first_by_id_app_new by done.
      by rewrite decide_False.
  - intros d x. unfold crud.create_seat, crud.get_seat. simpl.
    pose proof (next_id_fresh (map Seat.id (seats d))) as Hf.
    split; [done|]. split.
    + rewrite first_by_id_app_new by done. by rewrite decide_True.
    + intros i Hi. rewrite first_by_id_app_new by done.
      by rewrite decide_False.
  - intros d x showtime d1. unfold crud.create_showtime.
    destruct (head _) as [e|]; [done|]. intros [= <- <-].
    pose proof (next_id_fresh (map Showtime.id (showtimes d))) as Hf.
    split; [done|]. rewrite !get_showtime_by_id. simpl. split.
    + rewrite first_by_id_app_new by done. by rewrite decide_True.
    + intros i Hi. rewrite !get_showtime_by_id. simpl.
      rewrite first_by_id_app_new by done. by rewrite decide_False.
Qed.

Lemma created_rows_are_found_witness :
  crud.get_showtime ex_db_two_showtimes 11
  = Some (Showtime.mk 11 2 1 200 300 15)
  ∧ crud.get_showtime ex_db_two_showtimes 10 = crud.get_showtime ex_db 10.
Proof.
  destruct created_rows_are_found as (_ & _ & _ & Hshow).
  destruct (Hshow ex_db ex_showtime_in (Showtime.mk 11 2 1 200 300 15)
              ex_db_two_showtimes) as (_ & Hget & Hother).
  - vm_compute. reflexivity.
  - split; [exact Hget|]. apply Hother. discriminate.
Defined.

(** X12: [update_movie] and [update_auditorium], when they return a row,
    return the row of the requested id with every attribute of the
    request - title, description, duration, poster and genre, the movie's
    creation date kept; name, capacity and extra metadata - and
    [update_showtime] the row of the requested id with the movie,
    auditorium, start and end of the request (its price, a Numeric column,
    is left out here). The lookup by that id returns the row afterwards,
    every other lookup is as before, and the ids of the table are
    unchanged. For an id that no row has, [update_movie] and
    [update_auditorium] return None and change nothing. *)
Theorem updated_rows_are_found :
  (∀ movies i x movie1 movies1,
     crud.update_movie movies i x = (Some movie1, movies1) →
     (∃ movie,
        crud.get_movie movies i = Some movie
        ∧ movie1
          = Movie.mk i
              (schemas.MovieCreate.title x)
              (schemas.MovieCreate.description x)
              (schemas.MovieCreate.duration_minutes x)
              (schemas.MovieCreate.poster_url x)
              (schemas.MovieCreate.genre x)
              (Movie.created_at movie))
     ∧ Movie.id movie1 = i
     ∧ Movie.title movie1 = schemas.MovieCreate.title x
     ∧ crud.get_movie movies1 i = Some movie1
     ∧ (∀ j, j ≠ i → crud.get_movie movies1 j = crud.get_movie movies j)
     ∧ map Movie.id movies1 = map Movie.id movies)
  ∧ (∀ movies i x,
       crud.get_movie movies i = None →
       crud.update_movie movies i x = (None, movies))
  ∧ (∀ auditoriums i x auditorium1 auditoriums1,
       crud.update_auditorium auditoriums i x
       = (Some auditorium1, auditoriums1) →
       auditorium1
       = Auditorium.mk i
           (schemas.AuditoriumCreate.name x)
           (schemas.AuditoriumCreate.capacity x)
           (schemas.AuditoriumCreate.extra_metadata x)
       ∧ Auditorium.id auditorium1 = i
       ∧ Auditorium.capacity auditorium1 = schemas.AuditoriumCreate.capacity x
       ∧ crud.get_auditorium auditoriums1 i = Some auditorium1
       ∧ (∀ j, j ≠ i → crud.get_auditorium auditoriums1 j
                       = crud.get_auditorium auditoriums j)
       ∧ map Auditorium.id auditoriums1 = map Auditorium.id auditoriums)
  ∧ (∀ auditoriums i x,
       crud.get_auditorium auditoriums i = None →
       crud.update_auditorium auditoriums i x = (None, auditoriums))
  ∧ (∀ d i x showtime1 d1,
       crud.update_showtime d i x = (Some showtime1, d1) →
       Showtime.id showtime1 = i
       ∧ Showtime.movie_id showtime1 = crud.movie_id x
       ∧ Showtime.starts_at showtime1 = crud.starts_at x
       ∧ Showtime.ends_at showtime1 = crud.ends_at x
       ∧ Showtime.auditorium_id showtime1 = crud.auditorium_id x
       ∧ crud.get_showtime d1 i = Some showtime1
       ∧ (∀ j, j ≠ i → crud.get_showtime d1 j = crud.get_showtime d j)
       ∧ map Showtime.id (showtimes d1) = map Showtime.id (showtimes d)).
Proof.
  split; [|split; [|split; [|split]]].
  - intros movies i x movie1 movies1. unfold crud.update_movie, crud.get_movie.
    destruct (first_by_id Movie.id i movies) as [movie|] eqn:Hg; [|done].
    destruct (first_by_id_Some _ _ _ _ Hg) as [_ Hid].
    intros [= <- <-]. simpl. rewrite Hid.
    split; [by exists movie|].
    split; [done|]. split; [done|]. split; [|split].
    + rewrite first_by_id_update by done. by rewrite decide_True, Hg.
    + intros j Hj. rewrite first_by_id_update by done.
      by rewrite decide_False.
    + by apply update_by_id_ids.
  - intros movies i x Hg. unfold crud.update_movie. by rewrite Hg.
  - intros auditoriums i x auditorium1 auditoriums1.
    unfold crud.update_auditorium, crud.get_auditorium.
    destruct (first_by_id Auditorium.id i auditoriums) as [a|] eqn:Hg; [|done].
    destruct (first_by_id_Some _ _ _ _ Hg) as [_ Hid].
    intros [= <- <-]. simpl. rewrite Hid.
    split; [done|].
    split; [done|]. split; [done|]. split; [|split].
    + rewrite first_by_id_update by done. by rewrite decide_True, Hg.
    + intros j Hj. rewrite first_by_id_update by done.
      by rewrite decide_False.
    + by apply update_by_id_ids.
  - intros auditoriums i x Hg. unfold crud.update_auditorium. by rewrite Hg.
  - intros d i x showtime1 d1. unfold crud.update_showtime.
    rewrite get_showtime_by_id.
    destruct (first_by_id Showtime.id i (showtimes d)) as [e|] eqn:Hg; [|done].
    destruct (first_by_id_Some _ _ _ _ Hg) as [_ Hid].
    destruct (head _) as [o|]; [done|]. intros [= <- <-]. simpl. rewrite Hid.
    repeat (split; [done|]). rewrite update_showtime_rows.
    split; [|split].
    + rewrite get_showtime_by_id. simpl.
      rewrite first_by_id_update by done. by rewrite decide_True, Hg.
    + intros j Hj. rewrite !get_showtime_by_id. simpl.
      rewrite first_by_id_update by done. by rewrite decide_False.
    + by apply update_by_id_ids.
Qed.

Lemma updated_rows_are_found_witness :
  (crud.update_movie ex_movies 2 ex_movie_in).1
  = Some (Movie.mk 2 "The Quantum Paradox" None (Some 148) None
            (Some "Sci-Fi") 2)
  ∧ crud.get_movie (crud.update_movie ex_movies 2 ex_movie_in).2 2
    = Some (Movie.mk 2 "The Quantum Paradox" None (Some 148) None
              (Some "Sci-Fi") 2)
  ∧ crud.update_movie ex_movies 7 ex_movie_in = (None, ex_movies).
Proof.
  destruct updated_rows_are_found as (Hupd & Hmiss & _).
  destruct (Hupd ex_movies 2 ex_movie_in
              (Movie.mk 2 "The Quantum Paradox" None (Some 148) None
                 (Some "Sci-Fi") 2)
              (crud.update_movie ex_movies 2 ex_movie_in).2)
    as (_ & _ & _ & Hget & _); [vm_compute; reflexivity|].
  split; [vm_compute; reflexivity|]. split; [exact Hget|].
  apply Hmiss. vm_compute. reflexivity.
Defined.

(** X13: [delete_movie], [delete_auditorium], [delete_seat] and
    [delete_showtime] return what the lookup by the id returned; afterwards
    the lookup by that id returns None and every other lookup is as
    before; for an id that no row has they change nothing. *)
Theorem deleted_rows_are_gone :
  (∀ movies i,
     (crud.delete_movie movies i).1 = crud.get_movie movies i
     ∧ crud.get_movie (crud.delete_movie movies i).2 i = None
     ∧ (∀ j, j ≠ i → crud.get_movie (crud.delete_movie movies i).2 j
                     = crud.get_movie movies j)
     ∧ (crud.get_movie movies i = None →
        (crud.delete_movie movies i).2 = movies))
  ∧ (∀ auditoriums i,
       (crud.delete_auditorium auditoriums i).1
       = crud.get_auditorium auditoriums i
       ∧ crud.get_auditorium (crud.delete_auditorium auditoriums i).2 i = None
       ∧ (∀ j, j ≠ i →
               crud.get_auditorium (crud.delete_auditorium auditoriums i).2 j
               = crud.get_auditorium auditoriums j)
       ∧ (crud.get_auditorium auditoriums i = None →
          (crud.delete_auditorium auditoriums i).2 = auditoriums))
  ∧ (∀ d i,
       (crud.delete_seat d i).1 = crud.get_seat d i
       ∧ crud.get_seat (crud.delete_seat d i).2 i = None
       ∧ (∀ j, j ≠ i → crud.get_seat (crud.delete_seat d i).2 j
                       = crud.get_seat d j)
       ∧ (crud.get_seat d i = None → (crud.delete_seat d i).2 = d))
  ∧ (∀ d i,
       (crud.delete_showtime d i).1 = crud.get_showtime d i
       ∧ crud.get_showtime (crud.delete_showtime d i).2 i = None
       ∧ (∀ j, j ≠ i → crud.get_showtime (crud.delete_showtime d i).2 j
                       = crud.get_showtime d j)
       ∧ (crud.get_showtime d i = None → (crud.delete_showtime d i).2 = d)).
Proof.
  split; [|split; [|split]].
  - intros movies i. unfold crud.delete_movie, crud.get_movie.
    destruct (first_by_id Movie.id i movies) as [m|] eqn:Hg; simpl.
    + destruct (first_by_id_Some _ _ _ _ Hg) as [_ ->].
      split; [done|]. split; [|split; [|done]].
      * rewrite first_by_id_delete. by rewrite decide_True.
      * intros j Hj. rewrite first_by_id_delete. by rewrite decide_False.
    + by rewrite Hg.
  - intros auditoriums i. unfold crud.delete_auditorium, crud.get_auditorium.
    destruct (first_by_id Auditorium.id i auditoriums) as [m|] eqn:Hg; simpl.
    + destruct (first_by_id_Some _ _ _ _ Hg) as [_ ->].
      split; [done|]. split; [|split; [|done]].
      * rewrite first_by_id_delete. by rewrite decide_True.
      * intros j Hj. rewrite first_by_id_delete. by rewrite decide_False.
    + by rewrite Hg.
  - intros d i. unfold crud.delete_seat, crud.get_seat.
    destruct (first_by_id Seat.id i (seats d)) as [m|] eqn:Hg; simpl.
    + destruct (first_by_id_Some _ _ _ _ Hg) as [_ ->].
      split; [done|]. split; [|split; [|done]].
      * rewrite first_by_id_delete. by rewrite decide_True.
      * intros j Hj. rewrite first_by_id_delete. by rewrite decide_False.
    + by rewrite Hg.
  - intros d i. unfold crud.delete_showtime. rewrite !get_showtime_by_id.
    destruct (first_by_id Showtime.id i (showtimes d)) as [m|] eqn:Hg; simpl.
    + destruct (first_by_id_Some _ _ _ _ Hg) as [_ ->].
      split; [done|]. split; [|split; [|done]].
      * rewrite first_by_id_delete. by rewrite decide_True.
      * intros j Hj. rewrite !get_showtime_by_id. simpl.
        rewrite first_by_id_delete. by rewrite decide_False.
    + by rewrite Hg.
Qed.

Lemma deleted_rows_are_gone_witness :
  crud.get_seat (crud.delete_seat ex_db 2).2 2 = None
  ∧ crud.get_seat (crud.delete_seat ex_db 2).2 3 = crud.get_seat ex_db 3
  ∧ (crud.delete_seat ex_db 9).2 = ex_db.
Proof.
  destruct deleted_rows_are_gone as (_ & _ & Hseat & _).
  destruct (Hseat ex_db 2) as (_ & Hgone & Hother & _).
  destruct (Hseat ex_db 9) as (_ & _ & _ & Hmiss).
  split; [exact Hgone|]. split; [apply Hother; discriminate|].
  apply Hmiss. vm_compute. reflexivity.
Defined.

(** ** Seats created in batch *)

Section seats_batch.
Implicit Types (d : Database) (plan : list (Z * Z)) (table : list Seat.t).

Lemma chr_Some i : 0 ≤ i < 1114112 → chr i = Some i.
Proof. intros H. unfold chr. by rewrite decide_True. Qed.

Lemma chr_None i : 1114112 ≤ i → chr i = None.
Proof. intros H. unfold chr. rewrite decide_False; [done|lia]. Qed.

Lemma mapM_chr (l : list Z) :
  Forall (λ row, row ≤ 1114047) l →
  Forall (λ row, 1 ≤ row) l →
  mapM (λ row, chr (64 + row)) l = Some (map (λ row, 64 + row) l).
Proof.
  induction l as [|row l IH]; [done|].
  intros [Hrow Hl]%Forall_cons [Hrow' Hl']%Forall_cons.
  cbn [mapM map]. rewrite chr_Some by lia. rewrite (IH Hl Hl'). done.
Qed.

Lemma mapM_chr_None (l : list Z) :
  Exists (λ row, 1114047 < row) l →
  mapM (λ row, chr (64 + row)) l = None.
Proof.
  induction l as [|row l IH]; [by intros ?%Exists_nil|].
  intros [Hrow|Hl]%Exists_cons; cbn [mapM].
  - rewrite chr_None by lia. done.
  - rewrite (IH Hl). by destruct (chr (64 + row)).
Qed.

Lemma batch_plan_Some rows seats_per_row :
  rows ≤ 1114047 →
  crud.batch_plan rows seats_per_row
  = Some (flat_map (λ row, map (λ seat_num, (64 + row, seat_num))
                             (seqZ 1 seats_per_row)) (seqZ 1 rows)).
Proof.
  intros Hrows. unfold crud.batch_plan. rewrite mapM_chr.
  - cbn. f_equal. induction (seqZ 1 rows) as [|row l IH]; [done|].
    cbn. by rewrite IH.
  - apply Forall_forall. intros row Hrow%elem_of_seqZ. lia.
  - apply Forall_forall. intros row Hrow%elem_of_seqZ. lia.
Qed.

Lemma batch_plan_None rows seats_per_row :
  1114047 < rows → crud.batch_plan rows seats_per_row = None.
Proof.
  intros Hrows. unfold crud.batch_plan. rewrite mapM_chr_None; [done|].
  apply Exists_exists. exists rows. split; [|done].
  apply elem_of_seqZ. lia.
Qed.

Lemma length_batch_grid {B : Type} (f : Z → Z → B) rows seats_per_row :
  length (flat_map (λ row, map (f row) (seqZ 1 seats_per_row)) (seqZ 1 rows))
  = (Z.to_nat rows * Z.to_nat seats_per_row)%nat.
Proof.
  rewrite <- (length_seqZ 1 rows).
  induction (seqZ 1 rows) as [|row l IH]; [done|].
  cbn. rewrite length_app, length_map, length_seqZ, IH. done.
Qed.

(** What [crud.add_all_seats] stores when every label can be stored. *)
Lemma add_all_seats_Some auditorium_id seat_type plan table :
  Forall (λ p, ¬ 55296 ≤ p.1 < 57344) plan →
  ∃ created,
    crud.add_all_seats auditorium_id seat_type plan table
    = Some (created, table ++ created)
    ∧ map (λ x, (Seat.row_label x, Seat.seat_number x)) created
      = map (λ p, (encode_char p.1, Some p.2)) plan
    ∧ Forall (λ x, Seat.auditorium_id x = Some auditorium_id
                   ∧ Seat.seat_type x = Some seat_type) created
    ∧ (NoDup (map Seat.id table) → NoDup (map Seat.id (table ++ created))).
Proof.
  revert table. induction plan as [|[label n] plan IH]; intros table Hall.
  - exists []. rewrite app_nil_r. simpl. by repeat split.
  - apply Forall_cons in Hall as [Hl Hall]. simpl in Hl. simpl.
    unfold encode_char at 1. rewrite (decide_False _ _ Hl).
    set (seat := Seat.mk (next_id (map Seat.id table)) (Some auditorium_id)
                   (Some (byte_string (utf8_bytes label))) (Some n)
                   (Some seat_type)).
    destruct (IH (table ++ [seat]) Hall) as (created & -> & Hmap & Hfa & Hnd).
    exists (seat :: created). rewrite <- app_assoc. split; [done|].
    split; [|split].
    + simpl. rewrite Hmap. unfold encode_char at 2.
      by rewrite (decide_False _ _ Hl).
    + apply Forall_cons. by split.
    + intros Hnd0. change (table ++ seat :: created)
        with (table ++ [seat] ++ created). rewrite app_assoc.
      apply Hnd. by apply NoDup_app_fresh.
Qed.

Lemma add_all_seats_None auditorium_id seat_type plan table :
  Exists (λ p, 55296 ≤ p.1 < 57344) plan →
  crud.add_all_seats auditorium_id seat_type plan table = None.
Proof.
  revert table. induction plan as [|[label n] plan IH]; intros table Hex.
  - by apply Exists_nil in Hex.
  - simpl. unfold encode_char.
    destruct (decide (55296 ≤ label < 57344)) as [|Hl]; [done|].
    apply Exists_cons in Hex as [Hex|Hex]; [done|].
    by rewrite (IH _ Hex).
Qed.

Lemma get_seats_by_auditorium_app d (created : list Seat.t) auditorium_id :
  Forall (λ x, Seat.auditorium_id x = Some auditorium_id) created →
  crud.get_seats_by_auditorium (crud.with_seats (seats d ++ created) d)
    auditorium_id
  = crud.get_seats_by_auditorium d auditorium_id ++ created.
Proof.
  intros Hall. unfold crud.get_seats_by_auditorium. simpl.
  rewrite filter_app. f_equal.
  induction created as [|x l IH]; [done|].
  apply Forall_cons in Hall as [Hx Hall].
  rewrite filter_cons_True by done. by rewrite IH.
Qed.
End seats_batch.

Lemma create_seats_batch_Some d auditorium_id rows seats_per_row seat_type
    price_modifier :
  rows ≤ 55231 →
  ∃ created,
    crud.create_seats_batch d auditorium_id rows seats_per_row seat_type
      price_modifier
    = (Some created, crud.with_seats (seats d ++ created) d)
    ∧ length created = (Z.to_nat rows * Z.to_nat seats_per_row)%nat
    ∧ map (λ x, (Seat.row_label x, Seat.seat_number x)) created
      = flat_map (λ row, map (λ n, (encode_char (64 + row), Some n))
                           (seqZ 1 seats_per_row)) (seqZ 1 rows)
    ∧ Forall (λ x, Seat.auditorium_id x = Some auditorium_id
                   ∧ Seat.seat_type x = Some seat_type) created
    ∧ (seats_pk d → seats_pk (crud.with_seats (seats d ++ created) d)).
Proof.
  intros Hrows. unfold crud.create_seats_batch.
  rewrite batch_plan_Some by lia.
  destruct (add_all_seats_Some auditorium_id seat_type
              (flat_map (λ row, map (λ n, (64 + row, n))
                                  (seqZ 1 seats_per_row)) (seqZ 1 rows))
              (seats d)) as (created & -> & Hmap & Hfa & Hnd).
  { apply Forall_forall. intros [label n] Hin. simpl.
    apply list_elem_of_In, in_flat_map in Hin as (row & Hrow & Hin).
    apply list_elem_of_In, elem_of_seqZ in Hrow.
    apply list_elem_of_In, list_elem_of_fmap in Hin as (? & [= -> _] & _).
    lia. }
  exists created. split; [done|]. split; [|split; [|split; [done|done]]].
  - rewrite <- (length_map (λ x, (Seat.row_label x, Seat.seat_number x))),
      Hmap, length_map. apply length_batch_grid.
  - rewrite Hmap. clear.
    induction (seqZ 1 rows) as [|row l IH]; [done|].
    cbn. rewrite map_app, map_map, IH. done.
Qed.

(** X14: [create_seats_batch] with at most 55231 rows (labels below the
    surrogates) stores one seat per row and seat number, rows first: the
    new seats follow the old ones in the table, are
    [max 0 rows * max 0 seats_per_row] in number, all belong to the
    auditorium and have the seat type asked for, the seat of row [r] and
    number [n] carrying the label [chr(64 + r)] and the number [n]; the
    seat ids stay unique and the other tables are untouched. With more
    than 1114047 rows [chr] raises, and with rows in between and a seat
    per row a label cannot be stored: nothing is created. *)
Theorem create_seats_batch_grid d auditorium_id rows seats_per_row seat_type
    price_modifier :
  (rows ≤ 55231 →
   ∃ created,
     crud.create_seats_batch d auditorium_id rows seats_per_row seat_type
       price_modifier
     = (Some created, crud.with_seats (seats d ++ created) d)
     ∧ length created = (Z.to_nat rows * Z.to_nat seats_per_row)%nat
     ∧ map (λ x, (Seat.row_label x, Seat.seat_number x)) created
       = flat_map (λ row, map (λ n, (encode_char (64 + row), Some n))
                            (seqZ 1 seats_per_row)) (seqZ 1 rows)
     ∧ Forall (λ x, Seat.auditorium_id x = Some auditorium_id
                    ∧ Seat.seat_type x = Some seat_type) created
     ∧ (seats_pk d → seats_pk (crud.with_seats (seats d ++ created) d)))
  ∧ (55231 < rows → 1 ≤ seats_per_row ∨ 1114047 < rows →
     crud.create_seats_batch d auditorium_id rows seats_per_row seat_type
       price_modifier
     = (None, d)).
Proof.
  split; [apply create_seats_batch_Some|].
  - intros Hrows Hcase. unfold crud.create_seats_batch.
    destruct (decide (1114047 < rows)) as [Hbig|Hmid].
    + by rewrite batch_plan_None.
    + destruct Hcase as [Hspr|?]; [|done].
      rewrite batch_plan_Some by lia.
      rewrite add_all_seats_None; [done|].
      apply Exists_exists. exists (64 + 55232, 1). split; [|simpl; lia].
      apply list_elem_of_In, in_flat_map. exists 55232. split.
      * apply list_elem_of_In, elem_of_seqZ. lia.
      * apply list_elem_of_In, list_elem_of_fmap. exists 1.
        split; [done|]. apply elem_of_seqZ. lia.
Qed.

Lemma create_seats_batch_grid_witness :
  ∃ created,
    crud.create_seats_batch ex_db 1 2 3 "regular" 0
    = (Some created, crud.with_seats (seats ex_db ++ created) ex_db)
    ∧ length created = 6%nat
    ∧ map (λ x, (Seat.row_label x, Seat.seat_number x)) created
      = [(Some "A", Some 1); (Some "A", Some 2); (Some "A", Some 3);
         (Some "B", Some 1); (Some "B", Some 2); (Some "B", Some 3)].
Proof.
  destruct (create_seats_batch_grid ex_db 1 2 3 "regular" 0) as [Hok _].
  destruct Hok as (created & H1 & H2 & H3 & _); [lia|].
  exists created. split; [exact H1|]. split; [exact H2|exact H3].
Defined.

(** X15: the endpoint [create_seats_batch] answers 404 and writes nothing
    when no auditorium has the id; for an auditorium that exists and at
    most 55231 rows it answers with the count
    [max 0 rows * max 0 seats_per_row], and [get_auditorium_seats] then
    lists the seats the auditorium had followed by the new ones. *)
Theorem seats_batch_endpoint auditoriums d auditorium_id batch_in :
  (crud.get_auditorium auditoriums auditorium_id = None →
   main.create_seats_batch auditoriums d auditorium_id batch_in
   = (Raise main.AuditoriumNotFound, d)
   ∧ main.get_auditorium_seats auditoriums d auditorium_id
     = Raise main.AuditoriumNotFound)
  ∧ (is_Some (crud.get_auditorium auditoriums auditorium_id) →
     schemas.SeatCreateBatch.rows batch_in ≤ 55231 →
     ∃ created,
       main.create_seats_batch auditoriums d auditorium_id batch_in
       = (Ok (main.mkSeatsCreated "created"
                (Z.max 0 (schemas.SeatCreateBatch.rows batch_in)
                 * Z.max 0 (schemas.SeatCreateBatch.seats_per_row batch_in))
                auditorium_id),
          crud.with_seats (seats d ++ created) d)
       ∧ main.get_auditorium_seats auditoriums
           (crud.with_seats (seats d ++ created) d) auditorium_id
         = Ok (crud.get_seats_by_auditorium d auditorium_id ++ created)).
Proof.
  split.
  - intros Hg. unfold main.create_seats_batch, main.get_auditorium_seats.
    by rewrite Hg.
  - intros [a Hg] Hrows.
    destruct (create_seats_batch_Some d auditorium_id
                (schemas.SeatCreateBatch.rows batch_in)
                (schemas.SeatCreateBatch.seats_per_row batch_in)
                (schemas.SeatCreateBatch.seat_type batch_in)
                (schemas.SeatCreateBatch.price_modifier batch_in) Hrows)
      as (created & Hc & Hlen & _ & Hfa & _).
    exists created.
    unfold main.create_seats_batch, main.get_auditorium_seats.
    rewrite Hg, Hc, Hlen. split.
    + do 3 f_equal. lia.
    + f_equal. apply get_seats_by_auditorium_app.
      eapply Forall_impl; [exact Hfa|]. by intros x [? _].
Qed.

Lemma seats_batch_endpoint_witness :
  main.create_seats_batch ex_auditoriums ex_db 5 ex_batch_in
  = (Raise main.AuditoriumNotFound, ex_db)
  ∧ ∃ created,
      main.create_seats_batch ex_auditoriums ex_db 1 ex_batch_in
      = (Ok (main.mkSeatsCreated "created" 6 1),
         crud.with_seats (seats ex_db ++ created) ex_db)
      ∧ main.get_auditorium_seats ex_auditoriums
          (crud.with_seats (seats ex_db ++ created) ex_db) 1
        = Ok (crud.get_seats_by_auditorium ex_db 1 ++ created).
Proof.
  split.
  - apply (seats_batch_endpoint ex_auditoriums ex_db 5 ex_batch_in).
    vm_compute. reflexivity.
  - destruct (seats_batch_endpoint ex_auditoriums ex_db 1 ex_batch_in)
      as [_ Hok].
    destruct Hok as (created & H1 & H2).
    + vm_compute. eauto.
    + vm_compute. discriminate.
    + exists created. split; [exact H1|exact H2].
Defined.

(** ** Pages *)

Lemma offset_limit_tile {A : Type} (rows : list A) skip n m :
  0 ≤ skip → 0 ≤ n → 0 ≤ m →
  offset_limit skip n rows ++ offset_limit (skip + n) m rows
  = offset_limit skip (n + m) rows.
Proof.
  intros Hs Hn Hm. unfold offset_limit.
  rewrite !decide_False by lia.
  rewrite Z2Nat.inj_add by lia. rewrite <- drop_drop.
  rewrite (Z2Nat.inj_add n m) by lia. apply take_take_drop.
Qed.

Lemma offset_limit_length {A : Type} (rows : list A) skip limit :
  0 ≤ limit →
  length (offset_limit skip limit rows)
  = (Z.to_nat limit `min` (length rows - Z.to_nat skip))%nat.
Proof.
  intros Hl. unfold offset_limit. rewrite decide_False by lia.
  by rewrite length_take, length_drop.
Qed.

Lemma offset_limit_all {A : Type} (rows : list A) limit :
  Z.of_nat (length rows) ≤ limit → offset_limit 0 limit rows = rows.
Proof.
  intros Hl. unfold offset_limit. rewrite decide_False by lia.
  simpl. apply take_ge. lia.
Qed.

(** X16: [get_movies], [get_auditoriums] and [get_showtimes] page through
    their table in order: for non-negative arguments a page of [n] rows
    followed by the next page of [m] rows is the page of [n + m] rows, a
    page holds [min limit (rows left after skip)] rows, and the page from
    0 holds the whole table when limit is at least its size. *)
Theorem pages_tile_the_table :
  (∀ movies skip n m,
     0 ≤ skip → 0 ≤ n → 0 ≤ m →
     crud.get_movies movies skip n ++ crud.get_movies movies (skip + n) m
     = crud.get_movies movies skip (n + m)
     ∧ length (crud.get_movies movies skip n)
       = (Z.to_nat n `min` (length movies - Z.to_nat skip))%nat
     ∧ (Z.of_nat (length movies) ≤ n → crud.get_movies movies 0 n = movies))
  ∧ (∀ auditoriums skip n m,
       0 ≤ skip → 0 ≤ n → 0 ≤ m →
       crud.get_auditoriums auditoriums skip n
       ++ crud.get_auditoriums auditoriums (skip + n) m
       = crud.get_auditoriums auditoriums skip (n + m)
       ∧ length (crud.get_auditoriums auditoriums skip n)
         = (Z.to_nat n `min` (length auditoriums - Z.to_nat skip))%nat
       ∧ (Z.of_nat (length auditoriums) ≤ n →
          crud.get_auditoriums auditoriums 0 n = auditoriums))
  ∧ (∀ d skip n m,
       0 ≤ skip → 0 ≤ n → 0 ≤ m →
       crud.get_showtimes d skip n ++ crud.get_showtimes d (skip + n) m
       = crud.get_showtimes d skip (n + m)
       ∧ length (crud.get_showtimes d skip n)
         = (Z.to_nat n `min` (length (showtimes d) - Z.to_nat skip))%nat
       ∧ (Z.of_nat (length (showtimes d)) ≤ n →
          crud.get_showtimes d 0 n = showtimes d)).
Proof.
  unfold crud.get_movies, crud.get_auditoriums, crud.get_showtimes.
  split; [|split]; intros rows skip n m Hs Hn Hm;
    (split; [by apply offset_limit_tile|]);
    (split; [by apply offset_limit_length|apply offset_limit_all]).
Qed.

Lemma pages_tile_the_table_witness :
  crud.get_movies ex_movies 0 1 ++ crud.get_movies ex_movies 1 1
  = crud.get_movies ex_movies 0 2
  ∧ map Movie.id (crud.get_movies ex_movies 1 100) = [2].
Proof.
  destruct pages_tile_the_table as (Hm & _).
  destruct (Hm ex_movies 0 1 1) as (Htile & _); [lia..|].
  split; [exact Htile|]. vm_compute. reflexivity.
Defined.

(** ** Showtimes removed, and the endpoints' answers *)

Section showtime_endpoints.
Implicit Types (d : Database) (x : crud.ShowtimeCreate).

Lemma elem_of_delete_by_id {A : Type} (id : A → Z) i (rows : list A) r :
  r ∈ delete_by_id id i rows ↔ r ∈ rows ∧ id r ≠ i.
Proof. unfold delete_by_id. rewrite list_elem_of_filter. tauto. Qed.

Lemma delete_showtime_rows d i :
  showtimes (crud.delete_showtime d i).2
  = delete_by_id Showtime.id i (showtimes d).
Proof.
  unfold crud.delete_showtime. rewrite get_showtime_by_id.
  destruct (first_by_id Showtime.id i (showtimes d)) as [e|] eqn:Hg; simpl.
  - by destruct (first_by_id_Some _ _ _ _ Hg) as [_ ->].
  - symmetry. apply delete_by_id_absent. by apply first_by_id_None.
Qed.
End showtime_endpoints.

(** X17: [delete_showtime] keeps the showtime ids unique and the
    showtimes of an auditorium from overlapping, and it frees the slot:
    when every showtime that the overlap query of a new showtime matches
    has the deleted id, [create_showtime] accepts the new showtime after
    the deletion. *)
Theorem delete_showtime_frees_the_slot d i x :
  (showtimes_pk d → showtimes_pk (crud.delete_showtime d i).2)
  ∧ (no_overlapping_showtimes d →
     no_overlapping_showtimes (crud.delete_showtime d i).2)
  ∧ ((∀ e, e ∈ showtimes d → crud.overlaps x e → Showtime.id e = i) →
     is_Some (crud.create_showtime (crud.delete_showtime d i).2 x).1).
Proof.
  split; [|split].
  - unfold showtimes_pk. rewrite delete_showtime_rows, delete_by_id_ids.
    apply NoDup_filter.
  - intros Hno a b Ha Hb. rewrite delete_showtime_rows in Ha, Hb.
    apply elem_of_delete_by_id in Ha as [Ha _], Hb as [Hb _].
    by apply Hno.
  - intros Honly.
    destruct (crud.create_showtime (crud.delete_showtime d i).2 x).1
      as [e|] eqn:Hc; [by eexists|].
    apply create_showtime_None in Hc.
    apply Exists_exists in Hc as (e & He & Hov).
    rewrite delete_showtime_rows in He.
    apply elem_of_delete_by_id in He as [He Hid].
    by destruct (Hid (Honly e He Hov)).
Qed.

Lemma delete_showtime_frees_the_slot_witness :
  (crud.create_showtime ex_db ex_showtime_in_early).1 = None
  ∧ is_Some (crud.create_showtime (crud.delete_showtime ex_db 10).2
               ex_showtime_in_early).1.
Proof.
  split; [vm_compute; reflexivity|].
  apply (delete_showtime_frees_the_slot ex_db 10 ex_showtime_in_early).
  intros e He _. vm_compute in He.
  apply list_elem_of_singleton in He. by subst e.
Defined.

(** X18: the endpoint [update_showtime] answers 409 "overlaps" exactly
    when no showtime has the id or another showtime passes the overlap
    test, and then writes nothing: for an id that no showtime has it
    reports an overlap, where [get_showtime] and [delete_showtime] answer
    404; [create_showtime] answers 409 exactly when a showtime passes the
    test. *)
Theorem showtime_endpoint_answers d i x :
  ((main.update_showtime d i x).1 = Raise main.ShowtimeOverlap
   ↔ crud.get_showtime d i = None
     ∨ Exists (λ e, Showtime.id e ≠ i ∧ crud.overlaps x e) (showtimes d))
  ∧ ((main.update_showtime d i x).1 = Raise main.ShowtimeOverlap →
     (main.update_showtime d i x).2 = d)
  ∧ (crud.get_showtime d i = None →
     main.update_showtime d i x = (Raise main.ShowtimeOverlap, d)
     ∧ main.get_showtime d i = Raise main.ShowtimeNotFound
     ∧ main.delete_showtime d i = (Raise main.ShowtimeNotFound, d))
  ∧ ((main.create_showtime d x).1 = Raise main.ShowtimeOverlap
     ↔ Exists (crud.overlaps x) (showtimes d)).
Proof.
  assert (∀ r : option Showtime.t * Database,
            (match r with
             | (None, d1) => (Raise main.ShowtimeOverlap, d1)
             | (Some showtime, d1) => (Ok showtime, d1)
             end).1 = Raise main.ShowtimeOverlap ↔ r.1 = None) as Hwrap.
  { intros [[e|] d1]; simpl; split; done. }
  assert (∀ r : option Showtime.t * Database,
            (match r with
             | (None, d1) => (Raise main.ShowtimeOverlap, d1)
             | (Some showtime, d1) => (Ok showtime, d1)
             end).2 = r.2) as Hsnd.
  { by intros [[e|] d1]. }
  split; [|split; [|split]].
  - unfold main.update_showtime. rewrite Hwrap.
    destruct (crud.get_showtime d i) as [e|] eqn:Hg.
    + rewrite update_showtime_None by (rewrite Hg; by eexists).
      split; [by right|]. by intros [?|?].
    + split; [by left|]. intros _. unfold crud.update_showtime.
      by rewrite Hg.
  - unfold main.update_showtime. rewrite Hwrap, Hsnd.
    apply update_showtime_rejected.
  - intros Hg.
    unfold main.update_showtime, main.get_showtime, main.delete_showtime,
      crud.update_showtime, crud.delete_showtime.
    by rewrite Hg.
  - unfold main.create_showtime. rewrite Hwrap. apply create_showtime_None.
Qed.

Lemma showtime_endpoint_answers_witness :
  main.update_showtime ex_db 99 ex_showtime_in
  = (Raise main.ShowtimeOverlap, ex_db)
  ∧ main.get_showtime ex_db 99 = Raise main.ShowtimeNotFound.
Proof.
  destruct (showtime_endpoint_answers ex_db 99 ex_showtime_in)
    as (_ & _ & Hmiss & _).
  destruct Hmiss as (H1 & H2 & _); [vm_compute; reflexivity|].
  split; [exact H1|exact H2].
Defined.

(** ** Signup *)

Section signup_facts.
Variable get_password_hash : string → string → string.
Implicit Types (users : list User.t) (x : schemas.UserCreate.t).

Lemma get_user_by_email_None users email :
  crud.get_user_by_email users email = None ↔ email ∉ map User.email users.
Proof.
  unfold crud.get_user_by_email.
  rewrite (first_None (λ u, User.email u = email)), Forall_forall. split.
  - intros Hall (u & -> & Hu)%list_elem_of_fmap. by apply (Hall u).
  - intros Hno u Hu <-. apply Hno, list_elem_of_fmap. eauto.
Qed.

Lemma signup_cases now salt users x :
  (schemas.UserCreate.email x ∈ map User.email users
   ∧ main.signup get_password_hash now salt users x
     = (Raise main.EmailAlreadyRegistered, users))
  ∨ ((schemas.UserCreate.email x ∉ map User.email users)
     ∧ main.signup get_password_hash now salt users x
       = (Ok (crud.create_user get_password_hash now salt users x).1,
          users ++ [(crud.create_user get_password_hash now salt users x).1])).
Proof.
  unfold main.signup.
  destruct (crud.get_user_by_email users (schemas.UserCreate.email x))
    as [u|] eqn:Hg.
  - left. split; [|done].
    apply (first_Some (λ u, User.email u = schemas.UserCreate.email x))
      in Hg as [Hu <-].
    apply list_elem_of_fmap. eauto.
  - right. split; [by apply get_user_by_email_None|done].
Qed.
End signup_facts.

(** X19: [signup] never stores two users with one email. With an email
    that a user already has it answers 400 and stores nothing; otherwise
    it appends one user with a fresh id, that email, the role user and the
    hash of the password, who is then the user [get_user_by_email] finds,
    and any later signup with the same email is refused. Distinct emails
    and distinct ids stay distinct. *)
Theorem signup_keeps_emails_unique get_password_hash now salt users x :
  (emails_unique users →
   emails_unique (main.signup get_password_hash now salt users x).2)
  ∧ (users_pk users →
     users_pk (main.signup get_password_hash now salt users x).2)
  ∧ (schemas.UserCreate.email x ∈ map User.email users →
     main.signup get_password_hash now salt users x
     = (Raise main.EmailAlreadyRegistered, users))
  ∧ (∀ user users1,
       main.signup get_password_hash now salt users x = (Ok user, users1) →
       (schemas.UserCreate.email x ∉ map User.email users)
       ∧ users1 = users ++ [user]
       ∧ (User.id user ∉ map User.id users)
       ∧ User.email user = schemas.UserCreate.email x
       ∧ User.role user = "user"
       ∧ User.password_hash user
         = get_password_hash salt (schemas.UserCreate.password x)
       ∧ crud.get_user_by_email users1 (schemas.UserCreate.email x)
         = Some user
       ∧ ∀ now' salt' x',
           schemas.UserCreate.email x' = schemas.UserCreate.email x →
           main.signup get_password_hash now' salt' users1 x'
           = (Raise main.EmailAlreadyRegistered, users1)).
Proof.
  destruct (signup_cases get_password_hash now salt users x)
    as [[Hin ->]|[Hnin ->]].
  - repeat split; try done.
  - pose proof (next_id_fresh (map User.id users)) as Hfresh.
    assert (User.id (crud.create_user get_password_hash now salt users x).1
            = next_id (map User.id users)) as Hid by done.
    assert (User.email (crud.create_user get_password_hash now salt users x).1
            = schemas.UserCreate.email x) as Hemail by done.
    assert (User.role (crud.create_user get_password_hash now salt users x).1
            = "user") as Hrole by done.
    assert (User.password_hash
              (crud.create_user get_password_hash now salt users x).1
            = get_password_hash salt (schemas.UserCreate.password x))
      as Hhash by done.
    remember (crud.create_user get_password_hash now salt users x).1 as u
      eqn:Hu.
    clear Hu. cbn [snd]. split; [|split; [|split]].
    + unfold emails_unique. intros Hnd. rewrite map_app. simpl.
      apply NoDup_app. split; [done|]. split; [|apply NoDup_singleton].
      intros e He ->%list_elem_of_singleton. by rewrite Hemail in He.
    + unfold users_pk. intros Hnd. rewrite map_app. simpl.
      apply NoDup_app. split; [done|]. split; [|apply NoDup_singleton].
      intros e He ->%list_elem_of_singleton. by rewrite Hid in He.
    + done.
    + intros user users1 [= <- <-]. split; [done|]. split; [done|].
      split; [by rewrite Hid|]. repeat (split; [done|]).
      assert (crud.get_user_by_email (users ++ [u])
                (schemas.UserCreate.email x) = Some u) as Hget.
      { unfold crud.get_user_by_email. rewrite filter_app.
        rewrite (proj2 (filter_nil_Forall _ users)).
        - simpl. by rewrite filter_cons_True.
        - apply Forall_forall. intros u' Hu' Heq. apply Hnin.
          rewrite <- Heq. apply list_elem_of_fmap. eauto. }
      split; [exact Hget|].
      intros now' salt' x' Heq. unfold main.signup. by rewrite Heq, Hget.
Qed.

Lemma signup_keeps_emails_unique_witness :
  ∃ user users1,
    main.signup ex_hash 1 "salt" [] ex_user_in = (Ok user, users1)
    ∧ crud.get_user_by_email users1 "test@example.com" = Some user
    ∧ main.signup ex_hash 2 "pepper" users1 ex_user_in
      = (Raise main.EmailAlreadyRegistered, users1).
Proof.
  destruct (signup_keeps_emails_unique ex_hash 1 "salt" [] ex_user_in)
    as (_ & _ & _ & Hok).
  eexists _, _. split; [vm_compute; reflexivity|].
  edestruct Hok as (_ & _ & _ & _ & _ & _ & Hget & Hagain);
    [vm_compute; reflexivity|].
  split; [exact Hget|]. by apply Hagain.
Defined.

(** ** Two holds in a race *)

Section racing_holds.
Implicit Types (s : State) (ids : list Z).

Lemma hold_write_eq now showtime_id ids s :
  hold_write now showtime_id ids s
  = (mkHoldSeatsResponse
       (next_id (map Reservation.id (reservations (db s))))
       (Some (now + HOLD_TTL_SECONDS)),
     mkState
       (add_reservation
          (Reservation.mk
             (next_id (map Reservation.id (reservations (db s))))
             None showtime_id "held" 0 (Some (now + HOLD_TTL_SECONDS)))
          (db s))
       (write_holds now showtime_id ids
          (next_id (map Reservation.id (reservations (db s))))
          (redis_client s))).
Proof. done. Qed.

Lemma held_reservation_kept rid d (r new : Reservation.t) :
  held_reservation rid d = Some r →
  held_reservation rid (add_reservation new d) = Some r.
Proof.
  unfold held_reservation, add_reservation. simpl. rewrite filter_app.
  destruct (filter _ (reservations d)) as [|r0 l]; [done|]. done.
Qed.

(** The entries of a reservation whose hold was written first, once a
    second hold has been written over it. *)
Lemma holds_seat_overwritten (now1 now2 t showtime_id : Z) ids1 ids2 s
    (r : Redis) (rid1 rid2 sid : Z) :
  holds_name_reservations s →
  redis_client s = Some r →
  rid1 ∉ map Reservation.id (reservations (db s)) →
  rid1 ≠ rid2 →
  holds_seat t showtime_id rid1
    (write_holds now2 showtime_id ids2 rid2
       (write_holds now1 showtime_id ids1 rid1 (Some r))) sid
  ↔ sid ∈ ids1 ∧ (sid ∉ ids2) ∧ t < now1 + HOLD_TTL_SECONDS.
Proof.
  intros Hinv Hr Hfresh Hne. unfold holds_seat, write_holds.
  rewrite !lookup_write_holds.
  assert (∀ ids, hold_key showtime_id sid ∈ map (hold_key showtime_id) ids
                 ↔ sid ∈ ids) as Hkey.
  { intros ids. rewrite list_elem_of_fmap. split.
    - by intros (sid' & [= <-] & Hin).
    - intros Hin. by exists sid. }
  destruct (decide (hold_key showtime_id sid
                    ∈ map (hold_key showtime_id) ids2)) as [H2|H2];
    rewrite Hkey in H2.
  { simpl. split; [by intros [_ ?]|tauto]. }
  destruct (decide (hold_key showtime_id sid
                    ∈ map (hold_key showtime_id) ids1)) as [H1|H1];
    rewrite Hkey in H1.
  { unfold live. simpl. tauto. }
  destruct (r !! hold_key showtime_id sid) as [e|] eqn:He; [|tauto].
  split; [|tauto]. intros [_ Hv]. exfalso.
  unfold holds_name_reservations in Hinv. rewrite Hr in Hinv.
  specialize (Hinv _ _ He). simpl in Hinv. by rewrite Hv in Hinv.
Qed.
End racing_holds.

(** X20: [hold_seats] checks and writes in two steps, so two requests
    that both pass the checks on the same state both write. Both get a
    reservation id; afterwards the second writer owns every seat it asked
    for, the first keeps only the seats the second did not ask for, and
    when the second list covers the first, the first reservation can
    never be confirmed: [confirm_reservation] raises HoldExpired at every
    instant. *)
Theorem racing_holds_last_writer_wins t1 t2 now1 now2 showtime_id ids1 ids2 s :
  holds_name_reservations s →
  is_Some (redis_client s) →
  hold_check t1 showtime_id ids1 s = None →
  hold_check t2 showtime_id ids2 s = None →
  ∃ resp1 s1 resp2 s2,
    hold_write now1 showtime_id ids1 s = (resp1, s1)
    ∧ hold_write now2 showtime_id ids2 s1 = (resp2, s2)
    ∧ rtc step (mkSystem s []) (mkSystem s2 [])
    ∧ hsr_reservation_id resp1 ≠ hsr_reservation_id resp2
    ∧ (∀ sid t,
         holds_seat t showtime_id (hsr_reservation_id resp2)
           (redis_client s2) sid
         ↔ sid ∈ ids2 ∧ t < now2 + HOLD_TTL_SECONDS)
    ∧ (∀ sid t,
         holds_seat t showtime_id (hsr_reservation_id resp1)
           (redis_client s2) sid
         ↔ sid ∈ ids1 ∧ (sid ∉ ids2) ∧ t < now1 + HOLD_TTL_SECONDS)
    ∧ (ids1 ⊆ ids2 →
       ∀ t, confirm_reservation t (hsr_reservation_id resp1) s2
            = (Raise HoldExpired, s2)).
Proof.
  intros Hinv [r Hr] Hc1 Hc2.
  eexists _, _, _, _. split; [apply hold_write_eq|].
  split; [apply hold_write_eq|].
  assert (step (mkSystem s [])
            (mkSystem s [HoldChecked showtime_id ids1])) as Hs1.
  { exact (step_hold_check t1 showtime_id ids1 (mkSystem s []) Hc1). }
  assert (step (mkSystem s [HoldChecked showtime_id ids1])
            (mkSystem s [HoldChecked showtime_id ids2;
                         HoldChecked showtime_id ids1])) as Hs2.
  { exact (step_hold_check t2 showtime_id ids2
             (mkSystem s [HoldChecked showtime_id ids1]) Hc2). }
  assert (step (mkSystem s [HoldChecked showtime_id ids2;
                            HoldChecked showtime_id ids1])
            (mkSystem (hold_write now1 showtime_id ids1 s).2
               [HoldChecked showtime_id ids2])) as Hs3.
  { exact (step_hold_write now1 showtime_id ids1
             (mkSystem s [HoldChecked showtime_id ids2;
                          HoldChecked showtime_id ids1])
             [HoldChecked showtime_id ids2] [] eq_refl). }
  assert (step (mkSystem (hold_write now1 showtime_id ids1 s).2
                  [HoldChecked showtime_id ids2])
            (mkSystem (hold_write now2 showtime_id ids2
                         (hold_write now1 showtime_id ids1 s).2).2 []))
    as Hs4.
  { exact (step_hold_write now2 showtime_id ids2
             (mkSystem (hold_write now1 showtime_id ids1 s).2
                [HoldChecked showtime_id ids2]) [] [] eq_refl). }
  pose proof (step_holds_name_reservations _ _ Hs3 Hinv) as Hinv1.
  rewrite !hold_write_eq in Hs3, Hs4, Hinv1. cbn [snd stores] in *.
  pose proof (next_id_fresh (map Reservation.id (reservations (db s))))
    as Hfresh1.
  remember (next_id (map Reservation.id (reservations (db s)))) as rid1
    eqn:Hrid1.
  remember (Reservation.mk rid1 None showtime_id "held" 0
              (Some (now1 + HOLD_TTL_SECONDS))) as new1 eqn:Hnew1.
  remember (mkState (add_reservation new1 (db s))
              (write_holds now1 showtime_id ids1 rid1 (redis_client s)))
    as s1 eqn:Hs1eq.
  pose proof (next_id_fresh (map Reservation.id (reservations (db s1))))
    as Hfresh2.
  remember (next_id (map Reservation.id (reservations (db s1)))) as rid2
    eqn:Hrid2.
  cbn [hsr_reservation_id redis_client db].
  assert (rid1 ≠ rid2) as Hne.
  { intros <-. apply Hfresh2. subst s1 new1. simpl.
    rewrite map_app. apply elem_of_app. right. by left. }
  assert (∃ r1, redis_client s1 = Some r1) as [r1 Hr1].
  { subst s1. rewrite Hr. by eexists. }
  assert (∀ sid t,
            holds_seat t showtime_id rid1
              (write_holds now2 showtime_id ids2 rid2 (redis_client s1)) sid
            ↔ sid ∈ ids1 ∧ (sid ∉ ids2) ∧ t < now1 + HOLD_TTL_SECONDS) as Hfirst.
  { intros sid t. subst s1. cbn [redis_client]. rewrite Hr.
    by apply (holds_seat_overwritten now1 now2 t showtime_id ids1 ids2 s r). }
  split; [|split; [done|split; [|split; [exact Hfirst|]]]].
  - eapply rtc_l; [exact Hs1|]. eapply rtc_l; [exact Hs2|].
    eapply rtc_l; [exact Hs3|]. subst rid2. apply rtc_once. exact Hs4.
  - intros sid t. rewrite Hr1.
    by apply (holds_seat_after_write now2 t showtime_id ids2 s1 r1).
  - intros Hsub t.
    apply (confirm_reservation_HoldExpired t rid1 _ new1).
    + cbn [db]. apply held_reservation_kept. subst s1. cbn [db].
      pose proof (held_reservation_new new1 (db s)) as Hnew.
      subst new1. cbn [Reservation.id Reservation.status] in Hnew.
      by apply Hnew.
    + intros sid Hin. apply elem_of_held_seats in Hin.
      cbn [redis_client] in Hin.
      assert (Reservation.showtime_id new1 = showtime_id) as Hst
        by by subst new1.
      rewrite Hst in Hin. apply Hfirst in Hin as (H1 & H2 & _).
      by apply H2, Hsub.
Qed.

Lemma racing_holds_last_writer_wins_witness :
  ∃ s2,
    (hold_write 6 10 [1; 2] (hold_write 5 10 [1] ex_state).2).2 = s2
    ∧ rtc step (mkSystem ex_state []) (mkSystem s2 [])
    ∧ confirm_reservation 7 1 s2 = (Raise HoldExpired, s2).
Proof.
  destruct (racing_holds_last_writer_wins 5 5 5 6 10 [1] [1; 2] ex_state)
    as (resp1 & s1 & resp2 & s2 & H1 & H2 & Hrun & _ & _ & _ & Hlost).
  - by_evaluation.
  - by eexists.
  - vm_compute. reflexivity.
  - vm_compute. reflexivity.
  - exists s2. injection H1 as <- <-. injection H2 as <- <-.
    split; [reflexivity|]. split; [exact Hrun|].
    apply Hlost. intros x ->%list_elem_of_singleton. by left.
Defined.

(** ** The service without Redis *)

Section no_redis.
Implicit Types (s : State) (sys : System).

Lemma confirm_read_no_redis t rid s :
  redis_client s = None →
  confirm_read t rid s = Raise ReservationNotFound
  ∨ confirm_read t rid s = Raise HoldExpired.
Proof.
  intros Hr. unfold confirm_read.
  destruct (held_reservation rid (db s)) as [reservation|]; [|by left].
  rewrite Hr. right. done.
Qed.

Lemma confirm_reservation_no_redis t rid s :
  redis_client s = None →
  confirm_reservation t rid s = (Raise ReservationNotFound, s)
  ∨ confirm_reservation t rid s = (Raise HoldExpired, s).
Proof.
  intros Hr. unfold confirm_reservation.
  destruct (confirm_read_no_redis t rid s Hr) as [-> | ->]; [by left|by right].
Qed.

(** Without Redis and with no confirmation in flight, a step leaves
    both so and the bookings as they are. *)
Lemma step_no_redis sys sys' :
  step sys sys' →
  redis_client (stores sys) = None →
  (∀ reservation sids, ConfirmRead reservation sids ∉ in_flight sys) →
  redis_client (stores sys') = None
  ∧ (∀ reservation sids, ConfirmRead reservation sids ∉ in_flight sys')
  ∧ booked_seats (db (stores sys')) = booked_seats (db (stores sys)).
Proof.
  intros Hstep Hr Hfl.
  destruct Hstep as [now req sys|now st ids sys Hchk
                    |now st ids sys before after Hin
                    |now rid sys reservation sids Hread
                    |sys reservation sids before after Hin]; simpl.
  - split; [|split; [done|]].
    + destruct req as [st|st ids|rid|x|i x]; simpl; try done.
      * unfold hold_seats. destruct (hold_check now st ids (stores sys));
          [done|]. simpl. by rewrite Hr.
      * by destruct (confirm_reservation_no_redis now rid (stores sys) Hr)
          as [-> | ->].
    + destruct req as [st|st ids|rid|x|i x]; simpl; try done.
      * unfold hold_seats. by destruct (hold_check now st ids (stores sys)).
      * by destruct (confirm_reservation_no_redis now rid (stores sys) Hr)
          as [-> | ->].
      * apply (showtime_writes_frame (db (stores sys)) x 0).
      * apply (showtime_writes_frame (db (stores sys)) x i).
  - split; [done|]. split; [|done].
    intros reservation sids [?|?]%elem_of_cons; [done|].
    by apply (Hfl reservation sids).
  - rewrite Hr. split; [done|]. split; [|done].
    intros reservation sids Hel. apply (Hfl reservation sids).
    rewrite Hin. apply elem_of_app in Hel as [?|?].
    + apply elem_of_app. by left.
    + apply elem_of_app. right. by right.
  - by destruct (confirm_read_no_redis now rid (stores sys) Hr)
      as [Hx|Hx]; rewrite Hx in Hread.
  - destruct (Hfl reservation sids). rewrite Hin.
    apply elem_of_app. right. by left.
Qed.
End no_redis.

(** X21: without Redis no seat is ever booked. When the Redis client is
    absent and no confirmation is in flight, then after any run the client
    is still absent, the BookedSeat table is what it was, and every
    [confirm_reservation] raises ReservationNotFound or HoldExpired and
    changes nothing - also for the reservations that [hold_seats] has
    handed out meanwhile. *)
Theorem no_redis_no_booking sys sys' :
  redis_client (stores sys) = None →
  (∀ reservation sids, ConfirmRead reservation sids ∉ in_flight sys) →
  rtc step sys sys' →
  redis_client (stores sys') = None
  ∧ booked_seats (db (stores sys')) = booked_seats (db (stores sys))
  ∧ ∀ t rid,
      confirm_reservation t rid (stores sys')
      = (Raise ReservationNotFound, stores sys')
      ∨ confirm_reservation t rid (stores sys')
        = (Raise HoldExpired, stores sys').
Proof.
  intros Hr Hfl Hrtc.
  assert (redis_client (stores sys') = None
          ∧ (∀ reservation sids,
               ConfirmRead reservation sids ∉ in_flight sys')
          ∧ booked_seats (db (stores sys')) = booked_seats (db (stores sys)))
    as (Hr' & _ & Hb).
  { induction Hrtc as [sys|sys sys1 sys2 Hstep _ IH]; [done|].
    destruct (step_no_redis sys sys1 Hstep Hr Hfl) as (Hr1 & Hfl1 & Hb1).
    destruct (IH Hr1 Hfl1) as (Hr2 & Hfl2 & Hb2).
    split; [done|]. split; [done|]. by rewrite Hb2. }
  split; [done|]. split; [done|].
  intros t rid. by apply confirm_reservation_no_redis.
Qed.

Lemma no_redis_no_booking_witness :
  hold_seats 5 10 [1; 2] ex_state_no_redis
  = (Ok (mkHoldSeatsResponse 1 (Some 605)),
     (hold_seats 5 10 [1; 2] ex_state_no_redis).2)
  ∧ booked_seats
      (db (confirm_reservation 7 1
             (hold_seats 5 10 [1; 2] ex_state_no_redis).2).2) = []
  ∧ (confirm_reservation 7 1 (hold_seats 5 10 [1; 2] ex_state_no_redis).2
     = (Raise ReservationNotFound,
        (hold_seats 5 10 [1; 2] ex_state_no_redis).2)
     ∨ confirm_reservation 7 1 (hold_seats 5 10 [1; 2] ex_state_no_redis).2
       = (Raise HoldExpired, (hold_seats 5 10 [1; 2] ex_state_no_redis).2)).
Proof.
  split; [vm_compute; reflexivity|].
  assert (rtc step (mkSystem ex_state_no_redis [])
            (mkSystem (hold_seats 5 10 [1; 2] ex_state_no_redis).2 []))
    as Hrun1.
  { apply rtc_once.
    exact (step_request 5 (HoldSeats 10 [1; 2])
             (mkSystem ex_state_no_redis [])). }
  assert (rtc step (mkSystem ex_state_no_redis [])
            (mkSystem (confirm_reservation 7 1
                         (hold_seats 5 10 [1; 2] ex_state_no_redis).2).2 []))
    as Hrun2.
  { eapply rtc_r; [exact Hrun1|].
    exact (step_request 7 (ConfirmReservation 1)
             (mkSystem (hold_seats 5 10 [1; 2] ex_state_no_redis).2 [])). }
  split.
  - destruct (no_redis_no_booking (mkSystem ex_state_no_redis []) _ eq_refl
                (λ reservation sids, not_elem_of_nil _) Hrun2)
      as (_ & Hb & _).
    exact Hb.
  - destruct (no_redis_no_booking (mkSystem ex_state_no_redis []) _ eq_refl
                (λ reservation sids, not_elem_of_nil _) Hrun1)
      as (_ & _ & Hc).
    exact (Hc 7 1).
Defined.
